(** * fyzenor: a shallow embedding of the terminal file manager

    The development follows the C++ source of the file manager (the version
    with the asynchronous preview pipeline).  Each module embeds one part of
    the program:

    - [Size] and [Base64]: the free functions [formatSize] and
      [base64_encode];
    - [Kitty]: [sendKittyGraphics], the chunked graphics encoder;
    - [Path], [Fs], [Catalog]: paths, the file system as the program
      observes it, [FileEntry] and [loadDirectory];
    - [Manager]: the [FileManager] state with the clipboard operations and
      [goUp];
    - [Preview]: the preview cache, with [startAsyncPreview], the worker's
      commit, [drawFromCache] and [drawPreview];
    - [Toy]: a small file system on which the model runs in the examples;
    - [Browse], [Panes], [Pins], [TextJob]: the selection and navigation
      handlers, the panes of entries, the pinned directories and the text
      job of a preview worker;
    - [Base64Shape], [CatalogShape], [Render], [Scale], [Scenes]: the
      vocabulary of the further properties and more states for the
      examples.

    The properties come after the definitions, one module of facts for each
    part.

    Conventions.  [size_t] values are [nat]; [int] and [long long] values are
    [Z]; a [std::string] is a [string] (bytes are [ascii]); a [std::vector] is
    a [list]; a [std::set] is a [gset], iterated in the order of its keys
    ([set_keys]).  A library call that can throw returns an [option] or an
    [outcome]; an exception that nothing catches ends the handler with
    [None]. *)

From Stdlib Require Import ZArith Floats SpecFloat String Ascii List Lia Bool.
From Stdlib Require Import DecimalString.
From stdpp Require Import base option list sorting gmap strings.

Import ListNotations.

(** ** formatSize *)

Module Size.
Local Open Scope Z_scope.

(** [const char *units[] = {"B", "KB", "MB", "GB", "TB"}] *)
Definition units : list string := ["B"; "KB"; "MB"; "GB"; "TB"].

(** Reading [a[i]] with an [int] index; outside the array there is no
    defined value. *)
Definition array_get {A} (a : list A) (i : Z) : option A :=
  if i <? 0 then None else a !! Z.to_nat i.

(** [static_cast<double>(size)]: the integer rounded to the nearest
    binary64 value. *)
Definition double_of_uintmax (size : Z) : float :=
  SF2Prim (binary_normalize 53 1024 size 0 false).

Definition f1024 : float := double_of_uintmax 1024.

(** [while (dSize > 1024 && i < 4) { dSize /= 1024; i++; }]
    One unit of fuel is spent per iteration; [None] is an exhausted fuel. *)
Fixpoint formatSize_loop (fuel : nat) (dSize : float) (i : Z)
  : option (float * Z) :=
  if (PrimFloat.ltb f1024 dSize) && (i <? 4) then
    match fuel with
    | O => None
    | S fuel' => formatSize_loop fuel' (PrimFloat.div dSize f1024) (i + 1)
    end
  else Some (dSize, i).

Section Format.
(** [snprintf]'s ["%.1f"] conversion of a double is left to the C
    library. *)
Variable printf_1f : float -> string.

(** [snprintf(buffer, sizeof(buffer), "%.1f %s", dSize, units[i])] with a
    buffer of 32 bytes keeps at most 31 characters. *)
Definition snprintf32 (dSize : float) (unit_name : string) : string :=
  String.substring 0 31 (printf_1f dSize +:+ " " +:+ unit_name).

Definition formatSize (fuel : nat) (size : Z) : option string :=
  match formatSize_loop fuel (double_of_uintmax size) 0 with
  | None => None
  | Some (dSize, i) =>
      match array_get units i with
      | None => None
      | Some u => Some (snprintf32 dSize u)
      end
  end.
End Format.

(** The unit index the loop stops at, for display in examples. *)
Definition unit_index (size : Z) : option Z :=
  match formatSize_loop 4 (double_of_uintmax size) 0 with
  | Some (_, i) => Some i
  | None => None
  end.

End Size.

(** ** base64_encode *)

Module Base64.
Local Open Scope Z_scope.

(** [base64_chars] *)
Definition base64_chars : string :=
  "ABCDEFGHIJKLMNOPQRSTUVWXYZabcdefghijklmnopqrstuvwxyz0123456789+/".

(** An [unsigned char] read as an integer. *)
Definition uchar (b : Byte.byte) : Z := Z.of_N (Byte.to_N b).

(** Storing an [int] into an [unsigned char] keeps the low eight bits. *)
Definition to_uchar (v : Z) : Z := v mod 256.

(** [base64_chars[v]]; the index is always below 64, see
    [Base64Facts.sextets_range_0] and the three lemmas after it. *)
Definition base64_char (v : Z) : ascii :=
  match String.get (Z.to_nat v) base64_chars with
  | Some c => c
  | None => Ascii.zero
  end.

(** The four assignments to [char_array_4] from [char_array_3]. *)
Definition char_array_4_0 (a0 : Z) : Z :=
  to_uchar (Z.shiftr (Z.land a0 252) 2).
Definition char_array_4_1 (a0 a1 : Z) : Z :=
  to_uchar (Z.shiftl (Z.land a0 3) 4 + Z.shiftr (Z.land a1 240) 4).
Definition char_array_4_2 (a1 a2 : Z) : Z :=
  to_uchar (Z.shiftl (Z.land a1 15) 2 + Z.shiftr (Z.land a2 192) 6).
Definition char_array_4_3 (a2 : Z) : Z :=
  to_uchar (Z.land a2 63).

Definition char_array_4 (a0 a1 a2 : Z) : Z * Z * Z * Z :=
  (char_array_4_0 a0, char_array_4_1 a0 a1,
   char_array_4_2 a1 a2, char_array_4_3 a2).

(** [for (i = 0; i < 4; i++) ret += base64_chars[char_array_4[i]]] *)
Definition emit4 (a0 a1 a2 : Z) : string :=
  let '(c0, c1, c2, c3) := char_array_4 a0 a1 a2 in
  String (base64_char c0) (String (base64_char c1)
    (String (base64_char c2) (String (base64_char c3) EmptyString))).

(** The tail after the loop, entered with [i] bytes pending (1 or 2): the
    unused slots are zeroed, [i + 1] characters are emitted, then [3 - i]
    padding characters. *)
Definition emit_tail (i : nat) (a0 a1 : Z) : string :=
  match i with
  | 1%nat =>
      let '(c0, c1, _, _) := char_array_4 a0 0 0 in
      String (base64_char c0) (String (base64_char c1) "==")
  | 2%nat =>
      let '(c0, c1, c2, _) := char_array_4 a0 a1 0 in
      String (base64_char c0) (String (base64_char c1)
        (String (base64_char c2) "="))
  | _ => ""
  end.

(** [while (len--) { char_array_3[i++] = *(bytes++); if (i == 3) ... }]
    The state carried round the loop is [i] and the bytes pending in
    [char_array_3]; [ret] only grows at its end, so the function returns what
    is appended to it. *)
Fixpoint encode_loop (bytes : list Byte.byte) (i : nat) (a0 a1 : Z) : string :=
  match bytes with
  | [] => emit_tail i a0 a1
  | b :: rest =>
      match i with
      | 0%nat => encode_loop rest 1 (uchar b) a1
      | 1%nat => encode_loop rest 2 a0 (uchar b)
      | _ => emit4 a0 a1 (uchar b) +:+ encode_loop rest 0 a0 a1
      end
  end.

Definition base64_encode (bytes : list Byte.byte) : string :=
  encode_loop bytes 0 0 0.

(** *** A reference decoder

    The program has no decoder: the terminal decodes.  This one follows
    RFC 4648 and is what the encoder is compared with. *)

Fixpoint index_of (c : ascii) (s : string) (k : Z) : option Z :=
  match s with
  | EmptyString => None
  | String d s' => if Ascii.eqb c d then Some k else index_of c s' (k + 1)
  end.

Definition decode_char (c : ascii) : option Z := index_of c base64_chars 0.

Definition byte_of_Z (v : Z) : option Byte.byte := Byte.of_N (Z.to_N v).

Definition pad : ascii := "="%char.

(** One group of four characters gives three bytes, or two or one before
    padding. *)
Definition decode_group (c0 c1 c2 c3 : ascii) : option (list Byte.byte) :=
  match decode_char c0, decode_char c1 with
  | Some s0, Some s1 =>
      match byte_of_Z (Z.lor (Z.shiftl s0 2) (Z.shiftr s1 4)) with
      | None => None
      | Some b0 =>
          if Ascii.eqb c2 pad then
            if Ascii.eqb c3 pad then Some [b0] else None
          else
            match decode_char c2 with
            | None => None
            | Some s2 =>
                match byte_of_Z (Z.lor (Z.shiftl (Z.land s1 15) 4)
                                       (Z.shiftr s2 2)) with
                | None => None
                | Some b1 =>
                    if Ascii.eqb c3 pad then Some [b0; b1]
                    else
                      match decode_char c3 with
                      | None => None
                      | Some s3 =>
                          match byte_of_Z (Z.lor (Z.shiftl (Z.land s2 3) 6)
                                                 s3) with
                          | None => None
                          | Some b2 => Some [b0; b1; b2]
                          end
                      end
                end
            end
      end
  | _, _ => None
  end.

Fixpoint base64_decode (s : string) : option (list Byte.byte) :=
  match s with
  | EmptyString => Some []
  | String c0 (String c1 (String c2 (String c3 rest))) =>
      match decode_group c0 c1 c2 c3 with
      | None => None
      | Some g =>
          if Ascii.eqb c3 pad then
            match rest with EmptyString => Some g | _ => None end
          else
            match base64_decode rest with
            | None => None
            | Some r => Some (g ++ r)
            end
      end
  | _ => None
  end.

(** *** Values to check a property on

    Every byte value, every sextet value, and the tests run on them. *)

Definition byte_values : list Z := map Z.of_nat (seq 0 256).

Definition sextet_values : list Z := map Z.of_nat (seq 0 64).

Definition in_sextet (v : Z) : bool := (0 <=? v) && (v <? 64).

Definition option_Z_eqb (o : option Z) (v : Z) : bool :=
  match o with Some w => w =? v | None => false end.

End Base64.

(** ** sendKittyGraphics *)

Module Kitty.

(** One escape-framed chunk written by an iteration of the loop:
    whether it carries the placement keys (written when [offset == 0]),
    the value of [isLast], and the slice of the payload. *)
Record frame := Frame {
  has_meta : bool;
  is_last : bool;
  payload : string;
}.

(** [const size_t chunk_size = 4096] *)
Definition chunk_size : nat := 4096.

(** The body of [while (offset < total)], with the chunk size as a
    parameter.  One unit of fuel is spent per iteration; [None] is an
    exhausted fuel. *)
Fixpoint chunk_loop (fuel : nat) (csize : nat) (b64Data : string)
    (offset : nat) : option (list frame) :=
  let total := String.length b64Data in
  if (offset <? total)%nat then
    match fuel with
    | O => None
    | S fuel' =>
        let chunkLen := Nat.min csize (total - offset) in
        let isLast := (total <=? offset + chunkLen)%nat in
        match chunk_loop fuel' csize b64Data (offset + chunkLen) with
        | None => None
        | Some fs =>
            Some (Frame (offset =? 0)%nat isLast
                        (String.substring offset chunkLen b64Data) :: fs)
        end
    end
  else Some [].

(** The escape character, [\033]. *)
Definition ESC : string := String (ascii_of_nat 27) EmptyString.

(** What one iteration writes to [std::cout]. *)
Definition frame_wire (f : frame) : string :=
  ESC +:+ "_G"
  +:+ (if has_meta f then "a=T,f=100,t=d,q=2," else "")
  +:+ "m=" +:+ (if is_last f then "0" else "1") +:+ ";"
  +:+ payload f
  +:+ ESC +:+ "\".

(** [std::cout << n] for an [int]. *)
Definition decimal (n : Z) : string := NilZero.string_of_int (Z.to_int n).

(** [std::cout << "\033[" << (pY + 7) << ";" << (pX + 2) << "H"] *)
Definition cursor_to (pY pX : Z) : string :=
  ESC +:+ "[" +:+ decimal (pY + 7)%Z +:+ ";" +:+ decimal (pX + 2)%Z +:+ "H".

Fixpoint concat_wire (fs : list frame) : string :=
  match fs with
  | [] => ""
  | f :: fs' => frame_wire f +:+ concat_wire fs'
  end.

(** The frames [sendKittyGraphics] emits for a payload. *)
Definition kitty_frames (fuel : nat) (b64Data : string) : option (list frame) :=
  chunk_loop fuel chunk_size b64Data 0.

(** Everything [sendKittyGraphics] writes to the terminal. *)
Definition sendKittyGraphics (fuel : nat) (b64Data : string) (pY pX : Z)
  : option string :=
  match kitty_frames fuel b64Data with
  | None => None
  | Some fs => Some (cursor_to pY pX +:+ concat_wire fs)
  end.

(** The payloads of the frames, joined in the order they were sent. *)
Fixpoint joined_payload (fs : list frame) : string :=
  match fs with
  | [] => ""
  | f :: fs' => payload f +:+ joined_payload fs'
  end.

(** The number of chunks: the length divided by the chunk size, rounded
    up. *)
Definition chunk_count (csize total : nat) : nat :=
  (total + csize - 1) / csize.

(** The [k]-th frame, read off the payload. *)
Definition frame_at (csize : nat) (s : string) (k : nat) : frame :=
  let total := String.length s in
  Frame (k =? 0)%nat
        (total <=? k * csize + Nat.min csize (total - k * csize))%nat
        (String.substring (k * csize) (Nat.min csize (total - k * csize)) s).

End Kitty.

(** ** Paths *)

Module Path.

(** An [fs::path] in normal form: whether it starts at the root, and its
    elements in order.  Trailing separators and the elements [.] and [..]
    are not represented; the paths the program handles come from
    [fs::current_path()], from directory iteration, from [parent_path()] and
    from [operator/], none of which produces them. *)
Record fspath := MkPath {
  absolute : bool;
  components : list string;
}.

#[export] Instance fspath_eq_dec : EqDecision fspath.
Proof. solve_decision. Defined.

#[export] Instance fspath_countable : Countable fspath :=
  inj_countable' (fun p => (absolute p, components p))
                 (fun ac => MkPath (fst ac) (snd ac))
                 (fun p => match p with MkPath a c => eq_refl end).

Definition root : fspath := MkPath true [].

(** [p.filename().string()]; empty for the root. *)
Definition filename (p : fspath) : string :=
  default "" (last (components p)).

(** [p.parent_path()]; the root is its own parent. *)
Definition parent_path (p : fspath) : fspath :=
  MkPath (absolute p) (removelast (components p)).

(** [p.empty()] *)
Definition path_empty (p : fspath) : bool :=
  negb (absolute p) && bool_decide (components p = []).

(** [p.has_parent_path()] *)
Definition has_parent_path (p : fspath) : bool :=
  negb (path_empty (parent_path p)).

(** [p / name] for a single element. *)
Definition append (p : fspath) (name : string) : fspath :=
  MkPath (absolute p) (components p ++ [name]).

(** [p.string()] *)
Definition path_string (p : fspath) : string :=
  (if absolute p then "/" else "") +:+ String.concat "/" (components p).

Definition dot : ascii := "."%char.

(** The position of the last period of a name, scanning from [pos]. *)
Fixpoint last_dot (s : string) (pos : nat) (found : option nat) : option nat :=
  match s with
  | EmptyString => found
  | String c s' =>
      last_dot s' (S pos) (if Ascii.eqb c dot then Some pos else found)
  end.

(** [p.extension().string()]: from the last period of the file name to its
    end, unless the name is [.] or [..] or the period is its first
    character. *)
Definition extension_of (name : string) : string :=
  if String.eqb name "." || String.eqb name ".." then ""
  else
    match last_dot name 0 None with
    | Some (S k) => String.substring (S k) (String.length name - S k) name
    | _ => ""
    end.

(** [::tolower] on the ASCII letters. *)
Definition tolower (c : ascii) : ascii :=
  let n := nat_of_ascii c in
  if (65 <=? n) && (n <=? 90) then ascii_of_nat (n + 32) else c.

Fixpoint lowercase (s : string) : string :=
  match s with
  | EmptyString => EmptyString
  | String c s' => String (tolower c) (lowercase s')
  end.

(** The elements of two paths compared in order, each as a [std::string]
    (bytes as unsigned); a path that ends first comes first. *)
Fixpoint components_compare (a b : list string) : comparison :=
  match a, b with
  | [], [] => Eq
  | [], _ :: _ => Lt
  | _ :: _, [] => Gt
  | x :: a', y :: b' =>
      match String.compare x y with
      | Eq => components_compare a' b'
      | c => c
      end
  end.

(** [p.compare(q)]: a path without a root directory comes before one with
    it; then the elements decide. *)
Definition path_compare (p q : fspath) : comparison :=
  match absolute p, absolute q with
  | false, true => Lt
  | true, false => Gt
  | _, _ => components_compare (components p) (components q)
  end.

(** [!(q < p)], the order in which a [std::set<fs::path>] keeps its
    keys. *)
Definition path_le (p q : fspath) : Prop := path_compare p q <> Gt.

#[export] Instance path_le_dec : RelDecision path_le.
Proof. intros p q. unfold path_le. apply _. Defined.

End Path.

(** ** The file system, as the program observes it *)

Module Fs.
Import Path.

(** The result of a mutating call: the world after it, and whether the call
    returned or threw. *)
Inductive outcome (W : Type) : Type :=
| Done (w : W)
| Threw (w : W).
Arguments Done {W} w.
Arguments Threw {W} w.

(** The [std::filesystem] calls the program makes, over a type [W] of
    states of the world.  A call can throw and returns an [option]
    ([None]: it threw) or an [outcome].  [fs::exists] throws when the
    status of the path cannot be determined; in [handlePaste] it is called
    outside any [try].

    [fs_list w p] is what iterating [fs::directory_iterator(p)] yields: the
    file names in the order they come, and whether the iteration came to
    its end ([false]: it threw, on opening the directory if no name came
    before). *)
Class FileSystem (W : Type) : Type := {
  fs_exists : W -> fspath -> option bool;
  fs_is_directory : W -> fspath -> option bool;
  fs_file_size : W -> fspath -> option Z;
  fs_list : W -> fspath -> list string * bool;
  fs_read : W -> fspath -> option string;
  fs_rename : W -> fspath -> fspath -> outcome W;
  fs_copy : W -> fspath -> fspath -> outcome W;
  fs_copy_recursive : W -> fspath -> fspath -> outcome W;
  fs_remove_all : W -> fspath -> outcome W;
}.

End Fs.

(** ** FileEntry and loadDirectory *)

Module Catalog.
Import Path Fs.

Record FileEntry := MkFileEntry {
  path : fspath;
  name : string;
  is_directory : bool;
  size : Z;
  extension : string;
}.

(** The comparison [std::sort] is called with is [a.name < b.name]; a range
    is sorted for it when no element is less than one before it, that is
    when names never decrease. *)
Definition name_le (a b : FileEntry) : Prop := String.le (name a) (name b).

(** [std::sort] by its contract: the result is a rearrangement of the
    argument and is sorted for the comparison. *)
Class StdSort : Type := {
  std_sort : list FileEntry -> list FileEntry;
  std_sort_perm : forall l, std_sort l ≡ₚ l;
  std_sort_sorted : forall l, StronglySorted name_le (std_sort l);
}.


Section Load.
Context {W : Type} `{FileSystem W} `{StdSort}.

(** The constructor [FileEntry(const fs::path &p)].  [fs::is_directory(p)]
    can throw ([None]); a throwing [fs::file_size(p)] is caught and gives
    the size 0. *)
Definition newFileEntry (w : W) (p : fspath) : option FileEntry :=
  match fs_is_directory w p with
  | None => None
  | Some d =>
      Some (MkFileEntry p (filename p) d
              (if d then 0%Z else default 0%Z (fs_file_size w p))
              (lowercase (extension_of (filename p))))
  end.

(** [entry.path().filename().string().front() == '.'] *)
Definition starts_with_dot (fname : string) : bool :=
  match fname with
  | String c _ => Ascii.eqb c dot
  | EmptyString => false
  end.

(** One of the two [for] loops over the directory: the entries that are
    directories ([want_dirs]) or that are not are appended to [target].
    The second component is [false] when a call threw, which ends the loop
    with what was appended so far. *)
Fixpoint scan (w : W) (dir : fspath) (showHidden want_dirs : bool)
    (names : list string) (target : list FileEntry)
  : list FileEntry * bool :=
  match names with
  | [] => (target, true)
  | n :: rest =>
      if negb showHidden && starts_with_dot n then
        scan w dir showHidden want_dirs rest target
      else
        match fs_is_directory w (append dir n) with
        | None => (target, false)
        | Some d =>
            if Bool.eqb d want_dirs then
              match newFileEntry w (append dir n) with
              | None => (target, false)
              | Some e =>
                  scan w dir showHidden want_dirs rest (target ++ [e])
              end
            else scan w dir showHidden want_dirs rest target
        end
  end.

(** A whole iteration: the loop over the names that come, then the end of
    the iteration itself. *)
Definition iterate (w : W) (dir : fspath) (showHidden want_dirs : bool)
    (target : list FileEntry) : list FileEntry * bool :=
  let '(names, ended) := fs_list w dir in
  let '(target', ok) := scan w dir showHidden want_dirs names target in
  (target', ok && ended).

(** [loadDirectory(path, target)]: the new contents of [target], and
    whether the body of the [try] ran to its end.  (The function also
    clears [multiSelection]; see [FileManager].) *)
Definition loadDirectory (w : W) (showHidden : bool) (dir : fspath)
  : list FileEntry * bool :=
  let '(dirs, ok1) := iterate w dir showHidden true [] in
  if negb ok1 then (dirs, false)
  else
    let sorted_dirs := std_sort dirs in
    let split := length sorted_dirs in
    let '(all, ok2) := iterate w dir showHidden false sorted_dirs in
    if negb ok2 then (all, false)
    else (take split all ++ std_sort (drop split all), true).

End Load.

End Catalog.

(** ** The FileManager state *)

Module Manager.
Import Path Fs Catalog.

Record Clipboard := MkClipboard {
  paths : list fspath;
  isCut : bool;
}.

(** [enum class PreviewType { NONE, IMAGE, TEXT }] *)
Inductive PreviewType := NONE | IMAGE | TEXT.

#[export] Instance PreviewType_eq_dec : EqDecision PreviewType.
Proof. solve_decision. Defined.

(** The members of [class FileManager] that the operations below read or
    write.  The pin list, the curses windows and the screen size are left
    out; the geometry the drawing code reads is passed to it. *)
Record FileManager := MkFileManager {
  currentPath : fspath;
  currentFiles : list FileEntry;
  parentFiles : list FileEntry;
  multiSelection : gset fspath;
  selectedIndex : nat;
  scrollOffset : nat;
  clipboard : Clipboard;
  statusMessage : string;
  showHidden : bool;
  imageReady : bool;
  cachedBase64 : string;
  cachedTextLines : list string;
  cachedPath : string;
  requestedPath : string;
  requestID : Z;
  lastWasDirectRender : bool;
}.

(** Assignments to one member. *)
Definition set_currentPath (v : fspath) (fm : FileManager) : FileManager :=
  MkFileManager v (currentFiles fm) (parentFiles fm) (multiSelection fm)
    (selectedIndex fm) (scrollOffset fm) (clipboard fm) (statusMessage fm)
    (showHidden fm) (imageReady fm) (cachedBase64 fm) (cachedTextLines fm)
    (cachedPath fm) (requestedPath fm) (requestID fm)
    (lastWasDirectRender fm).
Definition set_currentFiles (v : list FileEntry) (fm : FileManager) : FileManager :=
  MkFileManager (currentPath fm) v (parentFiles fm) (multiSelection fm)
    (selectedIndex fm) (scrollOffset fm) (clipboard fm) (statusMessage fm)
    (showHidden fm) (imageReady fm) (cachedBase64 fm) (cachedTextLines fm)
    (cachedPath fm) (requestedPath fm) (requestID fm)
    (lastWasDirectRender fm).
Definition set_parentFiles (v : list FileEntry) (fm : FileManager) : FileManager :=
  MkFileManager (currentPath fm) (currentFiles fm) v (multiSelection fm)
    (selectedIndex fm) (scrollOffset fm) (clipboard fm) (statusMessage fm)
    (showHidden fm) (imageReady fm) (cachedBase64 fm) (cachedTextLines fm)
    (cachedPath fm) (requestedPath fm) (requestID fm)
    (lastWasDirectRender fm).
Definition set_multiSelection (v : gset fspath) (fm : FileManager) : FileManager :=
  MkFileManager (currentPath fm) (currentFiles fm) (parentFiles fm) v
    (selectedIndex fm) (scrollOffset fm) (clipboard fm) (statusMessage fm)
    (showHidden fm) (imageReady fm) (cachedBase64 fm) (cachedTextLines fm)
    (cachedPath fm) (requestedPath fm) (requestID fm)
    (lastWasDirectRender fm).
Definition set_selectedIndex (v : nat) (fm : FileManager) : FileManager :=
  MkFileManager (currentPath fm) (currentFiles fm) (parentFiles fm)
    (multiSelection fm) v (scrollOffset fm) (clipboard fm)
    (statusMessage fm) (showHidden fm) (imageReady fm) (cachedBase64 fm)
    (cachedTextLines fm) (cachedPath fm) (requestedPath fm) (requestID fm)
    (lastWasDirectRender fm).
Definition set_scrollOffset (v : nat) (fm : FileManager) : FileManager :=
  MkFileManager (currentPath fm) (currentFiles fm) (parentFiles fm)
    (multiSelection fm) (selectedIndex fm) v (clipboard fm)
    (statusMessage fm) (showHidden fm) (imageReady fm) (cachedBase64 fm)
    (cachedTextLines fm) (cachedPath fm) (requestedPath fm) (requestID fm)
    (lastWasDirectRender fm).
Definition set_clipboard (v : Clipboard) (fm : FileManager) : FileManager :=
  MkFileManager (currentPath fm) (currentFiles fm) (parentFiles fm)
    (multiSelection fm) (selectedIndex fm) (scrollOffset fm) v
    (statusMessage fm) (showHidden fm) (imageReady fm) (cachedBase64 fm)
    (cachedTextLines fm) (cachedPath fm) (requestedPath fm) (requestID fm)
    (lastWasDirectRender fm).
Definition set_statusMessage (v : string) (fm : FileManager) : FileManager :=
  MkFileManager (currentPath fm) (currentFiles fm) (parentFiles fm)
    (multiSelection fm) (selectedIndex fm) (scrollOffset fm) (clipboard fm)
    v (showHidden fm) (imageReady fm) (cachedBase64 fm)
    (cachedTextLines fm) (cachedPath fm) (requestedPath fm) (requestID fm)
    (lastWasDirectRender fm).
Definition set_imageReady (v : bool) (fm : FileManager) : FileManager :=
  MkFileManager (currentPath fm) (currentFiles fm) (parentFiles fm)
    (multiSelection fm) (selectedIndex fm) (scrollOffset fm) (clipboard fm)
    (statusMessage fm) (showHidden fm) v (cachedBase64 fm)
    (cachedTextLines fm) (cachedPath fm) (requestedPath fm) (requestID fm)
    (lastWasDirectRender fm).
Definition set_cachedBase64 (v : string) (fm : FileManager) : FileManager :=
  MkFileManager (currentPath fm) (currentFiles fm) (parentFiles fm)
    (multiSelection fm) (selectedIndex fm) (scrollOffset fm) (clipboard fm)
    (statusMessage fm) (showHidden fm) (imageReady fm) v
    (cachedTextLines fm) (cachedPath fm) (requestedPath fm) (requestID fm)
    (lastWasDirectRender fm).
Definition set_cachedTextLines (v : list string) (fm : FileManager) : FileManager :=
  MkFileManager (currentPath fm) (currentFiles fm) (parentFiles fm)
    (multiSelection fm) (selectedIndex fm) (scrollOffset fm) (clipboard fm)
    (statusMessage fm) (showHidden fm) (imageReady fm) (cachedBase64 fm) v
    (cachedPath fm) (requestedPath fm) (requestID fm)
    (lastWasDirectRender fm).
Definition set_cachedPath (v : string) (fm : FileManager) : FileManager :=
  MkFileManager (currentPath fm) (currentFiles fm) (parentFiles fm)
    (multiSelection fm) (selectedIndex fm) (scrollOffset fm) (clipboard fm)
    (statusMessage fm) (showHidden fm) (imageReady fm) (cachedBase64 fm)
    (cachedTextLines fm) v (requestedPath fm) (requestID fm)
    (lastWasDirectRender fm).
Definition set_requestedPath (v : string) (fm : FileManager) : FileManager :=
  MkFileManager (currentPath fm) (currentFiles fm) (parentFiles fm)
    (multiSelection fm) (selectedIndex fm) (scrollOffset fm) (clipboard fm)
    (statusMessage fm) (showHidden fm) (imageReady fm) (cachedBase64 fm)
    (cachedTextLines fm) (cachedPath fm) v (requestID fm)
    (lastWasDirectRender fm).
Definition set_requestID (v : Z) (fm : FileManager) : FileManager :=
  MkFileManager (currentPath fm) (currentFiles fm) (parentFiles fm)
    (multiSelection fm) (selectedIndex fm) (scrollOffset fm) (clipboard fm)
    (statusMessage fm) (showHidden fm) (imageReady fm) (cachedBase64 fm)
    (cachedTextLines fm) (cachedPath fm) (requestedPath fm) v
    (lastWasDirectRender fm).
Definition set_lastWasDirectRender (v : bool) (fm : FileManager) : FileManager :=
  MkFileManager (currentPath fm) (currentFiles fm) (parentFiles fm)
    (multiSelection fm) (selectedIndex fm) (scrollOffset fm) (clipboard fm)
    (statusMessage fm) (showHidden fm) (imageReady fm) (cachedBase64 fm)
    (cachedTextLines fm) (cachedPath fm) (requestedPath fm) (requestID fm)
    v.

(** [setStatus(msg)] *)
Definition setStatus (msg : string) (fm : FileManager) : FileManager :=
  set_statusMessage msg fm.

(** The keys of a [std::set<fs::path>] in the order a range-based [for]
    walks them: increasing for [operator<]. *)
Definition set_keys (s : gset fspath) : list fspath :=
  merge_sort path_le (elements s).

Section Operations.
Context {W : Type} `{FileSystem W} `{StdSort}.

(** [loadDirectory(path, target)] as a member function: [target] is
    replaced and [multiSelection] is cleared.  [into_current] tells which
    of [currentFiles] and [parentFiles] is the target. *)
Definition loadDirectoryInto (into_current : bool) (w : W) (dir : fspath)
    (fm : FileManager) : FileManager :=
  let '(target, _) := loadDirectory w (showHidden fm) dir in
  let fm' := set_multiSelection ∅ fm in
  if into_current then set_currentFiles target fm'
  else set_parentFiles target fm'.

(** [loadParent()] *)
Definition loadParent (w : W) (fm : FileManager) : FileManager :=
  if has_parent_path (currentPath fm)
     && bool_decide (currentPath fm <> parent_path (currentPath fm))
  then loadDirectoryInto false w (parent_path (currentPath fm)) fm
  else set_parentFiles [] fm.

(** [reloadAll()] *)
Definition reloadAll (w : W) (fm : FileManager) : FileManager :=
  loadParent w (loadDirectoryInto true w (currentPath fm) fm).

(** What [handleCopy] and [handleCut] put on the clipboard: the entry under
    the cursor when nothing is selected, else the selection in the order of
    its keys.  The read [currentFiles[selectedIndex]] is defined for an
    index in range only. *)
Definition yank_paths (fm : FileManager) : option (list fspath) :=
  if decide (multiSelection fm = ∅) then
    match currentFiles fm !! selectedIndex fm with
    | Some f => Some [path f]
    | None => None
    end
  else Some (set_keys (multiSelection fm)).

(** [handleCopy()] and [handleCut()], which differ in the flag and in the
    message.  [None]: the read of [currentFiles[selectedIndex]] was out of
    range. *)
Definition handleYank (cut : bool) (fm : FileManager) : option FileManager :=
  match currentFiles fm with
  | [] => Some fm
  | _ :: _ =>
      match yank_paths fm with
      | None => None
      | Some ps =>
          Some (set_multiSelection ∅
                  (setStatus (if cut then "Cut items" else "Yanked items")
                     (set_clipboard (MkClipboard ps cut) fm)))
      end
  end.

Definition handleCopy : FileManager -> option FileManager := handleYank false.
Definition handleCut : FileManager -> option FileManager := handleYank true.

(** The body of the loop of [handlePaste] for one clipboard path: the
    world after it and whether [successCount] was incremented.  [None]:
    [fs::exists(dest)], which is evaluated first and outside the [try],
    threw; the exception leaves [handlePaste]. *)
Definition paste_item (cut : bool) (target_dir : fspath) (w : W)
    (src : fspath) : option (W * bool) :=
  let dest := append target_dir (filename src) in
  match fs_exists w dest with
  | None => None
  | Some found =>
      Some
        (if found && negb cut && bool_decide (src <> dest) then (w, false)
         else if cut then
           match fs_rename w src dest with
           | Done w1 => (w1, true)
           | Threw w1 =>
               match fs_is_directory w1 src with
               | None => (w1, false)
               | Some d =>
                   match (if d then fs_copy_recursive w1 src dest
                          else fs_copy w1 src dest) with
                   | Threw w2 => (w2, false)
                   | Done w2 =>
                       match fs_remove_all w2 src with
                       | Done w3 => (w3, true)
                       | Threw w3 => (w3, false)
                       end
                   end
               end
           end
         else
           match fs_is_directory w src with
           | None => (w, false)
           | Some d =>
               match (if d then fs_copy_recursive w src dest
                      else fs_copy w src dest) with
               | Done w1 => (w1, true)
               | Threw w1 => (w1, false)
               end
           end)
  end.

(** [for (const auto &src : clipboard.paths)]: the world after the loop
    and [successCount]; [None] in place of the count when an exception
    left the loop, the world being the one it was thrown in. *)
Fixpoint paste_loop (cut : bool) (target_dir : fspath) (w : W)
    (srcs : list fspath) (successCount : Z) : W * option Z :=
  match srcs with
  | [] => (w, Some successCount)
  | src :: rest =>
      match paste_item cut target_dir w src with
      | None => (w, None)
      | Some (w', ok) =>
          paste_loop cut target_dir w' rest
            (if ok then (successCount + 1)%Z else successCount)
      end
  end.

(** [handlePaste()].  [None] in place of the manager: an exception left
    the function.  It is thrown inside the loop, before any member is
    written, and nothing in the program catches it. *)
Definition handlePaste (w : W) (fm : FileManager)
  : W * option FileManager :=
  match paths (clipboard fm) with
  | [] => (w, Some (setStatus "Clipboard empty" fm))
  | _ :: _ =>
      match paste_loop (isCut (clipboard fm)) (currentPath fm) w
                       (paths (clipboard fm)) 0%Z with
      | (w', None) => (w', None)
      | (w', Some successCount) =>
          let fm1 :=
            if isCut (clipboard fm) && (0 <? successCount)%Z
            then set_clipboard (MkClipboard [] (isCut (clipboard fm))) fm
            else fm in
          let fm2 :=
            setStatus (if isCut (clipboard fm1) then "Moved items"
                       else "Pasted items") fm1 in
          (w', Some (reloadAll w' fm2))
      end
  end.

(** [clearDirectRender()], on the state; what it writes to the terminal is
    [PaintClearDirect] in [Preview]. *)
Definition clearDirectRender (fm : FileManager) : FileManager :=
  set_lastWasDirectRender false fm.

(** The loop of [goUp] that looks for [oldDirName]: the first index whose
    entry has that name. *)
Fixpoint find_name (files : list FileEntry) (oldDirName : string) (i : nat)
  : option nat :=
  match files with
  | [] => None
  | f :: rest =>
      if String.eqb (name f) oldDirName then Some i
      else find_name rest oldDirName (S i)
  end.

(** [goUp()] *)
Definition goUp (w : W) (fm : FileManager) : FileManager :=
  if has_parent_path (currentPath fm)
     && bool_decide (currentPath fm <> parent_path (currentPath fm))
  then
    let oldDirName := filename (currentPath fm) in
    let fm1 := clearDirectRender fm in
    let fm2 := set_currentPath (parent_path (currentPath fm1)) fm1 in
    let fm3 := reloadAll w fm2 in
    let fm4 :=
      set_selectedIndex
        (default 0 (find_name (currentFiles fm3) oldDirName 0)) fm3 in
    set_scrollOffset
      (if (10 <? selectedIndex fm4)%nat then selectedIndex fm4 - 10 else 0)
      fm4
  else fm.




(** Pastes one after the other, each into the directory given for it,
    as long as they return. *)
Fixpoint paste_each (w : W) (fm : FileManager) (dirs : list fspath)
  : W * option FileManager :=
  match dirs with
  | [] => (w, Some fm)
  | d :: rest =>
      match handlePaste w (set_currentPath d fm) with
      | (w', None) => (w', None)
      | (w', Some fm') => paste_each w' fm' rest
      end
  end.

End Operations.

End Manager.

(** ** The preview cache *)

Module Preview.
Import Path Fs Catalog Manager.

(** The configuration sets. *)
Definition VIDEO_EXTS : list string :=
  [".mp4"; ".mkv"; ".avi"; ".mov"; ".flv"; ".wmv"; ".webm"].
Definition IMAGE_EXTS : list string :=
  [".png"; ".jpg"; ".jpeg"; ".gif"; ".bmp"; ".webp"; ".svg"; ".tiff"].
Definition CODE_EXTS : list string :=
  [".cpp"; ".h"; ".hpp"; ".c"; ".cc"; ".py"; ".js"; ".ts"; ".rs"; ".go";
   ".java"; ".rb"; ".php"; ".html"; ".css"; ".scss"; ".json"; ".xml";
   ".yaml"; ".yml"; ".toml"; ".ini"; ".sh"; ".bash"; ".zsh"; ".lua"; ".md";
   ".txt"; ".conf"; ".diff"; ".patch"; ".sql"; ".cmake"; ".make";
   ".dockerfile"].

(** [SET.count(ext)] as a truth value. *)
Definition count (exts : list string) (ext : string) : bool :=
  bool_decide (ext ∈ exts).

(** *** Dispatch and commit *)

(** What the lambda of [startAsyncPreview] captures by copy. *)
Record ticket := MkTicket {
  t_path : string;
  t_type : PreviewType;
  t_previewHeight : Z;
  t_previewWidth : Z;
  reqId : Z;
}.

(** The part of [startAsyncPreview] that runs on the caller's thread:
    the counter is incremented, and the worker is started with a copy of
    it. *)
Definition startAsyncPreview (p : string) (type : PreviewType)
    (previewHeight previewWidth : Z) (fm : FileManager)
  : FileManager * ticket :=
  let fm1 := set_requestID (requestID fm + 1)%Z fm in
  let fm2 := set_requestedPath p fm1 in
  let fm3 := set_imageReady false fm2 in
  (fm3, MkTicket p type previewHeight previewWidth (requestID fm1)).

(** What a worker has in hand when it reaches the end of its body: its
    ticket and the two locals [b64] and [lines], filled by the external
    tools. *)
Record worker := MkWorker {
  job : ticket;
  b64 : string;
  lines : list string;
}.

(** The block of the worker under [previewMutex]. *)
Definition commit (wk : worker) (fm : FileManager) : FileManager :=
  if (reqId (job wk) =? requestID fm)%Z then
    let fm1 :=
      if decide (t_type (job wk) = IMAGE)
      then set_cachedBase64 (b64 wk) fm
      else set_cachedTextLines (lines wk) fm in
    set_cachedPath (t_path (job wk)) fm1
  else fm.

(** The worker's last statement, after the lock is released. *)
Definition signal (wk : worker) (fm : FileManager) : FileManager :=
  if (reqId (job wk) =? requestID fm)%Z then set_imageReady true fm else fm.

(** The idle branch of the loop of [run]: [getch()] timed out. *)
Definition poll (fm : FileManager) : FileManager * bool :=
  if imageReady fm then (set_imageReady false fm, true) else (fm, false).

(** *** Schedules

    The events of the preview pipeline in the order they take effect:
    a dispatch on the interface thread, the locked block of the [k]-th
    dispatched worker (counting from 0) with the payload it computed, and
    that worker's last statement. *)
Inductive event :=
| Dispatch (p : string) (type : PreviewType) (previewHeight previewWidth : Z)
| Commit (k : nat) (b64 : string) (lines : list string)
| Signal (k : nat).

(** The pipeline between events: the manager, the tickets handed out so
    far in order, and the generation ids of the commits that wrote the
    slot, latest first. *)
Record pipeline := MkPipeline {
  manager : FileManager;
  tickets : list ticket;
  written : list Z;
}.

Definition step (pl : pipeline) (e : event) : pipeline :=
  match e with
  | Dispatch p type h wd =>
      let '(fm', t) := startAsyncPreview p type h wd (manager pl) in
      MkPipeline fm' (tickets pl ++ [t]) (written pl)
  | Commit k payload text =>
      match tickets pl !! k with
      | None => pl
      | Some t =>
          MkPipeline (commit (MkWorker t payload text) (manager pl))
            (tickets pl)
            (if (reqId t =? requestID (manager pl))%Z
             then reqId t :: written pl else written pl)
      end
  | Signal k =>
      match tickets pl !! k with
      | None => pl
      | Some t =>
          MkPipeline (signal (MkWorker t "" []) (manager pl))
            (tickets pl) (written pl)
      end
  end.

Definition run_schedule (fm : FileManager) (es : list event) : pipeline :=
  fold_left step es (MkPipeline fm [] []).

(** A commit can only be that of a worker already dispatched. *)
Fixpoint well_formed (dispatched : nat) (es : list event) : Prop :=
  match es with
  | [] => True
  | Dispatch _ _ _ _ :: rest => well_formed (S dispatched) rest
  | Commit k _ _ :: rest => k < dispatched /\ well_formed dispatched rest
  | Signal k :: rest => k < dispatched /\ well_formed dispatched rest
  end.

(** The paths of the dispatches of a schedule, in order. *)
Definition dispatched_paths (es : list event) : list string :=
  omap (fun e => match e with Dispatch p _ _ _ => Some p | _ => None end) es.

(** The workers whose commit appears in a schedule. *)
Definition committed (es : list event) : list nat :=
  omap (fun e => match e with Commit k _ _ => Some k | _ => None end) es.

(** The ids handed out count up from the counter's first value: the
    [k]-th ticket carries [id0 + k + 1], and the counter is the id of the
    last ticket. *)
Definition ids (id0 : Z) (pl : pipeline) : Prop :=
  requestID (manager pl) = (id0 + Z.of_nat (length (tickets pl)))%Z
  /\ forall k t,
       tickets pl !! k = Some t -> reqId t = (id0 + Z.of_nat k + 1)%Z.

(** The slot holds the path of the last request dispatched. *)
Definition fresh (pl : pipeline) : Prop :=
  exists t, last (tickets pl) = Some t /\ cachedPath (manager pl) = t_path t.

Definition is_dispatch (e : event) : bool :=
  match e with Dispatch _ _ _ _ => true | _ => false end.

(** The ids of the commits that wrote never exceed the counter, and each
    is at least every id written before it. *)
Definition ordered_writes (pl : pipeline) : Prop :=
  Forall (fun g => (g <= requestID (manager pl))%Z) (written pl)
  /\ StronglySorted Z.ge (written pl).

(** *** Drawing *)

(** The geometry the drawing code reads from curses: the screen height,
    and the size and origin of the preview window. *)
Record geometry := MkGeometry {
  height : Z;
  pW : Z;
  pH : Z;
  pX : Z;
  pY : Z;
}.

(** What the drawing code puts on the terminal, one constructor per
    write. *)
Inductive paint :=
| PaintClearDirect
| PaintFrame
| PaintDetails (fname : string) (fsize : Z)
| PaintContentHeader
| PaintDirLine (row : Z) (is_dir : bool) (subName : string)
| PaintLoading
| PaintImage (b64Data : string) (y x : Z)
| PaintCachedLine (row col : Z) (text : string)
| PaintBinaryMarker
| PaintRawLine (row : Z) (text : string).

(** The writes whose content is read from the cache slot. *)
Definition from_cache (p : paint) : bool :=
  match p with
  | PaintImage _ _ _ | PaintCachedLine _ _ _ => true
  | _ => false
  end.

(** An [int] converted to [size_t]. *)
Definition to_size_t (n : Z) : nat := Z.to_nat (n mod 2 ^ 64).

(** [int lineLimit = std::min((int)cachedTextLines.size(), pH - 8)] and the
    loop over [i < lineLimit]. *)
Fixpoint cached_lines (text : list string) (limit : nat) (i : Z)
    (g : geometry) : list paint :=
  match limit, text with
  | S limit', l :: rest =>
      PaintCachedLine (pY g + 7 + i) (pX g + 2) l
      :: cached_lines rest limit' (i + 1) g
  | _, _ => []
  end.

(** [drawFromCache(type)]: the whole body runs under [previewMutex]. *)
Definition drawFromCache (type : PreviewType) (g : geometry)
    (fm : FileManager) : list paint * FileManager :=
  if bool_decide (type = IMAGE)
     && negb (String.eqb (cachedBase64 fm) "") then
    ([PaintImage (cachedBase64 fm) (pY g) (pX g)],
     set_lastWasDirectRender true fm)
  else if bool_decide (type = TEXT)
          && negb (bool_decide (cachedTextLines fm = [])) then
    (cached_lines (cachedTextLines fm)
       (Z.to_nat (Z.min (Z.of_nat (length (cachedTextLines fm))) (pH g - 8)))
       0 g,
     set_lastWasDirectRender true fm)
  else ([], fm).

(** [name.substr(0, n)] with an [int] count. *)
Definition substr0 (s : string) (n : Z) : string :=
  String.substring 0 (to_size_t n) s.

(** [s.length() > maxW] with an [int] on the right. *)
Definition longer_than (s : string) (maxW : Z) : bool :=
  (to_size_t maxW <? String.length s)%nat.

Section Draw.
Context {W : Type} `{FileSystem W}.

(** The listing of a directory entry in the preview pane; a throwing call
    ends it. *)
Fixpoint dir_lines (w : W) (dir : fspath) (hidden_shown : bool)
    (g : geometry) (names : list string) (line : Z) : list paint :=
  match names with
  | [] => []
  | n :: rest =>
      if negb hidden_shown && starts_with_dot n then
        dir_lines w dir hidden_shown g rest line
      else if (height g - 2 <=? line)%Z then []
      else
        let subName :=
          if longer_than n (pW g - 4)
          then substr0 n (pW g - 4 - 3) +:+ "..." else n in
        match fs_is_directory w (append dir n) with
        | None => []
        | Some d =>
            PaintDirLine line d subName
            :: dir_lines w dir hidden_shown g rest (line + 1)
        end
  end.

Definition NUL : ascii := Ascii.zero.

(** [is_binary_file(path)]: a NUL among the first 512 bytes. *)
Definition is_binary_file (w : W) (p : fspath) : bool :=
  match fs_read w p with
  | None => false
  | Some content =>
      existsb (fun c => Ascii.eqb c NUL)
              (list_ascii_of_string (String.substring 0 512 content))
  end.

Definition newline : ascii := ascii_of_nat 10.
Definition tab : ascii := ascii_of_nat 9.
Definition space : ascii := " "%char.

(** The lines [std::getline] reads from a stream holding [s]; [cur] is the
    line being read, reversed. *)
Fixpoint getlines (s : string) (cur : list ascii) : list string :=
  match s with
  | EmptyString =>
      match cur with
      | [] => []
      | _ => [string_of_list_ascii (rev cur)]
      end
  | String c s' =>
      if Ascii.eqb c newline
      then string_of_list_ascii (rev cur) :: getlines s' []
      else getlines s' (c :: cur)
  end.

(** [std::replace(lineStr.begin(), lineStr.end(), '\t', ' ')] *)
Fixpoint replace_tabs (s : string) : string :=
  match s with
  | EmptyString => EmptyString
  | String c s' =>
      String (if Ascii.eqb c tab then space else c) (replace_tabs s')
  end.

(** The raw preview of a file that is neither media nor code. *)
Fixpoint raw_lines (g : geometry) (ls : list string) (line : Z)
  : list paint :=
  match ls with
  | [] => []
  | l :: rest =>
      if (height g - 2 <=? line)%Z then []
      else
        let l1 := replace_tabs l in
        let l2 := if longer_than l1 (pW g - 4)
                  then substr0 l1 (pW g - 4) else l1 in
        PaintRawLine line l2 :: raw_lines g rest (line + 1)
  end.

(** [drawPreview()].  The function takes [previewMutex] twice when the
    slot matches: once to compare [cachedPath] with the path of the entry
    under the cursor, and once more inside [drawFromCache].  [between]
    lists the workers whose locked block runs between the two; it is empty
    when no worker finishes at that moment.  The result is what was
    painted, the state, and the ticket of the worker started, if any. *)
Definition drawPreview (w : W) (g : geometry) (between : list worker)
    (fm : FileManager) : list paint * FileManager * option ticket :=
  let '(out0, fm0) :=
    if lastWasDirectRender fm
    then ([PaintClearDirect], clearDirectRender fm) else ([], fm) in
  let out1 := out0 ++ [PaintFrame] in
  match currentFiles fm0 !! selectedIndex fm0 with
  | None => (out1, fm0, None)
  | Some file =>
      let maxW := (pW g - 4)%Z in
      let maxH := (pH g - 2)%Z in
      let out2 := out1 ++ [PaintDetails (name file) (size file)] in
      let isVid := count VIDEO_EXTS (extension file) in
      let isImg := count IMAGE_EXTS (extension file) in
      let isCode := count CODE_EXTS (extension file) in
      if is_directory file then
        (out2 ++ PaintContentHeader
              :: dir_lines w (path file) (showHidden fm0) g
                   (fst (fs_list w (path file))) 8,
         fm0, None)
      else if isVid || isImg || isCode then
        let matched := String.eqb (cachedPath fm0) (path_string (path file)) in
        if matched then
          let fm1 := fold_left (fun st wk => commit wk st) between fm0 in
          let '(out3, fm2) :=
            drawFromCache (if isCode then TEXT else IMAGE) g fm1 in
          (out2 ++ out3, fm2, None)
        else if negb (String.eqb (requestedPath fm0)
                                 (path_string (path file))) then
          let '(fm1, t) :=
            startAsyncPreview (path_string (path file))
              (if isCode then TEXT else IMAGE) (maxH - 8) maxW fm0 in
          (out2 ++ [PaintLoading], fm1, Some t)
        else (out2, fm0, None)
      else if is_binary_file w (path file) then
        (out2 ++ [PaintBinaryMarker], fm0, None)
      else
        match fs_read w (path file) with
        | None => (out2, fm0, None)
        | Some content =>
            (out2 ++ raw_lines g (getlines content []) 7, fm0, None)
        end
  end.

(** The clamp of [selectedIndex] that [run] does before it draws. *)
Definition clamp_selection (fm : FileManager) : FileManager :=
  match currentFiles fm with
  | [] => set_selectedIndex 0 fm
  | _ :: _ =>
      if (length (currentFiles fm) <=? selectedIndex fm)%nat
      then set_selectedIndex (length (currentFiles fm) - 1) fm
      else fm
  end.

(** What a render paints. *)
Definition painted (w : W) (g : geometry) (between : list worker)
    (fm : FileManager) : list paint :=
  fst (fst (drawPreview w g between fm)).

(** What every render paints first for an entry: the scrub of the previous
    image if there was one, the frame, and the details. *)
Definition header (fm : FileManager) (file : FileEntry) : list paint :=
  (if lastWasDirectRender fm then [PaintClearDirect] else [])
  ++ [PaintFrame; PaintDetails (name file) (size file)].

(** The entries that go through the cache. *)
Definition previewed (file : FileEntry) : bool :=
  negb (is_directory file)
  && (count VIDEO_EXTS (extension file) || count IMAGE_EXTS (extension file)
      || count CODE_EXTS (extension file)).

Definition not_cached (out : list paint) : Prop :=
  Forall (fun p => from_cache p = false) out.

End Draw.

End Preview.

(** ** A small file system to run the model on *)

Module Toy.
Import Path Fs Catalog Manager Preview.

(** A directory, a regular file with its content, or an entry whose status
    cannot be read (a link into a directory that may not be searched, a
    link that loops): [fs::is_directory] and [fs::exists] throw on it. *)
Inductive node := Dir | File (content : string) | Unreadable.

(** The mutating calls, as a trace would show them. *)
Inductive call :=
| CallRename (s d : fspath)
| CallCopy (s d : fspath)
| CallCopyRecursive (s d : fspath)
| CallRemoveAll (p : fspath).

(** The entries in the order directory iteration yields them, and the
    mutating calls made so far, latest last. *)
Record world := MkWorld {
  entries : list (fspath * node);
  calls : list call;
}.

Fixpoint lookup_entry (es : list (fspath * node)) (p : fspath)
  : option node :=
  match es with
  | [] => None
  | (q, n) :: rest => if decide (p = q) then Some n else lookup_entry rest p
  end.

Definition lookup (w : world) (p : fspath) : option node :=
  lookup_entry (entries w) p.

Definition children (w : world) (dir : fspath) : list string :=
  omap (fun qn =>
          if bool_decide (components (fst qn) <> [])
             && bool_decide (parent_path (fst qn) = dir)
          then Some (filename (fst qn)) else None) (entries w).

(** The elements of [q] below the elements [pre], if [q] is at or below
    them. *)
Fixpoint below (pre q : list string) : option (list string) :=
  match pre, q with
  | [], _ => Some q
  | a :: pre', b :: q' => if decide (a = b) then below pre' q' else None
  | _ :: _, [] => None
  end.

(** [q] moved from under [s] to under [d]. *)
Definition rebase (s d q : fspath) : option fspath :=
  if bool_decide (absolute q = absolute s) then
    match below (components s) (components q) with
    | Some rest => Some (MkPath (absolute d) (components d ++ rest))
    | None => None
    end
  else None.

Definition toy_exists (w : world) (p : fspath) : option bool :=
  match lookup w p with
  | Some Unreadable => None
  | Some _ => Some true
  | None => Some false
  end.

Definition toy_is_directory (w : world) (p : fspath) : option bool :=
  match lookup w p with
  | Some Dir => Some true
  | Some (File _) => Some false
  | Some Unreadable => None
  | None => Some false
  end.

Definition toy_file_size (w : world) (p : fspath) : option Z :=
  match lookup w p with
  | Some (File c) => Some (Z.of_nat (String.length c))
  | _ => None
  end.

Definition toy_list (w : world) (p : fspath) : list string * bool :=
  match lookup w p with
  | Some Dir => (children w p, true)
  | _ => ([], false)
  end.

Definition toy_read (w : world) (p : fspath) : option string :=
  match lookup w p with
  | Some (File c) => Some c
  | _ => None
  end.

Definition outside (p : fspath) (qn : fspath * node) : bool :=
  match rebase p p (fst qn) with Some _ => false | None => true end.

Definition logged (c : call) (w : world) : world :=
  MkWorld (entries w) (calls w ++ [c]).

Definition with_entries (es : list (fspath * node)) (w : world) : world :=
  MkWorld es (calls w).

Definition toy_remove_all (w0 : world) (p : fspath) : outcome world :=
  let w := logged (CallRemoveAll p) w0 in
  Done (with_entries (filter (fun qn => outside p qn = true) (entries w)) w).

Definition toy_rename (w0 : world) (s d : fspath) : outcome world :=
  let w := logged (CallRename s d) w0 in
  match lookup w s with
  | None => Threw w
  | Some _ =>
      if decide (s = d) then Done w
      else
        Done (with_entries
                (map (fun qn =>
                        (default (fst qn) (rebase s d (fst qn)), snd qn))
                     (filter (fun qn => outside d qn = true) (entries w)))
                w)
  end.

(** Copying onto a path that exists, the source itself included, is an
    error. *)
Definition toy_copy (w0 : world) (s d : fspath) : outcome world :=
  let w := logged (CallCopy s d) w0 in
  match lookup w s, lookup w d with
  | Some (File c), None => Done (with_entries (entries w ++ [(d, File c)]) w)
  | Some Dir, None => Done (with_entries (entries w ++ [(d, Dir)]) w)
  | _, _ => Threw w
  end.

Definition toy_copy_recursive (w0 : world) (s d : fspath) : outcome world :=
  let w := logged (CallCopyRecursive s d) w0 in
  match lookup w s, lookup w d with
  | Some _, None =>
      Done (with_entries
              (entries w
               ++ omap (fun qn =>
                          match rebase s d (fst qn) with
                          | Some q' => Some (q', snd qn)
                          | None => None
                          end) (entries w))
              w)
  | _, _ => Threw w
  end.

#[export] Instance toy_fs : FileSystem world := {|
  fs_exists := toy_exists;
  fs_is_directory := toy_is_directory;
  fs_file_size := toy_file_size;
  fs_list := toy_list;
  fs_read := toy_read;
  fs_rename := toy_rename;
  fs_copy := toy_copy;
  fs_copy_recursive := toy_copy_recursive;
  fs_remove_all := toy_remove_all;
|}.

#[export] Instance name_le_dec : RelDecision name_le.
Proof. intros a b. unfold name_le. apply _. Defined.

#[export] Instance name_le_trans : Transitive name_le.
Proof. intros a b c. unfold name_le. apply transitivity. Qed.

#[export] Instance name_le_total : Total name_le.
Proof. intros a b. unfold name_le. apply total. apply _. Qed.

(** A sort that meets the contract of [std::sort]. *)
#[export] Instance merge_std_sort : StdSort := {|
  std_sort := merge_sort name_le;
  std_sort_perm := merge_sort_Permutation name_le;
  std_sort_sorted := StronglySorted_merge_sort name_le;
|}.

(** Absolute paths, written by their elements. *)
Definition abs (elems : list string) : fspath := MkPath true elems.

(** A home directory with two subdirectories and three files, one
    hidden. *)
Definition home : world := MkWorld
  [ (abs [], Dir);
    (abs ["home"], Dir);
    (abs ["home"; "u"], Dir);
    (abs ["home"; "u"; "zeta"], Dir);
    (abs ["home"; "u"; "notes.txt"], File "hello");
    (abs ["home"; "u"; "alpha"], Dir);
    (abs ["home"; "u"; ".profile"], File "x=1");
    (abs ["home"; "u"; "Makefile"], File "all:");
    (abs ["home"; "u"; "alpha"; "pic.png"], File "PNG") ] [].

(** The same directory with, between the entries, one whose status cannot
    be read. *)
Definition home_with_unreadable : world := MkWorld
  [ (abs [], Dir);
    (abs ["home"], Dir);
    (abs ["home"; "u"], Dir);
    (abs ["home"; "u"; "zeta"], Dir);
    (abs ["home"; "u"; "alpha"], Dir);
    (abs ["home"; "u"; "link"], Unreadable);
    (abs ["home"; "u"; "notes.txt"], File "hello") ] [].

(** A manager at rest in [dir], before any load. *)
Definition manager_at (dir : fspath) : FileManager :=
  MkFileManager dir [] [] ∅ 0 0 (MkClipboard [] false) "" false
                false "" [] "" "" 0%Z false.

(** *** States and schedules for the examples *)

Definition home_u : fspath := abs ["home"; "u"].
Definition alpha : fspath := abs ["home"; "u"; "alpha"].
Definition zeta : fspath := abs ["home"; "u"; "zeta"].
Definition notes : fspath := abs ["home"; "u"; "notes.txt"].

(** The manager in [/home/u] after a load, the cursor on [notes.txt]. *)
Definition at_home : FileManager :=
  set_selectedIndex 3 (reloadAll home (manager_at home_u)).

(** A manager in a directory that does not list, holding a cut. *)
Definition nowhere_with_cut : FileManager :=
  set_clipboard (MkClipboard [notes] true)
    (setStatus "Cut items" (manager_at (abs ["nowhere"]))).

(** The manager after a copy of [notes.txt]. *)
Definition copied : FileManager :=
  default at_home (handleCopy at_home).

(** The manager after a cut of [notes.txt]. *)
Definition moving : FileManager :=
  default at_home (handleCut at_home).

(** The world after that copy was pasted into [alpha]. *)
Definition home_pasted : world :=
  fst (handlePaste home (set_currentPath alpha copied)).

(** Three requests; the first worker commits at once, the third before the
    second. *)
Definition three_requests : list event :=
  [ Dispatch "/p/a.png" IMAGE 20 40;
    Commit 0 "AAAA" [];
    Signal 0;
    Dispatch "/p/b.png" IMAGE 20 40;
    Dispatch "/p/c.png" IMAGE 20 40;
    Commit 2 "CCCC" [];
    Commit 1 "BBBB" [];
    Signal 1;
    Signal 2 ].

Definition idle : FileManager := manager_at (abs ["p"]).

(** A directory of two pictures, and the manager with the cursor on
    [b.png] while the slot holds [b.png]. *)
Definition pictures : world := MkWorld
  [ (abs [], Dir);
    (abs ["p"], Dir);
    (abs ["p"; "a.png"], File "A");
    (abs ["p"; "b.png"], File "B") ] [].

Definition window : geometry := MkGeometry 40 60 39 80 0.

Definition on_b_cached : FileManager :=
  set_cachedPath "/p/b.png"
    (set_cachedBase64 "BBBB"
       (set_selectedIndex 1 (reloadAll pictures (manager_at (abs ["p"]))))).

(** The same manager after a request for [a.png] was dispatched and the
    cursor came back to [b.png], and the worker of that request. *)
Definition on_b_after_request_a : FileManager :=
  set_requestedPath "/p/a.png" (set_requestID 2 on_b_cached).

Definition worker_a : worker :=
  MkWorker (MkTicket "/p/a.png" IMAGE 29 56 2) "AAAA" [].

(** Requests for [a], [b] and [a] again; the worker of the second [a]
    finishes first, the one of [b] after it, the one of the first [a]
    last. *)
Definition a_b_a_requests : list event :=
  [ Dispatch "/p/a.png" IMAGE 20 40;
    Dispatch "/p/b.png" IMAGE 20 40;
    Dispatch "/p/a.png" IMAGE 20 40;
    Commit 2 "A-second" [];
    Commit 1 "B" [];
    Commit 0 "A-first" [] ].

(** A payload of two full chunks and one character. *)
Definition long_payload : string :=
  string_of_list_ascii (replicate (2 * 4096 + 1) "A"%char).

End Toy.

(** ** More on base64_encode *)

Module Base64Shape.
Import Base64.

(** Whether a character is one of the 64 of [base64_chars]. *)
Definition in_alphabet (c : ascii) : bool :=
  existsb (Ascii.eqb c) (list_ascii_of_string base64_chars).

(** The number of padding characters in a string. *)
Fixpoint count_pads (s : string) : nat :=
  match s with
  | EmptyString => 0
  | String c s' => (if Ascii.eqb c pad then 1 else 0) + count_pads s'
  end.

(** Every character is of the alphabet or is the padding character. *)
Fixpoint well_formed_text (s : string) : bool :=
  match s with
  | EmptyString => true
  | String c s' => (in_alphabet c || Ascii.eqb c pad) && well_formed_text s'
  end.

End Base64Shape.

(** ** More on loadDirectory *)

Module CatalogShape.
Import Path Fs Catalog.

(** The names a load shows: all of them, or those that do not start with a
    period. *)
Definition visible (showHidden : bool) (fname : string) : bool :=
  negb (negb showHidden && starts_with_dot fname).

(** Whether a character is an upper-case ASCII letter. *)
Definition is_upper (c : ascii) : bool :=
  (65 <=? nat_of_ascii c) && (nat_of_ascii c <=? 90).

Fixpoint has_upper (s : string) : bool :=
  match s with
  | EmptyString => false
  | String c s' => is_upper c || has_upper s'
  end.

Section Made.
Context {W : Type} `{FileSystem W}.

(** [e] is the entry the constructor makes for a visible name of the
    listing of [dir]. *)
Definition made_from (w : W) (dir : fspath) (showHidden : bool)
    (e : FileEntry) : Prop :=
  exists n,
    n ∈ fst (fs_list w dir)
    /\ visible showHidden n = true
    /\ newFileEntry w (append dir n) = Some e.

End Made.

End CatalogShape.

(** ** Selection, navigation and the other key handlers *)

Module Browse.
Import Path Fs Catalog Manager Preview.

(** Assignment to [showHidden]. *)
Definition set_showHidden (v : bool) (fm : FileManager) : FileManager :=
  MkFileManager (currentPath fm) (currentFiles fm) (parentFiles fm)
    (multiSelection fm) (selectedIndex fm) (scrollOffset fm) (clipboard fm)
    (statusMessage fm) v (imageReady fm) (cachedBase64 fm)
    (cachedTextLines fm) (cachedPath fm) (requestedPath fm) (requestID fm)
    (lastWasDirectRender fm).

(** [toggleSelection()].  [None]: the read of
    [currentFiles[selectedIndex]] was out of range. *)
Definition toggleSelection (fm : FileManager) : option FileManager :=
  match currentFiles fm with
  | [] => Some fm
  | _ :: _ =>
      match currentFiles fm !! selectedIndex fm with
      | None => None
      | Some f =>
          let p := path f in
          let fm1 :=
            if bool_decide (p ∈ multiSelection fm)
            then set_multiSelection (multiSelection fm ∖ {[p]}) fm
            else set_multiSelection ({[p]} ∪ multiSelection fm) fm in
          Some (if (selectedIndex fm <? length (currentFiles fm) - 1)%nat
                then set_selectedIndex (S (selectedIndex fm)) fm1
                else fm1)
      end
  end.

(** [toggleSelection()] called [n] times in a row, as when the key is
    held. *)
Fixpoint toggle_times (n : nat) (fm : FileManager) : option FileManager :=
  match n with
  | O => Some fm
  | S n' =>
      match toggleSelection fm with
      | Some fm' => toggle_times n' fm'
      | None => None
      end
  end.

(** [selectAll()] *)
Definition selectAll (fm : FileManager) : FileManager :=
  setStatus "Selected all"
    (set_multiSelection
       (fold_left (fun s f => {[path f]} ∪ s) (currentFiles fm)
                  (multiSelection fm)) fm).

(** [clearSelection()] *)
Definition clearSelection (fm : FileManager) : FileManager :=
  setStatus "Cleared selection" (set_multiSelection ∅ fm).

(** The navigation keys of the files pane in [run]: [j], [k], [g] and
    [G]. *)
Inductive nav := Down | Up | Top | Bottom.

(** The cases of the [switch] for those keys.  [height] is the screen
    height; in the case of [G] it is an [int] compared with and subtracted
    from a [size_t]. *)
Definition navigate (height : Z) (k : nav) (fm : FileManager) : FileManager :=
  match k with
  | Down =>
      match currentFiles fm with
      | [] => fm
      | _ :: _ =>
          if (selectedIndex fm <? length (currentFiles fm) - 1)%nat
          then set_selectedIndex (S (selectedIndex fm)) fm else fm
      end
  | Up =>
      if (0 <? selectedIndex fm)%nat
      then set_selectedIndex (selectedIndex fm - 1) fm else fm
  | Top => set_scrollOffset 0 (set_selectedIndex 0 fm)
  | Bottom =>
      match currentFiles fm with
      | [] => fm
      | _ :: _ =>
          let fm1 := set_selectedIndex (length (currentFiles fm) - 1) fm in
          if (to_size_t (height - 5) <? selectedIndex fm1)%nat
          then set_scrollOffset
                 (selectedIndex fm1 - to_size_t (height - 5)) fm1
          else fm1
      end
  end.

Section Handlers.
Context {W : Type} `{FileSystem W} `{StdSort}.

(** [toggleHidden()] *)
Definition toggleHidden (w : W) (fm : FileManager) : FileManager :=
  let fm1 := reloadAll w (set_showHidden (negb (showHidden fm)) fm) in
  setStatus (if showHidden fm1 then "Showing hidden" else "Hidden masked")
            fm1.

(** The directory branch of [openFile()], and what the other branch does
    to the state (it runs an external program, which is not followed).
    The second component tells whether a directory was entered.  [None]:
    the read of [currentFiles[selectedIndex]] was out of range. *)
Definition openFile (w : W) (fm : FileManager)
  : option (FileManager * bool) :=
  match currentFiles fm with
  | [] => Some (fm, false)
  | _ :: _ =>
      match currentFiles fm !! selectedIndex fm with
      | None => None
      | Some file =>
          if is_directory file then
            let fm1 := clearDirectRender fm in
            let fm2 := set_currentPath (path file) fm1 in
            let fm3 := set_selectedIndex 0 fm2 in
            let fm4 := set_scrollOffset 0 fm3 in
            Some (reloadAll w fm4, true)
          else Some (clearDirectRender fm, false)
      end
  end.

(** The loop of [handleDelete] over its targets: a throwing
    [fs::remove_all] is caught and the loop goes on. *)
Fixpoint remove_each (w : W) (targets : list fspath) : W :=
  match targets with
  | [] => w
  | p :: rest =>
      match fs_remove_all w p with
      | Done w' => remove_each w' rest
      | Threw w' => remove_each w' rest
      end
  end.

(** [std::to_string] of a size. *)
Definition to_string (n : nat) : string :=
  NilZero.string_of_uint (Nat.to_uint n).

(** The text [handleDelete] asks its question with. *)
Definition delete_prompt (targets : list fspath) : string :=
  "Delete "
  +:+ (if (1 <? length targets)%nat
       then to_string (length targets) +:+ " items"
       else match targets with
            | p :: _ => filename p
            | [] => ""
            end)
  +:+ "? (y/n)".

(** [handleDelete()].  [promptInput] is the user: a function from the
    question to the line typed.  [None]: the read of
    [currentFiles[selectedIndex]] was out of range. *)
Definition handleDelete (promptInput : string -> string) (w : W)
    (fm : FileManager) : option (W * FileManager) :=
  match currentFiles fm with
  | [] => Some (w, fm)
  | _ :: _ =>
      match yank_paths fm with
      | None => None
      | Some targets =>
          let confirm := promptInput (delete_prompt targets) in
          if negb (String.eqb confirm "y") && negb (String.eqb confirm "Y")
          then Some (w, fm)
          else
            let w' := remove_each w targets in
            Some (w', reloadAll w'
                        (setStatus "Deleted items"
                           (set_multiSelection ∅ fm)))
      end
  end.

End Handlers.

End Browse.

(** ** Parts of a render *)

Module Render.
Import Path Fs Catalog Manager Preview.

(** The state after the first statement of [drawPreview]: the previous
    direct render, if there was one, has been scrubbed. *)
Definition settled (fm : FileManager) : FileManager :=
  if lastWasDirectRender fm then clearDirectRender fm else fm.

(** The type [drawPreview] asks a preview of, by the extension. *)
Definition kind (file : FileEntry) : PreviewType :=
  if count CODE_EXTS (extension file) then TEXT else IMAGE.

(** [subName] in the listing of a directory: the name as displayed. *)
Definition shown_name (g : geometry) (n : string) : string :=
  if longer_than n (pW g - 4)
  then substr0 n (pW g - 4 - 3) +:+ "..." else n.

End Render.

Module Scale.
Import Size.

(** [dSize] after [k] rounds of [dSize /= 1024]. *)
Fixpoint scaled (k : nat) (dSize : float) : float :=
  match k with
  | O => dSize
  | S k' => scaled k' (PrimFloat.div dSize f1024)
  end.

End Scale.

(** ** The panes of entries *)

Module Panes.
Import Path Fs Catalog Manager Preview.
Local Open Scope Z_scope.

(** A [size_t] or a wider value converted to [int]. *)
Definition to_int (n : Z) : Z := (n + 2 ^ 31) mod 2 ^ 32 - 2 ^ 31.

(** One row of a pane: the line of the window it is written on, the entry
    it shows and the index it was read at, whether it is drawn as the
    cursor's (in [drawParent]: as the current directory's) row, whether it
    carries the selection mark, and the name as displayed. *)
Record row := MkRow {
  r_line : Z;
  r_index : nat;
  r_entry : FileEntry;
  r_cursor : bool;
  r_marked : bool;
  r_text : string;
}.

(** *** [drawCurrent] *)

(** The two corrections of [scrollOffset] before the rows are drawn;
    [maxLines] is an [int] that is added to and subtracted from a
    [size_t]. *)
Definition scroll_adjust (maxLines : Z) (fm : FileManager) : FileManager :=
  let fm1 :=
    if (selectedIndex fm <? scrollOffset fm)%nat
    then set_scrollOffset (selectedIndex fm) fm else fm in
  if (to_size_t (Z.of_nat (scrollOffset fm1) + maxLines)
      <=? selectedIndex fm1)%nat
  then set_scrollOffset
         (to_size_t (Z.of_nat (selectedIndex fm1) - maxLines + 1)) fm1
  else fm1.

(** [display] in [drawCurrent], for a pane [cW] columns wide. *)
Definition current_text (cW : Z) (file : FileEntry) : string :=
  let availWidth := cW - 16 in
  if longer_than (name file) availWidth
  then substr0 (name file) (availWidth - 3) +:+ "..." else name file.

(** The loop [for (int i = 0; i < maxLines && (scrollOffset + i) <
    currentFiles.size(); ++i)].  [remaining] is [maxLines - i], so the
    first test holds exactly while it is not zero.  [None]: a read of
    [currentFiles[idx]] was out of range. *)
Fixpoint current_rows (remaining : nat) (i : Z) (cW : Z)
    (focusPinned : bool) (fm : FileManager) : option (list row) :=
  match remaining with
  | O => Some []
  | S remaining' =>
      if (to_size_t (Z.of_nat (scrollOffset fm) + i)
          <? length (currentFiles fm))%nat
      then
        let idx := to_int (Z.of_nat (scrollOffset fm) + i) in
        match currentFiles fm !! to_size_t idx with
        | None => None
        | Some file =>
            match current_rows remaining' (i + 1) cW focusPinned fm with
            | None => None
            | Some rest =>
                Some (MkRow (i + 1) (to_size_t idx) file
                        (negb focusPinned
                         && (to_size_t idx =? selectedIndex fm)%nat)
                        (bool_decide (path file ∈ multiSelection fm))
                        (current_text cW file)
                      :: rest)
            end
        end
      else Some []
  end.

(** [drawCurrent()], for a screen of [height] lines and a pane [cW]
    columns wide: the rows drawn and the state. *)
Definition drawCurrent (height cW : Z) (focusPinned : bool)
    (fm : FileManager) : option (list row) * FileManager :=
  let maxLines := height - 3 in
  let fm1 := scroll_adjust maxLines fm in
  (current_rows (Z.to_nat maxLines) 0 cW focusPinned fm1, fm1).

(** *** [drawParent] *)

(** The loop that looks for the current directory among the entries of
    the parent: the first index whose entry has that path. *)
Fixpoint find_path (files : list FileEntry) (p : fspath) (i : nat)
  : option nat :=
  match files with
  | [] => None
  | f :: rest =>
      if bool_decide (path f = p) then Some i
      else find_path rest p (S i)
  end.

(** [highlightIdx]: an [int] that receives a [size_t], or stays -1. *)
Definition highlight (fm : FileManager) : Z :=
  match find_path (parentFiles fm) (currentPath fm) 0 with
  | Some i => to_int (Z.of_nat i)
  | None => -1
  end.

(** [start], for a window that shows [maxLines] entries. *)
Definition parent_start (maxLines : Z) (fm : FileManager) : Z :=
  let highlightIdx := highlight fm in
  let start0 :=
    if Z.quot maxLines 2 <? highlightIdx
    then highlightIdx - Z.quot maxLines 2 else 0 in
  if (length (parentFiles fm) <? to_size_t (start0 + maxLines))%nat
     && (to_size_t maxLines <? length (parentFiles fm))%nat
  then to_int (Z.of_nat (length (parentFiles fm)) - maxLines)
  else start0.

(** [display] in [drawParent], for a pane [pW] columns wide. *)
Definition parent_text (pW : Z) (file : FileEntry) : string :=
  if longer_than (name file) (pW - 5)
  then substr0 (name file) (pW - 8) +:+ "..." else name file.

(** The loop over the rows of [drawParent]; [remaining] is
    [maxLines - i].  [None]: a read of [parentFiles[start + i]] was out of
    range. *)
Fixpoint parent_rows (remaining : nat) (i : Z) (start : Z) (pW : Z)
    (fm : FileManager) : option (list row) :=
  match remaining with
  | O => Some []
  | S remaining' =>
      if (to_size_t (start + i) <? length (parentFiles fm))%nat then
        match parentFiles fm !! to_size_t (start + i) with
        | None => None
        | Some file =>
            match parent_rows remaining' (i + 1) start pW fm with
            | None => None
            | Some rest =>
                Some (MkRow (i + 1) (to_size_t (start + i)) file
                        (start + i =? highlight fm) false
                        (parent_text pW file)
                      :: rest)
            end
        end
      else Some []
  end.

(** [drawParent()], for a window of [pH] lines and [pW] columns. *)
Definition drawParent (pH pW : Z) (fm : FileManager) : option (list row) :=
  let maxLines := pH - 2 in
  parent_rows (Z.to_nat maxLines) 0 (parent_start maxLines fm) pW fm.

End Panes.

(** ** Pinned directories *)

Module Pins.
Import Path Fs Catalog Manager Preview.

(** The manager together with the members that hold the pins, and the
    text last written to the pin file by [savePins], if any. *)
Record Pinned := MkPinned {
  base : FileManager;
  pinnedPaths : list fspath;
  pinnedIndex : nat;
  focusPinned : bool;
  pinFile : option string;
}.

(** What [savePins] writes: each path followed by a newline. *)
Fixpoint pins_text (pins : list fspath) : string :=
  match pins with
  | [] => ""
  | p :: rest => path_string p +:+ String newline "" +:+ pins_text rest
  end.

(** [savePins()] *)
Definition savePins (s : Pinned) : Pinned :=
  MkPinned (base s) (pinnedPaths s) (pinnedIndex s) (focusPinned s)
           (Some (pins_text (pinnedPaths s))).

(** [handlePin()] *)
Definition handlePin (s : Pinned) : Pinned :=
  if existsb (fun p => bool_decide (p = currentPath (base s)))
             (pinnedPaths s)
  then MkPinned (setStatus "Already pinned" (base s)) (pinnedPaths s)
                (pinnedIndex s) (focusPinned s) (pinFile s)
  else
    let s1 := MkPinned (base s) (pinnedPaths s ++ [currentPath (base s)])
                       (pinnedIndex s) (focusPinned s) (pinFile s) in
    let s2 := savePins s1 in
    MkPinned (setStatus "Pinned" (base s2)) (pinnedPaths s2)
             (pinnedIndex s2) (focusPinned s2) (pinFile s2).

(** [handleUnpin()] *)
Definition handleUnpin (s : Pinned) : Pinned :=
  match pinnedPaths s with
  | [] => s
  | _ :: _ =>
      if (pinnedIndex s <? length (pinnedPaths s))%nat then
        let pins := delete (pinnedIndex s) (pinnedPaths s) in
        let idx :=
          if (length pins <=? pinnedIndex s)%nat && (0 <? pinnedIndex s)%nat
          then pinnedIndex s - 1 else pinnedIndex s in
        let s2 := savePins (MkPinned (base s) pins idx (focusPinned s)
                                     (pinFile s)) in
        MkPinned (setStatus "Unpinned" (base s2)) (pinnedPaths s2)
                 (pinnedIndex s2) (focusPinned s2) (pinFile s2)
      else s
  end.

(** The invariant of the pinned pane with respect to a starting state
    [s0]: the index is on a pin, or 0 when there is none; the pins are
    among those of [s0], in their order; and the pin file holds the list
    unless the list is still that of [s0]. *)
Definition pins_kept (s0 s : Pinned) : Prop :=
  pinnedIndex s <= length (pinnedPaths s) - 1
  /\ sublist (pinnedPaths s) (pinnedPaths s0)
  /\ (pinFile s = Some (pins_text (pinnedPaths s))
      \/ (pinnedPaths s = pinnedPaths s0 /\ pinFile s = pinFile s0)).

(** The keys [run] gives to the pinned pane when it has the focus. *)
Inductive pin_key := PinDown | PinUp | PinEnter | PinD.

Section Jump.
Context {W : Type} `{FileSystem W} `{StdSort}.

(** [jumpToPin()] *)
Definition jumpToPin (w : W) (s : Pinned) : Pinned :=
  match pinnedPaths s with
  | [] => s
  | _ :: _ =>
      match pinnedPaths s !! pinnedIndex s with
      | None => s
      | Some p =>
          MkPinned
            (setStatus "Jumped to pin"
               (reloadAll w (set_currentPath p (base s))))
            (pinnedPaths s) (pinnedIndex s) false (pinFile s)
      end
  end.

(** The [switch] of [run] under [if (focusPinned)]. *)
Definition pinned_key (w : W) (s : Pinned) (k : pin_key) : Pinned :=
  match k with
  | PinDown =>
      match pinnedPaths s with
      | [] => s
      | _ :: _ =>
          if (pinnedIndex s <? length (pinnedPaths s) - 1)%nat
          then MkPinned (base s) (pinnedPaths s) (S (pinnedIndex s))
                        (focusPinned s) (pinFile s)
          else s
      end
  | PinUp =>
      if (0 <? pinnedIndex s)%nat
      then MkPinned (base s) (pinnedPaths s) (pinnedIndex s - 1)
                    (focusPinned s) (pinFile s)
      else s
  | PinEnter => jumpToPin w s
  | PinD => handleUnpin s
  end.

End Jump.

End Pins.

(** ** The text job of a preview worker *)

Module TextJob.
Import Path Fs Catalog Manager Preview.

(** [std::string line(buffer)]: the characters of the buffer before its
    first NUL. *)
Fixpoint c_string (buffer : list ascii) : list ascii :=
  match buffer with
  | [] => []
  | c :: rest => if Ascii.eqb c NUL then [] else c :: c_string rest
  end.

(** [if (!line.empty() && line.back() == '\n') line.pop_back()] *)
Definition pop_newline (line : list ascii) : list ascii :=
  match last line with
  | Some c => if Ascii.eqb c newline then removelast line else line
  | None => line
  end.

(** The line pushed for one buffer that [fgets] filled. *)
Definition pushed (buffer : list ascii) : string :=
  string_of_list_ascii (pop_newline (c_string buffer)).

(** [while (fgets(buffer, sizeof(buffer), pipe) != nullptr)] over a pipe
    that delivers [s]: one call of [fgets] stores characters up to and
    including a newline, at most [room] of them (1023 for a buffer of
    1024), and returns null only when the pipe ended before any character
    came.  [cur] is the buffer being filled, reversed. *)
Fixpoint fgets_lines (s : string) (cur : list ascii) (room : nat)
  : list string :=
  match s with
  | EmptyString =>
      match cur with
      | [] => []
      | _ :: _ => [pushed (rev cur)]
      end
  | String c s' =>
      if Ascii.eqb c newline then
        pushed (rev (c :: cur)) :: fgets_lines s' [] 1023
      else
        match room with
        | 0 | 1 => pushed (rev (c :: cur)) :: fgets_lines s' [] 1023
        | S room' => fgets_lines s' (c :: cur) room'
        end
  end.

(** What a tool started with [popen] gave: [None] when [popen] failed. *)
Definition tool_lines (out : option string) : list string :=
  match out with
  | None => []
  | Some s => fgets_lines s [] 1023
  end.

(** The loop [for (char c : lineStr)] of the fallback: a tab becomes four
    spaces. *)
Fixpoint clean_of (lineStr : string) : string :=
  match lineStr with
  | EmptyString => EmptyString
  | String c s' =>
      if Ascii.eqb c tab then "    " +:+ clean_of s'
      else String c (clean_of s')
  end.

(** [while (std::getline(f, lineStr) && count < previewHeight)] over the
    lines of the file. *)
Fixpoint plain_loop (ls : list string) (count : Z)
    (previewHeight previewWidth : Z) : list string :=
  match ls with
  | [] => []
  | lineStr :: rest =>
      if (count <? previewHeight)%Z then
        let clean := clean_of lineStr in
        (if longer_than clean previewWidth
         then substr0 clean previewWidth else clean)
        :: plain_loop rest (count + 1) previewHeight previewWidth
      else []
  end.

Definition ESC : ascii := ascii_of_nat 27.

(** ["\033[1;31m[Binary File]\033[0m"] *)
Definition binary_marker : string :=
  String ESC "[1;31m[Binary File]" +:+ String ESC "[0m".

Section Job.
Context {W : Type} `{FileSystem W}.

(** The branch [type == PreviewType::TEXT] of the worker: the value of
    [lines] when the worker reaches its locked block.  [bat] and [batcat]
    are what the two tools write to their pipes. *)
Definition text_job (w : W) (p : fspath) (bat batcat : option string)
    (previewHeight previewWidth : Z) : list string :=
  if is_binary_file w p then [binary_marker]
  else
    match tool_lines bat with
    | line :: more => line :: more
    | [] =>
        match tool_lines batcat with
        | line :: more => line :: more
        | [] =>
            match fs_read w p with
            | None => []
            | Some content =>
                plain_loop (getlines content []) 0 previewHeight
                           previewWidth
            end
        end
    end.

End Job.

End TextJob.

(** ** More states on the small file system *)

Module Scenes.
Import Path Fs Catalog Manager Preview Toy Pins.

(** The manager in [/home/u], the cursor on the directory [zeta]. *)
Definition on_zeta : FileManager := set_selectedIndex 1 at_home.

(** The entry of [notes.txt] in the catalog of [/home/u]. *)
Definition notes_entry : FileEntry :=
  MkFileEntry notes "notes.txt" false 5 ".txt".

(** The manager in [/p] after a load, the cursor on [a.png], nothing
    requested yet. *)
Definition on_a : FileManager :=
  set_selectedIndex 0 (reloadAll pictures (manager_at (abs ["p"]))).

(** The entry of [a.png] in that catalog. *)
Definition a_png : FileEntry :=
  MkFileEntry (abs ["p"; "a.png"]) "a.png" false 1 ".png".

(** The same catalog with the cursor on [b.png], and the entry of
    [b.png]. *)
Definition on_b : FileManager :=
  set_selectedIndex 1 (reloadAll pictures (manager_at (abs ["p"]))).

Definition b_png : FileEntry :=
  MkFileEntry (abs ["p"; "b.png"]) "b.png" false 1 ".png".

(** What [updateLayout] makes of a terminal of 40 lines and 100 columns:
    the preview window is 39 lines high and 40 columns wide, and starts at
    column 60 of line 0. *)
Definition terminal : geometry := MkGeometry 40 40 39 60 0.

(** The tickets of the first two requests made in [terminal], for [b.png]
    and then for [a.png], and the workers that hold them when they reach
    their locked block. *)
Definition ticket_b : ticket := MkTicket "/p/b.png" IMAGE 29 36 1.
Definition ticket_a : ticket := MkTicket "/p/a.png" IMAGE 29 36 2.
Definition finished_b : worker := MkWorker ticket_b "BBBB" [].
Definition finished_a : worker := MkWorker ticket_a "AAAA" [].

(** A manager whose slot holds three lines of text. *)
Definition with_text : FileManager :=
  set_cachedTextLines ["one"; "two"; "three"] at_home.

(** The manager in [/home/u/zeta] with the catalog of its parent loaded. *)
Definition in_zeta : FileManager := reloadAll home (manager_at zeta).

(** Two pins, the index on the second, the pinned pane focused. *)
Definition two_pins : Pinned :=
  MkPinned at_home [alpha; zeta] 1 true None.

End Scenes.

(** * Properties *)

(** *** Properties of formatSize *)

Module SizeFacts.
Import Size.
Local Open Scope Z_scope.

Example unit_index_small : unit_index 1000 = Some 0.
Proof. vm_compute. reflexivity. Qed.

Example unit_index_kb : unit_index 1536 = Some 1.
Proof. vm_compute. reflexivity. Qed.

Example unit_index_boundary : unit_index 1024 = Some 0.
Proof. vm_compute. reflexivity. Qed.

Example unit_index_max : unit_index (2 ^ 64 - 1) = Some 4.
Proof. vm_compute. reflexivity. Qed.

Lemma array_get_units (i : Z) :
  0 <= i <= 4 -> exists u, array_get units i = Some u.
Proof.
  intros Hi. unfold array_get.
  destruct (Z.ltb_spec i 0) as [Hneg|_]; [lia|].
  assert (Hn : (Z.to_nat i < 5)%nat) by lia.
  destruct (Z.to_nat i) as [|[|[|[|[|n]]]]]; simpl; eauto.
  exfalso. lia.
Qed.

(** The loop started at an index [i] in range stops with an index between
    [i] and 4 as soon as the fuel covers the remaining units. *)
Lemma formatSize_loop_bound (fuel : nat) :
  forall (d : float) (i : Z),
    0 <= i <= 4 -> (Z.to_nat (4 - i) <= fuel)%nat ->
    exists d' i', formatSize_loop fuel d i = Some (d', i') /\ i <= i' <= 4.
Proof.
  induction fuel as [|fuel IH]; intros d i Hi Hfuel.
  - assert (i = 4) by lia. subst i. simpl.
    rewrite andb_false_r. exists d, 4. split; [reflexivity|lia].
  - simpl.
    destruct (PrimFloat.ltb f1024 d && (i <? 4)) eqn:Hc.
    + apply andb_true_iff in Hc as [_ Hlt].
      apply Z.ltb_lt in Hlt.
      destruct (IH (PrimFloat.div d f1024) (i + 1)) as (d' & i' & He & Hb);
        [lia|lia|].
      exists d', i'. split; [exact He|lia].
    + exists d, i. split; [reflexivity|lia].
Qed.

(** More fuel than needed does not change the result. *)
Lemma formatSize_loop_fuel_mono (fuel : nat) :
  forall (d : float) (i : Z) r,
    formatSize_loop fuel d i = Some r ->
    formatSize_loop (S fuel) d i = Some r.
Proof.
  induction fuel as [|fuel IH]; intros d i r H.
  - simpl in *. destruct (PrimFloat.ltb f1024 d && (i <? 4)); [discriminate|exact H].
  - change (formatSize_loop (S (S fuel)) d i) with
      (if PrimFloat.ltb f1024 d && (i <? 4)
       then formatSize_loop (S fuel) (PrimFloat.div d f1024) (i + 1)
       else Some (d, i)).
    change (formatSize_loop (S fuel) d i) with
      (if PrimFloat.ltb f1024 d && (i <? 4)
       then formatSize_loop fuel (PrimFloat.div d f1024) (i + 1)
       else Some (d, i)) in H.
    destruct (PrimFloat.ltb f1024 d && (i <? 4)); [|exact H].
    apply IH. exact H.
Qed.

(** C9.  For every size the unit-selection loop of [formatSize] stops
    within four iterations with an index between 0 and 4, the read of the
    five-element [units] array at that index is in bounds, and
    [formatSize] returns a string (with any larger fuel as well). *)
Theorem formatSize_index_in_bounds (printf_1f : float -> string) (size : Z) :
  exists (dSize : float) (i : Z) (u : string),
    formatSize_loop 4 (double_of_uintmax size) 0 = Some (dSize, i)
    /\ 0 <= i <= 4
    /\ array_get units i = Some u
    /\ (forall extra : nat,
          formatSize printf_1f (4 + extra) size
          = Some (snprintf32 printf_1f dSize u)).
Proof.
  destruct (formatSize_loop_bound 4 (double_of_uintmax size) 0)
    as (d & i & Hloop & Hi); [lia|simpl; lia|].
  destruct (array_get_units i) as [u Hu]; [lia|].
  exists d, i, u. repeat split; try lia; try assumption.
  intros extra. unfold formatSize.
  assert (Hmore : formatSize_loop (4 + extra) (double_of_uintmax size) 0
                  = Some (d, i)).
  { induction extra as [|extra IHe].
    - replace (4 + 0)%nat with 4%nat by lia. exact Hloop.
    - replace (4 + S extra)%nat with (S (4 + extra)) by lia.
      apply formatSize_loop_fuel_mono. exact IHe. }
  rewrite Hmore, Hu. reflexivity.
Qed.

End SizeFacts.

(** *** Properties of sendKittyGraphics *)

Module KittyFacts.
Import Kitty.

(** **** Facts on [std::string] slices *)

Lemma substring_zero_length (s : string) :
  String.substring 0 (String.length s) s = s.
Proof. induction s as [|c s IH]; simpl; [reflexivity|]. now rewrite IH. Qed.

Lemma append_cons (c : ascii) (s t : string) :
  String c s +:+ t = String c (s +:+ t).
Proof. reflexivity. Qed.

Lemma append_empty_l (t : string) : "" +:+ t = t.
Proof. reflexivity. Qed.

Lemma append_empty_r (s : string) : s +:+ "" = s.
Proof. induction s as [|c s IH]; [reflexivity|]. now rewrite append_cons, IH. Qed.

Lemma append_assoc (s t u : string) : (s +:+ t) +:+ u = s +:+ (t +:+ u).
Proof.
  induction s as [|c s IH]; [reflexivity|]. now rewrite !append_cons, IH.
Qed.

Lemma length_append (s t : string) :
  String.length (s +:+ t) = String.length s + String.length t.
Proof.
  induction s as [|c s IH]; [reflexivity|].
  rewrite append_cons. simpl. now rewrite IH.
Qed.

Lemma substring_past_end (s : string) :
  forall n m, String.length s <= n -> String.substring n m s = "".
Proof.
  induction s as [|c s IH]; intros n m Hn.
  - destruct n, m; reflexivity.
  - destruct n as [|n]; simpl in Hn; [lia|].
    simpl. apply IH. lia.
Qed.

Lemma substring_append (s : string) :
  forall n m k,
    String.substring n (m + k) s
    = String.substring n m s +:+ String.substring (n + m) k s.
Proof.
  induction s as [|c s IH]; intros n m k.
  - destruct n, m, k; reflexivity.
  - destruct n as [|n].
    + destruct m as [|m].
      * reflexivity.
      * simpl. rewrite append_cons. f_equal. apply (IH 0 m k).
    + simpl. apply IH.
Qed.

Lemma length_substring (s : string) :
  forall n m,
    String.length (String.substring n m s) = Nat.min m (String.length s - n).
Proof.
  induction s as [|c s IH]; intros n m.
  - destruct n, m; reflexivity.
  - destruct n as [|n].
    + destruct m as [|m]; [reflexivity|].
      simpl. rewrite (IH 0 m). f_equal. f_equal. lia.
    + simpl. apply IH.
Qed.

(** **** Examples *)

Example chunk_loop_ten_by_four :
  chunk_loop 3 4 "ABCDEFGHIJ" 0
  = Some [Frame true false "ABCD"; Frame false false "EFGH";
          Frame false true "IJ"].
Proof. vm_compute. reflexivity. Qed.

Example chunk_loop_eight_by_four :
  chunk_loop 2 4 "ABCDEFGH" 0
  = Some [Frame true false "ABCD"; Frame false true "EFGH"].
Proof. vm_compute. reflexivity. Qed.

Example chunk_loop_out_of_fuel : chunk_loop 2 4 "ABCDEFGHIJ" 0 = None.
Proof. vm_compute. reflexivity. Qed.

Example sendKittyGraphics_one_frame :
  sendKittyGraphics 1 "QUJD" 3 40
  = Some (ESC +:+ "[10;42H"
          +:+ ESC +:+ "_Ga=T,f=100,t=d,q=2,m=0;QUJD" +:+ ESC +:+ "\").
Proof. vm_compute. reflexivity. Qed.

Example long_payload_frames :
  (fun f => (has_meta f, is_last f, String.length (payload f)))
  <$> default [] (kitty_frames 3 Toy.long_payload)
  = [(true, false, 4096); (false, false, 4096); (false, true, 1)].
Proof. vm_compute. reflexivity. Qed.

(** **** The loop as a closed form *)

Lemma chunk_loop_unfold (fuel csize : nat) (s : string) (offset : nat) :
  chunk_loop (S fuel) csize s offset
  = if (offset <? String.length s)%nat then
      match chunk_loop fuel csize s
              (offset + Nat.min csize (String.length s - offset)) with
      | None => None
      | Some fs =>
          Some (Frame (offset =? 0)%nat
                  (String.length s
                   <=? offset + Nat.min csize (String.length s - offset))%nat
                  (String.substring offset
                     (Nat.min csize (String.length s - offset)) s) :: fs)
      end
    else Some [].
Proof. reflexivity. Qed.

Lemma chunk_loop_done (fuel csize : nat) (s : string) (offset : nat) :
  String.length s <= offset -> chunk_loop fuel csize s offset = Some [].
Proof.
  intros Hge. destruct fuel; simpl;
    destruct (Nat.ltb_spec offset (String.length s)); (lia || reflexivity).
Qed.

Lemma chunk_count_lt (csize total j : nat) :
  0 < csize -> (j < chunk_count csize total <-> j * csize < total).
Proof.
  intros Hc. unfold chunk_count.
  pose proof (Nat.div_mod_eq (total + csize - 1) csize) as Hdm.
  pose proof (Nat.mod_upper_bound (total + csize - 1) csize ltac:(lia)) as Hm.
  split; intros H; nia.
Qed.

Lemma chunk_loop_closed (csize : nat) (s : string) :
  0 < csize ->
  forall fuel j,
    chunk_count csize (String.length s) - j <= fuel ->
    chunk_loop fuel csize s (j * csize)
    = Some (map (frame_at csize s)
                (seq j (chunk_count csize (String.length s) - j))).
Proof.
  intros Hc. set (L := String.length s). set (n := chunk_count csize L).
  induction fuel as [|fuel IH]; intros j Hfuel.
  - replace (n - j) with 0 by lia. simpl.
    assert (~ j * csize < L) by (rewrite <- (chunk_count_lt csize L j Hc); fold n; lia).
    fold L. destruct (Nat.ltb_spec (j * csize) L); [lia|reflexivity].
  - rewrite chunk_loop_unfold. fold L.
    destruct (Nat.ltb_spec (j * csize) L) as [Hlt|Hge].
    + assert (Hj : j < n) by (apply (chunk_count_lt csize L j Hc); exact Hlt).
      replace (n - j) with (S (n - S j)) by lia.
      cbn [seq map].
      destruct (Nat.le_gt_cases csize (L - j * csize)) as [Hfull|Hshort].
      * rewrite (Nat.min_l csize (L - j * csize)) by exact Hfull.
        replace (j * csize + csize) with (S j * csize) by lia.
        rewrite (IH (S j)) by lia.
        unfold frame_at at 2. fold L.
        rewrite (Nat.min_l csize (L - j * csize)) by exact Hfull.
        replace (j =? 0)%nat with (j * csize =? 0)%nat
          by (destruct j; simpl; [reflexivity|];
              destruct (Nat.eqb_spec (csize + j * csize) 0); [lia|reflexivity]).
        replace (S j * csize) with (j * csize + csize) by lia.
        reflexivity.
      * rewrite (Nat.min_r csize (L - j * csize)) by lia.
        rewrite chunk_loop_done by (fold L; lia).
        assert (Hn : n - S j = 0).
        { assert (~ S j * csize < L) by lia.
          assert (~ S j < n)
            by (intros Hx; apply (chunk_count_lt csize L (S j) Hc) in Hx; lia).
          lia. }
        rewrite Hn. cbn [seq map].
        unfold frame_at. fold L.
        rewrite (Nat.min_r csize (L - j * csize)) by lia.
        replace (j =? 0)%nat with (j * csize =? 0)%nat
          by (destruct j; simpl; [reflexivity|];
              destruct (Nat.eqb_spec (csize + j * csize) 0); [lia|reflexivity]).
        reflexivity.
    + assert (~ j < n)
        by (intros Hx; apply (chunk_count_lt csize L j Hc) in Hx; lia).
      replace (n - j) with 0 by lia. reflexivity.
Qed.


Lemma substring_no_chars (s : string) (n : nat) : String.substring n 0 s = "".
Proof.
  pose proof (length_substring s n 0) as H. simpl in H.
  destruct (String.substring n 0 s); [reflexivity|discriminate].
Qed.

Lemma joined_payload_closed (csize : nat) (s : string) :
  0 < csize ->
  forall d j,
    d = chunk_count csize (String.length s) - j ->
    joined_payload (map (frame_at csize s) (seq j d))
    = String.substring (j * csize) (String.length s - j * csize) s.
Proof.
  intros Hc. set (L := String.length s).
  induction d as [|d IH]; intros j Hd.
  - assert (~ j < chunk_count csize L) as Hn by lia.
    rewrite (chunk_count_lt csize L j Hc) in Hn.
    replace (L - j * csize) with 0 by lia.
    now rewrite substring_no_chars.
  - assert (j < chunk_count csize L) as Hj by lia.
    apply (chunk_count_lt csize L j Hc) in Hj.
    cbn [seq map joined_payload].
    rewrite (IH (S j)) by lia.
    unfold frame_at. cbn [payload]. fold L.
    destruct (Nat.le_gt_cases csize (L - j * csize)) as [Hfull|Hshort].
    + rewrite (Nat.min_l csize (L - j * csize)) by exact Hfull.
      transitivity (String.substring (j * csize)
                      (csize + (L - S j * csize)) s);
        [|f_equal; lia].
      rewrite substring_append. f_equal. f_equal. lia.
    + rewrite (Nat.min_r csize (L - j * csize)) by lia.
      replace (L - S j * csize) with 0 by lia.
      now rewrite substring_no_chars, append_empty_r.
Qed.

(** With enough fuel the loop returns the frames [0 .. n-1] of the closed
    form, [n] being the length over the chunk size rounded up, and they join
    back to the payload. *)
Lemma chunk_loop_frames (csize : nat) (s : string) (fuel : nat) :
  0 < csize ->
  chunk_count csize (String.length s) <= fuel ->
  chunk_loop fuel csize s 0
  = Some (map (frame_at csize s)
              (seq 0 (chunk_count csize (String.length s)))).
Proof.
  intros Hc Hfuel.
  pose proof (chunk_loop_closed csize s Hc fuel 0) as H.
  rewrite Nat.sub_0_r in H. apply H. exact Hfuel.
Qed.

Lemma frames_join (csize : nat) (s : string) :
  0 < csize ->
  joined_payload (map (frame_at csize s)
                      (seq 0 (chunk_count csize (String.length s)))) = s.
Proof.
  intros Hc.
  rewrite (joined_payload_closed csize s Hc _ 0) by lia.
  simpl. rewrite Nat.sub_0_r. apply substring_zero_length.
Qed.

Lemma frames_lookup (csize : nat) (s : string) (k : nat) (f : frame) :
  map (frame_at csize s) (seq 0 (chunk_count csize (String.length s))) !! k
  = Some f ->
  k < chunk_count csize (String.length s) /\ f = frame_at csize s k.
Proof.
  intros H. rewrite list_lookup_fmap in H.
  destruct (seq 0 (chunk_count csize (String.length s)) !! k) as [k'|] eqn:Hk;
    [|discriminate].
  apply lookup_seq in Hk as [-> Hlt]. simpl in H.
  split; [exact Hlt|congruence].
Qed.

End KittyFacts.

(** *** Properties of base64_encode *)

Module Base64Facts.
Import Base64.
Local Open Scope Z_scope.

(** **** Checking a property on every byte value *)

Lemma in_values (n : nat) (v : Z) :
  0 <= v < Z.of_nat n -> In v (map Z.of_nat (seq 0 n)).
Proof.
  intros Hv. apply in_map_iff. exists (Z.to_nat v). split; [lia|].
  apply in_seq. lia.
Qed.

Lemma all_bytes (t : Z -> bool) :
  forallb t byte_values = true ->
  forall a, 0 <= a < 256 -> t a = true.
Proof.
  intros H a Ha.
  apply (proj1 (forallb_forall t byte_values) H).
  apply (in_values 256). exact Ha.
Qed.

Lemma all_byte_pairs (t : Z -> Z -> bool) :
  forallb (fun a => forallb (t a) byte_values) byte_values = true ->
  forall a b, 0 <= a < 256 -> 0 <= b < 256 -> t a b = true.
Proof.
  intros H a b Ha Hb.
  apply (all_bytes (t a)); [|exact Hb].
  apply (all_bytes (fun a => forallb (t a) byte_values)); assumption.
Qed.

Lemma all_sextets (t : Z -> bool) :
  forallb t sextet_values = true ->
  forall v, 0 <= v < 64 -> t v = true.
Proof.
  intros H v Hv.
  apply (proj1 (forallb_forall t sextet_values) H).
  apply (in_values 64). exact Hv.
Qed.

Lemma in_sextet_range (v : Z) : in_sextet v = true -> 0 <= v < 64.
Proof. unfold in_sextet. intros H. apply andb_true_iff in H. lia. Qed.

(** **** The sextets and the bytes they came from *)

Lemma sextets_range_0 (a0 : Z) :
  0 <= a0 < 256 -> 0 <= char_array_4_0 a0 < 64.
Proof.
  intros H. apply in_sextet_range.
  revert a0 H. apply all_bytes. vm_compute. reflexivity.
Qed.

Lemma sextets_range_1 (a0 a1 : Z) :
  0 <= a0 < 256 -> 0 <= a1 < 256 -> 0 <= char_array_4_1 a0 a1 < 64.
Proof.
  intros H0 H1. apply in_sextet_range.
  revert a0 a1 H0 H1.
  apply (all_byte_pairs (fun a0 a1 => in_sextet (char_array_4_1 a0 a1))).
  vm_compute. reflexivity.
Qed.

Lemma sextets_range_2 (a1 a2 : Z) :
  0 <= a1 < 256 -> 0 <= a2 < 256 -> 0 <= char_array_4_2 a1 a2 < 64.
Proof.
  intros H1 H2. apply in_sextet_range.
  revert a1 a2 H1 H2.
  apply (all_byte_pairs (fun a1 a2 => in_sextet (char_array_4_2 a1 a2))).
  vm_compute. reflexivity.
Qed.

Lemma sextets_range_3 (a2 : Z) :
  0 <= a2 < 256 -> 0 <= char_array_4_3 a2 < 64.
Proof.
  intros H. apply in_sextet_range.
  revert a2 H. apply all_bytes. vm_compute. reflexivity.
Qed.

(** The first byte is read back from the first two sextets. *)
Lemma first_byte_back (a0 a1 : Z) :
  0 <= a0 < 256 -> 0 <= a1 < 256 ->
  Z.lor (Z.shiftl (char_array_4_0 a0) 2) (Z.shiftr (char_array_4_1 a0 a1) 4)
  = a0.
Proof.
  intros H0 H1. apply Z.eqb_eq. revert a0 a1 H0 H1.
  apply (all_byte_pairs
           (fun a0 a1 =>
              Z.lor (Z.shiftl (char_array_4_0 a0) 2)
                    (Z.shiftr (char_array_4_1 a0 a1) 4) =? a0)).
  vm_compute. reflexivity.
Qed.

Lemma second_sextet_low (a0 a1 : Z) :
  0 <= a0 < 256 -> 0 <= a1 < 256 ->
  Z.land (char_array_4_1 a0 a1) 15 = Z.shiftr a1 4.
Proof.
  intros H0 H1. apply Z.eqb_eq. revert a0 a1 H0 H1.
  apply (all_byte_pairs
           (fun a0 a1 => Z.land (char_array_4_1 a0 a1) 15 =? Z.shiftr a1 4)).
  vm_compute. reflexivity.
Qed.

(** The second byte is read back from the second and third sextets. *)
Lemma second_byte_back (a1 a2 : Z) :
  0 <= a1 < 256 -> 0 <= a2 < 256 ->
  Z.lor (Z.shiftl (Z.shiftr a1 4) 4) (Z.shiftr (char_array_4_2 a1 a2) 2) = a1.
Proof.
  intros H1 H2. apply Z.eqb_eq. revert a1 a2 H1 H2.
  apply (all_byte_pairs
           (fun a1 a2 =>
              Z.lor (Z.shiftl (Z.shiftr a1 4) 4)
                    (Z.shiftr (char_array_4_2 a1 a2) 2) =? a1)).
  vm_compute. reflexivity.
Qed.

Lemma third_sextet_low (a1 a2 : Z) :
  0 <= a1 < 256 -> 0 <= a2 < 256 ->
  Z.land (char_array_4_2 a1 a2) 3 = Z.shiftr a2 6.
Proof.
  intros H1 H2. apply Z.eqb_eq. revert a1 a2 H1 H2.
  apply (all_byte_pairs
           (fun a1 a2 => Z.land (char_array_4_2 a1 a2) 3 =? Z.shiftr a2 6)).
  vm_compute. reflexivity.
Qed.

(** The third byte is read back from the third and fourth sextets. *)
Lemma third_byte_back (a2 : Z) :
  0 <= a2 < 256 ->
  Z.lor (Z.shiftl (Z.shiftr a2 6) 6) (char_array_4_3 a2) = a2.
Proof.
  intros H2. apply Z.eqb_eq. revert a2 H2.
  apply (all_bytes
           (fun a2 => Z.lor (Z.shiftl (Z.shiftr a2 6) 6) (char_array_4_3 a2)
                      =? a2)).
  vm_compute. reflexivity.
Qed.

(** **** The alphabet *)

Lemma decode_base64_char (v : Z) :
  0 <= v < 64 -> decode_char (base64_char v) = Some v.
Proof.
  intros Hv.
  assert (H : option_Z_eqb (decode_char (base64_char v)) v = true).
  { revert v Hv. apply all_sextets. vm_compute. reflexivity. }
  unfold option_Z_eqb in H.
  destruct (decode_char (base64_char v)) as [w|]; [|discriminate].
  apply Z.eqb_eq in H. now subst.
Qed.

Lemma base64_char_not_pad (v : Z) :
  0 <= v < 64 -> Ascii.eqb (base64_char v) pad = false.
Proof.
  intros Hv.
  assert (H : negb (Ascii.eqb (base64_char v) pad) = true).
  { revert v Hv. apply all_sextets. vm_compute. reflexivity. }
  now apply negb_true_iff in H.
Qed.

Lemma uchar_range (b : Byte.byte) : 0 <= uchar b < 256.
Proof.
  unfold uchar. pose proof (Byte.to_N_bounded b) as H.
  split; [lia|]. apply N2Z.inj_le in H. simpl in H. lia.
Qed.

Lemma byte_of_uchar (b : Byte.byte) : byte_of_Z (uchar b) = Some b.
Proof.
  unfold byte_of_Z, uchar. rewrite N2Z.id. apply Byte.of_to_N.
Qed.


(** **** The test vectors of RFC 4648 *)

Example encode_foobar :
  base64_encode (list_byte_of_string "foobar") = "Zm9vYmFy".
Proof. vm_compute. reflexivity. Qed.

Example encode_fooba :
  base64_encode (list_byte_of_string "fooba") = "Zm9vYmE=".
Proof. vm_compute. reflexivity. Qed.

Example encode_foob :
  base64_encode (list_byte_of_string "foob") = "Zm9vYg==".
Proof. vm_compute. reflexivity. Qed.

Example encode_nothing : base64_encode [] = "".
Proof. reflexivity. Qed.

(** **** Decoding what the encoder emits *)

Lemma decode_group_three (b0 b1 b2 : Byte.byte) :
  decode_group (base64_char (char_array_4_0 (uchar b0)))
               (base64_char (char_array_4_1 (uchar b0) (uchar b1)))
               (base64_char (char_array_4_2 (uchar b1) (uchar b2)))
               (base64_char (char_array_4_3 (uchar b2)))
  = Some [b0; b1; b2].
Proof.
  pose proof (uchar_range b0) as R0. pose proof (uchar_range b1) as R1.
  pose proof (uchar_range b2) as R2.
  pose proof (byte_of_uchar b0) as B0. pose proof (byte_of_uchar b1) as B1.
  pose proof (byte_of_uchar b2) as B2.
  revert R0 R1 R2 B0 B1 B2.
  generalize (uchar b0) (uchar b1) (uchar b2). intros a0 a1 a2 R0 R1 R2 B0 B1 B2.
  unfold decode_group.
  rewrite (decode_base64_char _ (sextets_range_0 a0 R0)).
  rewrite (decode_base64_char _ (sextets_range_1 a0 a1 R0 R1)).
  rewrite (first_byte_back a0 a1 R0 R1).
  rewrite B0.
  rewrite (base64_char_not_pad _ (sextets_range_2 a1 a2 R1 R2)).
  rewrite (decode_base64_char _ (sextets_range_2 a1 a2 R1 R2)).
  rewrite (second_sextet_low a0 a1 R0 R1), (second_byte_back a1 a2 R1 R2).
  rewrite B1.
  rewrite (base64_char_not_pad _ (sextets_range_3 a2 R2)).
  rewrite (decode_base64_char _ (sextets_range_3 a2 R2)).
  rewrite (third_sextet_low a1 a2 R1 R2), (third_byte_back a2 R2).
  rewrite B2. reflexivity.
Qed.

Lemma decode_group_two (b0 b1 : Byte.byte) :
  decode_group (base64_char (char_array_4_0 (uchar b0)))
               (base64_char (char_array_4_1 (uchar b0) (uchar b1)))
               (base64_char (char_array_4_2 (uchar b1) 0))
               pad
  = Some [b0; b1].
Proof.
  pose proof (uchar_range b0) as R0. pose proof (uchar_range b1) as R1.
  pose proof (byte_of_uchar b0) as B0. pose proof (byte_of_uchar b1) as B1.
  revert R0 R1 B0 B1.
  generalize (uchar b0) (uchar b1). intros a0 a1 R0 R1 B0 B1.
  assert (Rz : 0 <= 0 < 256) by lia.
  unfold decode_group.
  rewrite (decode_base64_char _ (sextets_range_0 a0 R0)).
  rewrite (decode_base64_char _ (sextets_range_1 a0 a1 R0 R1)).
  rewrite (first_byte_back a0 a1 R0 R1).
  rewrite B0.
  rewrite (base64_char_not_pad _ (sextets_range_2 a1 0 R1 Rz)).
  rewrite (decode_base64_char _ (sextets_range_2 a1 0 R1 Rz)).
  rewrite (second_sextet_low a0 a1 R0 R1), (second_byte_back a1 0 R1 Rz).
  rewrite B1. reflexivity.
Qed.

Lemma decode_group_one (b0 : Byte.byte) :
  decode_group (base64_char (char_array_4_0 (uchar b0)))
               (base64_char (char_array_4_1 (uchar b0) 0))
               pad pad
  = Some [b0].
Proof.
  pose proof (uchar_range b0) as R0.
  pose proof (byte_of_uchar b0) as B0.
  revert R0 B0. generalize (uchar b0). intros a0 R0 B0.
  assert (Rz : 0 <= 0 < 256) by lia.
  unfold decode_group.
  rewrite (decode_base64_char _ (sextets_range_0 a0 R0)).
  rewrite (decode_base64_char _ (sextets_range_1 a0 0 R0 Rz)).
  rewrite (first_byte_back a0 0 R0 Rz).
  rewrite B0. reflexivity.
Qed.

(** With no byte pending, the stale contents of [char_array_3] do not
    matter. *)
Lemma encode_loop_fresh (bytes : list Byte.byte) (x y : Z) :
  encode_loop bytes 0 x y = encode_loop bytes 0 0 0.
Proof.
  destruct bytes as [|b0 [|b1 [|b2 rest]]]; reflexivity.
Qed.

Lemma encode_three (b0 b1 b2 : Byte.byte) (rest : list Byte.byte) :
  base64_encode (b0 :: b1 :: b2 :: rest)
  = emit4 (uchar b0) (uchar b1) (uchar b2) +:+ base64_encode rest.
Proof.
  unfold base64_encode. cbn [encode_loop].
  now rewrite encode_loop_fresh.
Qed.

Lemma list_by_threes {A} (P : list A -> Prop) :
  P [] -> (forall a, P [a]) -> (forall a b, P [a; b]) ->
  (forall a b c l, P l -> P (a :: b :: c :: l)) ->
  forall l, P l.
Proof.
  intros H0 H1 H2 H3.
  assert (H : forall l, P l /\ (forall a, P (a :: l))
                        /\ (forall a b, P (a :: b :: l))).
  { induction l as [|x l (IHa & IHb & IHc)].
    - split; [|split]; intros; auto.
    - split; [|split]; intros; auto. }
  intros l. apply H.
Qed.

(** Decoding the encoder's output gives back the bytes. *)
Lemma base64_round_trip (bytes : list Byte.byte) :
  base64_decode (base64_encode bytes) = Some bytes.
Proof.
  induction bytes as [|b0|b0 b1|b0 b1 b2 rest IH] using list_by_threes.
  - reflexivity.
  - unfold base64_encode. cbn [encode_loop emit_tail char_array_4].
    cbn [base64_decode].
    change "="%char with pad.
    rewrite decode_group_one.
    now rewrite (proj2 (Ascii.eqb_eq pad pad) eq_refl).
  - unfold base64_encode. cbn [encode_loop emit_tail char_array_4].
    cbn [base64_decode].
    change "="%char with pad.
    rewrite decode_group_two.
    now rewrite (proj2 (Ascii.eqb_eq pad pad) eq_refl).
  - rewrite encode_three. unfold emit4, char_array_4.
    rewrite !KittyFacts.append_cons, KittyFacts.append_empty_l.
    cbn [base64_decode].
    rewrite decode_group_three.
    rewrite (base64_char_not_pad _ (sextets_range_3 _ (uchar_range b2))).
    now rewrite IH.
Qed.

End Base64Facts.

(** *** The encoder as a whole *)

Module EncoderFacts.
Import Base64 Kitty KittyFacts.

(** [n] is the length over the chunk size, rounded up. *)
Lemma chunk_count_ceil (csize total : nat) :
  0 < csize -> 0 < total ->
  0 < chunk_count csize total
  /\ (chunk_count csize total - 1) * csize < total
  /\ total <= chunk_count csize total * csize.
Proof.
  intros Hc Ht. set (n := chunk_count csize total).
  assert (H0 : 0 < n) by (apply (chunk_count_lt csize total 0 Hc); lia).
  assert (H1 : n - 1 < n) by lia.
  apply (chunk_count_lt csize total (n - 1) Hc) in H1.
  assert (H2 : ~ n * csize < total)
    by (intros Hx; apply (chunk_count_lt csize total n Hc) in Hx; lia).
  repeat split; lia.
Qed.

(** The marks and the size of the [k]-th frame. *)
Lemma frame_at_marks (csize : nat) (s : string) (k : nat) :
  0 < csize -> k < chunk_count csize (String.length s) ->
  (has_meta (frame_at csize s k) = true <-> k = 0)
  /\ (is_last (frame_at csize s k) = true
      <-> k = chunk_count csize (String.length s) - 1)
  /\ (k < chunk_count csize (String.length s) - 1 ->
      String.length (payload (frame_at csize s k)) = csize)
  /\ (k = chunk_count csize (String.length s) - 1 ->
      String.length (payload (frame_at csize s k))
      = String.length s - k * csize).
Proof.
  intros Hc Hk. set (L := String.length s) in *.
  set (n := chunk_count csize L) in *.
  pose proof (proj1 (chunk_count_lt csize L k Hc) Hk) as HkL.
  assert (HL : 0 < L) by lia.
  destruct (chunk_count_ceil csize L Hc HL) as (Hn0 & Hlo & Hhi). fold n in Hn0, Hlo, Hhi.
  unfold frame_at. cbn [has_meta is_last payload]. fold L.
  rewrite length_substring. fold L.
  assert (Hnext : S k < n <-> S k * csize < L)
    by apply (chunk_count_lt csize L (S k) Hc).
  repeat split.
  - intros H. now apply Nat.eqb_eq in H.
  - intros ->. reflexivity.
  - intros H. apply Nat.leb_le in H.
    destruct (Nat.eq_dec k (n - 1)) as [|Hne]; [assumption|].
    assert (S k < n) as Hs by lia. apply Hnext in Hs. lia.
  - intros ->. apply Nat.leb_le. nia.
  - intros Hlt. assert (S k < n) as Hs by lia. apply Hnext in Hs. lia.
  - intros ->. nia.
Qed.

(** A slice that asks for more than is left is the slice of what is
    left. *)
Lemma substring_clamp (s : string) (n m : nat) :
  String.substring n (Nat.min m (String.length s - n)) s
  = String.substring n m s.
Proof.
  destruct (Nat.le_ge_cases m (String.length s - n)) as [Hle|Hge].
  - now rewrite Nat.min_l.
  - rewrite Nat.min_r by exact Hge.
    replace (String.substring n m s)
      with (String.substring n ((String.length s - n)
                                + (m - (String.length s - n))) s)
      by (f_equal; lia).
    rewrite substring_append, (substring_past_end s (n + _)) by lia.
    now rewrite append_empty_r.
Qed.

(** The [k]-th frame in closed form. *)
Lemma frame_at_closed (csize : nat) (s : string) (k : nat) :
  0 < csize -> k < chunk_count csize (String.length s) ->
  frame_at csize s k
  = Frame (k =? 0) (k =? chunk_count csize (String.length s) - 1)
          (String.substring (k * csize) csize s).
Proof.
  intros Hc Hk.
  destruct (frame_at_marks csize s k Hc Hk) as (_ & Hlast & _).
  unfold frame_at in *. cbn [is_last] in Hlast.
  rewrite substring_clamp. f_equal.
  destruct (Nat.eqb_spec k (chunk_count csize (String.length s) - 1))
    as [Heq|Hne].
  - now apply Hlast.
  - destruct (String.length s
              <=? k * csize + Nat.min csize (String.length s - k * csize))
      eqn:E; [|reflexivity].
    exfalso. apply Hne. now apply Hlast.
Qed.

Lemma concat_text_cons (x : string) (xs : list string) :
  String.concat "" (x :: xs) = x +:+ String.concat "" xs.
Proof. destruct xs; cbn; [now rewrite append_empty_r|reflexivity]. Qed.

Lemma joined_payload_text (fs : list frame) :
  joined_payload fs = String.concat "" (map payload fs).
Proof.
  induction fs as [|f fs IH]; [reflexivity|].
  cbn [joined_payload map]. now rewrite concat_text_cons, IH.
Qed.

(** What the loop writes is the texts of its frames, one after the
    other. *)
Lemma concat_wire_text (fs : list frame) :
  concat_wire fs = String.concat "" (map frame_wire fs).
Proof.
  induction fs as [|f fs IH]; [reflexivity|].
  cbn [concat_wire map]. now rewrite concat_text_cons, IH.
Qed.

(** C3.  For a non-empty payload of length [L] and the chunk size 4096, the
    encoder emits [n] frames, [n] being [L / 4096] rounded up: what it
    writes is the cursor positioning followed by the [n] framed chunks, the
    [k]-th being the escape introducer, the placement keys
    [a=T,f=100,t=d,q=2] if it is the first, [m=0] if it is the last and
    [m=1] if not, the characters of the payload from [4096 k] on, 4096 of
    them at most, and the terminator.  The payloads of the frames joined in
    order are the payload itself, so that decoding them gives back the
    bytes the payload was encoded from; every frame before the last holds
    4096 characters and the last holds the rest, fewer than 4096 when 4096
    does not divide [L]. *)
Theorem sendKittyGraphics_chunking (b64Data : string) (pY pX : Z) :
  0 < String.length b64Data ->
  let L := String.length b64Data in
  let n := chunk_count chunk_size L in
  let esc := String (ascii_of_nat 27) "" in
  let chunk_text (k : nat) :=
    esc +:+ "_G"
    +:+ (if (k =? 0)%nat then "a=T,f=100,t=d,q=2," else "")
    +:+ "m=" +:+ (if (k =? n - 1)%nat then "0" else "1") +:+ ";"
    +:+ String.substring (k * 4096) 4096 b64Data
    +:+ esc +:+ "\" in
  exists fs : list frame,
    (forall fuel, n <= fuel ->
       kitty_frames fuel b64Data = Some fs
       /\ sendKittyGraphics fuel b64Data pY pX
          = Some (esc +:+ "["
                  +:+ NilZero.string_of_int (Z.to_int (pY + 7)) +:+ ";"
                  +:+ NilZero.string_of_int (Z.to_int (pX + 2)) +:+ "H"
                  +:+ String.concat "" (map chunk_text (seq 0 n))))
    /\ fs = map (fun k => Frame (k =? 0)%nat (k =? n - 1)%nat
                               (String.substring (k * 4096) 4096 b64Data))
                (seq 0 n)
    /\ length fs = n
    /\ (n - 1) * chunk_size < L <= n * chunk_size
    /\ joined_payload fs = b64Data
    /\ String.concat "" (map payload fs) = b64Data
    /\ (forall bytes,
          b64Data = base64_encode bytes ->
          base64_decode (String.concat "" (map payload fs)) = Some bytes)
    /\ (forall k f, fs !! k = Some f ->
          (has_meta f = true <-> k = 0)
          /\ (is_last f = true <-> k = n - 1)
          /\ (k < n - 1 -> String.length (payload f) = chunk_size)
          /\ (k = n - 1 ->
              String.length (payload f) = L - (n - 1) * chunk_size)
          /\ frame_wire f = chunk_text k)
    /\ (L mod chunk_size <> 0 ->
        exists f, fs !! (n - 1) = Some f
                  /\ String.length (payload f) = L mod chunk_size
                  /\ String.length (payload f) < chunk_size).
Proof.
  intros HL L n esc chunk_text.
  assert (Hc : 0 < chunk_size) by (unfold chunk_size; lia).
  destruct (chunk_count_ceil chunk_size L Hc HL) as (Hn0 & Hlo & Hhi).
  fold n in Hn0, Hlo, Hhi.
  exists (map (frame_at chunk_size b64Data) (seq 0 n)).
  assert (Hjoin : joined_payload (map (frame_at chunk_size b64Data) (seq 0 n))
                  = b64Data) by apply (frames_join chunk_size b64Data Hc).
  assert (Hclosed : forall k, k < n ->
            frame_at chunk_size b64Data k
            = Frame (k =? 0)%nat (k =? n - 1)%nat
                    (String.substring (k * 4096) 4096 b64Data)).
  { intros k Hk. apply (frame_at_closed chunk_size b64Data k Hc Hk). }
  assert (Hwire : forall k, k < n ->
            frame_wire (frame_at chunk_size b64Data k) = chunk_text k).
  { intros k Hk. rewrite (Hclosed k Hk). reflexivity. }
  split; [|split; [|split; [|split; [|split; [|split; [|split; [|split]]]]]]].
  - intros fuel Hfuel.
    assert (Hk : kitty_frames fuel b64Data
                 = Some (map (frame_at chunk_size b64Data) (seq 0 n)))
      by (apply chunk_loop_frames; assumption).
    split; [exact Hk|]. unfold sendKittyGraphics. rewrite Hk.
    rewrite concat_wire_text, map_map.
    rewrite (map_ext_in _ chunk_text).
    + f_equal. unfold cursor_to, decimal, ESC. subst esc.
      rewrite !append_assoc. reflexivity.
    + intros k Hin. apply in_seq in Hin. apply Hwire. lia.
  - apply map_ext_in. intros k Hin. apply in_seq in Hin.
    apply Hclosed. lia.
  - now rewrite length_map, length_seq.
  - split; assumption.
  - exact Hjoin.
  - rewrite <- joined_payload_text. exact Hjoin.
  - intros bytes ->. rewrite <- joined_payload_text, Hjoin.
    apply Base64Facts.base64_round_trip.
  - intros k f Hf.
    apply frames_lookup in Hf as [Hk ->]. fold L n in Hk.
    destruct (frame_at_marks chunk_size b64Data k Hc Hk)
      as (Hmeta & Hlast & Hfull & Hrest).
    fold L n in Hlast, Hfull, Hrest.
    split; [exact Hmeta|]. split; [exact Hlast|]. split; [exact Hfull|].
    split; [intros Hkn; rewrite (Hrest Hkn); now rewrite Hkn|].
    now apply Hwire.
  - intros Hmod.
    assert (Hlt : n - 1 < n) by lia.
    exists (frame_at chunk_size b64Data (n - 1)).
    destruct (frame_at_marks chunk_size b64Data (n - 1) Hc Hlt)
      as (_ & _ & _ & Hrest).
    fold L n in Hrest. specialize (Hrest eq_refl).
    pose proof (Nat.div_mod_eq L chunk_size) as Hdm.
    pose proof (Nat.mod_upper_bound L chunk_size ltac:(lia)) as Hub.
    assert (Hq : L / chunk_size = n - 1) by nia.
    split.
    + rewrite list_lookup_fmap, lookup_seq_lt by lia. reflexivity.
    + rewrite Hrest. rewrite Hq in Hdm. split; lia.
Qed.

(** A payload of four characters goes out as one frame. *)
Lemma sendKittyGraphics_chunking_witness :
  sendKittyGraphics 1 "QUJD" 0 0
  = Some (String (ascii_of_nat 27) "[7;2H"
          +:+ String (ascii_of_nat 27) "_Ga=T,f=100,t=d,q=2,m=0;QUJD"
          +:+ String (ascii_of_nat 27) "\")
  /\ exists fs : list frame,
       kitty_frames 1 "QUJD" = Some fs /\ length fs = 1
       /\ joined_payload fs = "QUJD".
Proof.
  destruct (sendKittyGraphics_chunking "QUJD" 0%Z 0%Z)
    as (fs & Hrun & _ & Hlen & _ & Hjoin & _).
  - simpl. lia.
  - destruct (Hrun 1) as [Hframes Hout]; [vm_compute; lia|].
    split.
    + rewrite Hout. vm_compute. reflexivity.
    + exists fs. split; [exact Hframes|]. split; [|exact Hjoin].
      rewrite Hlen. vm_compute. reflexivity.
Defined.

End EncoderFacts.

(** *** Properties of loadDirectory *)

Module CatalogFacts.
Import Path Fs Catalog.

Lemma filename_append (p : fspath) (n : string) : filename (append p n) = n.
Proof. unfold filename, append. simpl. now rewrite last_snoc. Qed.



Section Load.
Context {W : Type} `{FileSystem W} `{StdSort}.

Lemma newFileEntry_fields (w : W) (p : fspath) (e : FileEntry) (d : bool) :
  fs_is_directory w p = Some d -> newFileEntry w p = Some e ->
  path e = p /\ name e = filename p /\ is_directory e = d.
Proof.
  unfold newFileEntry. intros -> [= <-]. simpl. auto.
Qed.

(** What one pass appends: entries of the wanted kind, named after names
    of the listing, in the order of the listing. *)
Lemma scan_appends (w : W) (dir : fspath) (sh want : bool)
    (names : list string) :
  forall target target' ok,
    scan w dir sh want names target = (target', ok) ->
    exists added,
      target' = target ++ added
      /\ Forall (fun e => is_directory e = want) added
      /\ Forall (fun e => path e = append dir (name e)) added
      /\ (name <$> added) `sublist_of` names.
Proof.
  induction names as [|n rest IH]; intros target target' ok Hscan.
  - simpl in Hscan. injection Hscan as <- _. exists [].
    rewrite app_nil_r. repeat split; constructor.
  - simpl in Hscan.
    destruct (negb sh && starts_with_dot n).
    { destruct (IH _ _ _ Hscan) as (added & -> & Hk & Hp & Hsub).
      exists added. repeat split; try assumption.
      now apply sublist_cons. }
    destruct (fs_is_directory w (append dir n)) as [d|] eqn:Ed.
    2:{ injection Hscan as <- _. exists []. rewrite app_nil_r.
        repeat split; try constructor. apply sublist_nil_l. }
    destruct (Bool.eqb d want) eqn:Ew.
    2:{ destruct (IH _ _ _ Hscan) as (added & -> & Hk & Hp & Hsub).
        exists added. repeat split; try assumption.
        now apply sublist_cons. }
    destruct (newFileEntry w (append dir n)) as [e|] eqn:Ee.
    2:{ injection Hscan as <- _. exists []. rewrite app_nil_r.
        repeat split; try constructor. apply sublist_nil_l. }
    destruct (IH _ _ _ Hscan) as (added & -> & Hk & Hp & Hsub).
    destruct (newFileEntry_fields w _ e d Ed Ee) as (Hpath & Hname & Hdir).
    rewrite filename_append in Hname.
    exists (e :: added). rewrite <- app_assoc. simpl.
    split; [reflexivity|]. split; [|split].
    + constructor; [|exact Hk].
      rewrite Hdir. now apply Bool.eqb_prop.
    + constructor; [|exact Hp]. now rewrite Hpath, Hname.
    + rewrite Hname. now apply sublist_skip.
Qed.





Lemma scan_keeps (w : W) (dir : fspath) (sh want : bool)
    (P : FileEntry -> Prop) (names : list string) :
  forall target target' ok,
    scan w dir sh want names target = (target', ok) ->
    Forall P target ->
    (forall e, path e = append dir (name e) -> name e ∈ names -> P e) ->
    Forall P target'.
Proof.
  intros target target' ok Hscan Ht HP.
  destruct (scan_appends w dir sh want names _ _ _ Hscan)
    as (added & -> & _ & Hp & Hsub).
  apply Forall_app. split; [exact Ht|].
  apply Forall_forall. intros e He. apply HP.
  - rewrite Forall_forall in Hp. now apply Hp.
  - eapply elem_of_sublist; [|exact Hsub].
    apply list_elem_of_fmap. now exists e.
Qed.

(** Whatever happens, the target holds entries of the directory only. *)
Lemma loadDirectory_entries (w : W) (sh : bool) (dir : fspath)
    (target : list FileEntry) (ok : bool) :
  loadDirectory w sh dir = (target, ok) ->
  Forall (fun e => path e = append dir (name e)
                   /\ name e ∈ fst (fs_list w dir)) target.
Proof.
  unfold loadDirectory, iterate.
  destruct (fs_list w dir) as [names ended]. simpl.
  destruct (scan w dir sh true names []) as [dirs ok1] eqn:E1.
  assert (Hdirs : Forall (fun e => path e = append dir (name e)
                                   /\ name e ∈ names) dirs).
  { eapply scan_keeps; [exact E1|constructor|]. auto. }
  destruct (ok1 && ended); simpl.
  2:{ intros [= <- _]. exact Hdirs. }
  destruct (scan w dir sh false names (std_sort dirs)) as [all ok2] eqn:E2.
  assert (Hall : Forall (fun e => path e = append dir (name e)
                                  /\ name e ∈ names) all).
  { eapply scan_keeps; [exact E2| |auto]. now rewrite std_sort_perm. }
  destruct (ok2 && ended); simpl.
  2:{ intros [= <- _]. exact Hall. }
  intros [= <- _].
  rewrite <- (take_drop (length (std_sort dirs)) all) in Hall.
  apply Forall_app in Hall as [Htake Hdrop].
  apply Forall_app. split; [exact Htake|]. now rewrite std_sort_perm.
Qed.


End Load.

(** **** On the small file system *)

Import Toy.

Example loadDirectory_home :
  name <$> fst (loadDirectory home false home_u)
  = ["alpha"; "zeta"; "Makefile"; "notes.txt"].
Proof. vm_compute. reflexivity. Qed.

Example loadDirectory_home_hidden :
  name <$> fst (loadDirectory home true home_u)
  = ["alpha"; "zeta"; ".profile"; "Makefile"; "notes.txt"].
Proof. vm_compute. reflexivity. Qed.






End CatalogFacts.

(** *** Properties of the clipboard operations and of goUp *)

Module ManagerFacts.
Import Path Fs Catalog Manager.

Section Operations.
Context {W : Type} `{FileSystem W} `{StdSort}.

(** What a reload leaves alone, and what it sets. *)
Lemma reloadAll_frame (w : W) (fm : FileManager) :
  let fm' := reloadAll w fm in
  currentPath fm' = currentPath fm
  /\ clipboard fm' = clipboard fm
  /\ statusMessage fm' = statusMessage fm
  /\ selectedIndex fm' = selectedIndex fm
  /\ showHidden fm' = showHidden fm
  /\ multiSelection fm' = ∅
  /\ currentFiles fm'
     = fst (loadDirectory w (showHidden fm) (currentPath fm)).
Proof.
  unfold reloadAll, loadParent, loadDirectoryInto. simpl.
  destruct (loadDirectory w (showHidden fm) (currentPath fm)) as [t ok].
  simpl.
  destruct (has_parent_path (currentPath fm)
            && bool_decide (currentPath fm <> parent_path (currentPath fm)));
    simpl.
  - destruct (loadDirectory w (showHidden fm) (parent_path (currentPath fm)));
      simpl; auto 10.
  - auto 10.
Qed.

(** **** Copy and cut in an empty directory *)

(** C10.  With an empty current catalog, [handleCopy] and [handleCut]
    return at once: the whole state, and with it the clipboard's paths and
    mode, the selection and the status message, is what it was. *)
Theorem yank_in_empty_catalog (fm : FileManager) :
  currentFiles fm = [] ->
  handleCopy fm = Some fm /\ handleCut fm = Some fm.
Proof.
  intros Hempty. unfold handleCopy, handleCut, handleYank.
  rewrite Hempty. auto.
Qed.

(** **** Paste *)





(** The count never goes down, and goes up by one per item at most. *)
Lemma paste_loop_count_bounds (cut : bool) (dir : fspath)
    (srcs : list fspath) :
  forall w n w' n',
    paste_loop cut dir w srcs n = (w', Some n') ->
    (n <= n' <= n + Z.of_nat (length srcs))%Z.
Proof.
  induction srcs as [|src rest IH]; intros w n w' n' Hrun;
    cbn [paste_loop] in Hrun.
  - injection Hrun as <- <-. cbn. lia.
  - destruct (paste_item cut dir w src) as [[w1 ok]|]; [|discriminate].
    apply IH in Hrun. cbn [length]. destruct ok; lia.
Qed.


(** The loop is left by an exception exactly when [fs::exists] throws
    for some item in its turn; the world is the one it threw in. *)
Lemma paste_loop_raised (cut : bool) (dir : fspath) (srcs : list fspath) :
  forall w n w',
    paste_loop cut dir w srcs n = (w', None)
    <-> exists pre src rest ni,
          srcs = pre ++ src :: rest
          /\ paste_loop cut dir w pre n = (w', Some ni)
          /\ fs_exists w' (append dir (filename src)) = None.
Proof.
  induction srcs as [|src rest IH]; intros w n w'; cbn [paste_loop].
  - split; [discriminate|].
    intros (pre & s & r & _ & Heq & _). destruct pre; discriminate.
  - destruct (paste_item cut dir w src) as [[w1 ok]|] eqn:Ei.
    + rewrite IH. split.
      * intros (pre & s & r & ni & -> & Hpre & Hex).
        exists (src :: pre), s, r, ni. split; [reflexivity|].
        split; [|exact Hex]. cbn [paste_loop]. now rewrite Ei.
      * intros (pre & s & r & ni & Heq & Hpre & Hex).
        destruct pre as [|p pre].
        -- cbn in Heq, Hpre. injection Heq as <- <-.
           injection Hpre as <- <-.
           unfold paste_item in Ei. rewrite Hex in Ei. discriminate.
        -- cbn in Heq. injection Heq as <- ->.
           cbn [paste_loop] in Hpre. rewrite Ei in Hpre.
           exists pre, s, r, ni. auto.
    + assert (Hex : fs_exists w (append dir (filename src)) = None).
      { unfold paste_item in Ei.
        destruct (fs_exists w (append dir (filename src)));
          [discriminate|reflexivity]. }
      split.
      * intros [= <-]. exists [], src, rest, n. auto.
      * intros (pre & s & r & ni & Heq & Hpre & _).
        destruct pre as [|p pre].
        -- cbn in Hpre. now injection Hpre as <- <-.
        -- cbn in Heq. injection Heq as <- ->.
           cbn [paste_loop] in Hpre. rewrite Ei in Hpre. discriminate.
Qed.

Lemma paste_item_conflict (dir : fspath) (w : W) (src : fspath) :
  fs_exists w (append dir (filename src)) = Some true ->
  src <> append dir (filename src) ->
  paste_item false dir w src = Some (w, false).
Proof.
  intros Hex Hne. unfold paste_item. rewrite Hex. simpl.
  now rewrite bool_decide_eq_true_2.
Qed.

(** C7 (amended).  In copy mode a clipboard path whose destination (the
    target directory joined with the source's file name) exists and is not
    the source path itself is skipped: the item makes no call that changes
    the file system, so the destination is not overwritten, and the success
    count is not incremented.  A clipboard made of such paths only leaves
    the file system untouched.  When the destination is the source path
    itself the item is not skipped: the copy is called, and counts as a
    success if it returns. *)
Theorem paste_skips_existing_destination (dir : fspath) (w : W)
    (src : fspath) (srcs : list fspath) :
  (fs_exists w (append dir (filename src)) = Some true ->
   src <> append dir (filename src) ->
   paste_item false dir w src = Some (w, false))
  /\ (Forall (fun s => fs_exists w (append dir (filename s)) = Some true
                       /\ s <> append dir (filename s)) srcs ->
      forall n, paste_loop false dir w srcs n = (w, Some n))
  /\ (src = append dir (filename src) ->
      paste_item false dir w src
      = match fs_exists w src with
        | None => None
        | Some _ =>
            Some match fs_is_directory w src with
                 | None => (w, false)
                 | Some d =>
                     match (if d then fs_copy_recursive w src src
                            else fs_copy w src src) with
                     | Done w1 => (w1, true)
                     | Threw w1 => (w1, false)
                     end
                 end
        end).
Proof.
  split; [|split].
  - apply paste_item_conflict.
  - induction srcs as [|s rest IH]; intros Hall n; [reflexivity|].
    apply Forall_cons in Hall as [[Hs1 Hs2] Hrest].
    cbn [paste_loop]. rewrite (paste_item_conflict dir w s Hs1 Hs2).
    now apply IH.
  - intros Heq. unfold paste_item. rewrite <- Heq.
    rewrite (bool_decide_eq_false_2 (src <> src)) by (intros Hx; now apply Hx).
    destruct (fs_exists w src) as [found|]; [|reflexivity].
    rewrite andb_false_r. reflexivity.
Qed.








(** **** goUp *)

(** The search stops at the first entry of the wanted name, and fails only
    when no entry has it. *)
Lemma find_name_first (oldDirName : string) (files : list FileEntry) :
  forall i,
    match find_name files oldDirName i with
    | Some k =>
        exists j e,
          k = i + j /\ files !! j = Some e /\ name e = oldDirName
          /\ (forall j' e', j' < j -> files !! j' = Some e' ->
                             name e' <> oldDirName)
    | None => Forall (fun e => name e <> oldDirName) files
    end.
Proof.
  induction files as [|f rest IH]; intros i; simpl; [constructor|].
  destruct (String.eqb_spec (name f) oldDirName) as [Heq|Hne].
  - exists 0, f. repeat split; try lia; auto.
  - specialize (IH (S i)).
    destruct (find_name rest oldDirName (S i)) as [k|].
    + destruct IH as (j & e & -> & Hj & He & Hfirst).
      exists (S j), e. repeat split; try lia; auto.
      intros [|j'] e' Hlt Hl; simpl in Hl.
      * now injection Hl as <-.
      * apply (Hfirst j' e'); [lia|exact Hl].
    + now constructor.
Qed.

(** C8.  From a directory with a parent other than itself, [goUp] moves to
    the parent and reloads; the cursor is then on the first entry of the
    new catalog whose name is the leaf name of the directory left, when
    there is one, and at index 0 otherwise. *)
Theorem goUp_reselects_child (w : W) (fm : FileManager) :
  has_parent_path (currentPath fm) = true ->
  currentPath fm <> parent_path (currentPath fm) ->
  let fm' := goUp w fm in
  let leaf := filename (currentPath fm) in
  currentPath fm' = parent_path (currentPath fm)
  /\ currentFiles fm'
     = fst (loadDirectory w (showHidden fm) (parent_path (currentPath fm)))
  /\ ((exists e, e ∈ currentFiles fm' /\ name e = leaf) ->
      exists e, currentFiles fm' !! selectedIndex fm' = Some e
                /\ name e = leaf
                /\ (forall j e', j < selectedIndex fm' ->
                                  currentFiles fm' !! j = Some e' ->
                                  name e' <> leaf))
  /\ ((forall e, e ∈ currentFiles fm' -> name e <> leaf) ->
      selectedIndex fm' = 0).
Proof.
  intros Hpar Hne fm' leaf. subst fm'. unfold goUp.
  rewrite Hpar, (bool_decide_eq_true_2 _ Hne). simpl.
  set (fm2 := set_currentPath (parent_path (currentPath fm))
                (clearDirectRender fm)).
  destruct (reloadAll_frame w fm2) as (Hcp & _ & _ & _ & _ & _ & Hcf).
  simpl in Hcp, Hcf. fold leaf.
  set (files := currentFiles (reloadAll w fm2)) in *.
  split; [exact Hcp|]. split; [exact Hcf|].
  pose proof (find_name_first leaf files 0) as Hfind.
  destruct (find_name files leaf 0) as [k|]; simpl.
  - destruct Hfind as (j & e & -> & Hj & He & Hfirst). simpl.
    split.
    + intros _. exists e. auto.
    + intros Hnone. exfalso. apply (Hnone e); [|exact He].
      apply list_elem_of_lookup. now exists j.
  - split; [|reflexivity].
    intros (e & Hin & He). exfalso.
    rewrite Forall_forall in Hfind. exact (Hfind e Hin He).
Qed.

End Operations.

(** **** On the small file system *)

Import Toy.

Example at_home_cursor :
  name <$> currentFiles at_home !! selectedIndex at_home = Some "notes.txt".
Proof. vm_compute. reflexivity. Qed.

Lemma yank_in_empty_catalog_witness :
  handleCopy nowhere_with_cut = Some nowhere_with_cut
  /\ handleCut nowhere_with_cut = Some nowhere_with_cut.
Proof. apply yank_in_empty_catalog. reflexivity. Defined.

(** Going up from [/home/u/zeta] puts the cursor on [zeta], the second
    entry of [/home/u]. *)
Lemma goUp_reselects_child_witness :
  currentPath (goUp home (reloadAll home (manager_at zeta))) = home_u
  /\ selectedIndex (goUp home (reloadAll home (manager_at zeta))) = 1.
Proof.
  destruct (goUp_reselects_child home (reloadAll home (manager_at zeta)))
    as (Hp & _).
  - vm_compute. reflexivity.
  - vm_compute. discriminate.
  - split; [exact Hp|]. vm_compute. reflexivity.
Defined.

Example copied_clipboard : clipboard copied = MkClipboard [notes] false.
Proof. vm_compute. reflexivity. Qed.

(** Pasting the copy into [alpha] and then into [zeta] makes two copy
    calls, puts the content of [notes.txt] in both places, and leaves the
    clipboard as it was. *)
Example paste_twice :
  calls (fst (paste_each home copied [alpha; zeta]))
  = [CallCopy notes (append alpha "notes.txt");
     CallCopy notes (append zeta "notes.txt")]
  /\ fs_read (fst (paste_each home copied [alpha; zeta]))
             (append alpha "notes.txt") = Some "hello"
  /\ fs_read (fst (paste_each home copied [alpha; zeta]))
             (append zeta "notes.txt") = Some "hello"
  /\ clipboard <$> snd (paste_each home copied [alpha; zeta])
     = Some (MkClipboard [notes] false).
Proof. vm_compute. auto. Qed.

(** Cutting [notes.txt] and pasting it into [alpha] renames it and
    empties the clipboard; a second paste finds the clipboard empty. *)
Example cut_then_paste :
  calls (fst (handlePaste home (set_currentPath alpha moving)))
  = [CallRename notes (append alpha "notes.txt")]
  /\ fs_exists (fst (handlePaste home (set_currentPath alpha moving))) notes
     = Some false
  /\ clipboard <$> snd (handlePaste home (set_currentPath alpha moving))
     = Some (MkClipboard [] true).
Proof. vm_compute. auto. Qed.

(** A cut of a path that is not there moves nothing, and the clipboard
    stays. *)
Example cut_of_nothing :
  clipboard <$> snd (handlePaste home (set_currentPath alpha
                       (set_clipboard (MkClipboard [abs ["gone"]] true)
                                      at_home)))
  = Some (MkClipboard [abs ["gone"]] true).
Proof. vm_compute. reflexivity. Qed.

(** A paste into a directory where the status of the destination cannot
    be read is left by the exception of [fs::exists]; nothing was
    copied. *)
Example paste_raises :
  handlePaste home_with_unreadable
    (set_clipboard (MkClipboard [abs ["link"]] false) at_home)
  = (home_with_unreadable, None).
Proof. vm_compute. reflexivity. Qed.


(** A second paste into [alpha] finds [notes.txt] there and skips it. *)
Lemma paste_skips_existing_destination_witness :
  paste_item false alpha home_pasted notes = Some (home_pasted, false).
Proof.
  apply (paste_skips_existing_destination alpha home_pasted notes []).
  - vm_compute. reflexivity.
  - vm_compute. discriminate.
Defined.

(** Pasting [notes.txt] into its own directory: the destination exists and
    is the source, the item is not skipped, and the copy call is made (it
    throws, and the success count stays at 0). *)
Lemma paste_onto_itself_not_skipped :
  fs_exists home (append home_u (filename notes)) = Some true
  /\ (calls <$> (fst <$> paste_item false home_u home notes))
     = Some [CallCopy notes notes]
  /\ paste_item false home_u home notes <> Some (home, false).
Proof.
  split; [vm_compute; reflexivity|].
  split; [vm_compute; reflexivity|].
  intros Heq. apply (f_equal (fun r => calls <$> (fst <$> r))) in Heq.
  vm_compute in Heq. discriminate.
Qed.

End ManagerFacts.

(** *** Properties of the preview cache *)

Module PreviewFacts.
Import Path Fs Catalog Manager Preview.

(** **** The comparison in drawPreview *)

Section Draw.
Context {W : Type} `{FileSystem W}.

Lemma header_not_cached (fm : FileManager) (file : FileEntry) :
  not_cached (header fm file).
Proof.
  unfold header, not_cached.
  destruct (lastWasDirectRender fm); repeat constructor.
Qed.

Lemma dir_lines_not_cached (w : W) (dir : fspath) (sh : bool) (g : geometry)
    (names : list string) :
  forall line, not_cached (dir_lines w dir sh g names line).
Proof.
  induction names as [|n rest IH]; intros line; simpl; [constructor|].
  destruct (negb sh && starts_with_dot n); [apply IH|].
  destruct (height g - 2 <=? line)%Z; [constructor|].
  destruct (fs_is_directory w (append dir n)); [|constructor].
  constructor; [reflexivity|apply IH].
Qed.

Lemma raw_lines_not_cached (g : geometry) (ls : list string) :
  forall line, not_cached (raw_lines g ls line).
Proof.
  induction ls as [|l rest IH]; intros line; simpl; [constructor|].
  destruct (height g - 2 <=? line)%Z; [constructor|].
  constructor; [reflexivity|apply IH].
Qed.

Ltac plain_paints :=
  unfold not_cached;
  repeat first
    [ apply Forall_nil_2
    | apply dir_lines_not_cached
    | apply raw_lines_not_cached
    | apply Forall_cons_2; [reflexivity|] ].

(** The frame and the details aside, a render is one of five things. *)
Lemma painted_cases (w : W) (g : geometry) (between : list worker)
    (fm : FileManager) :
  match currentFiles fm !! selectedIndex fm with
  | None => not_cached (painted w g between fm)
  | Some file =>
      if previewed file then
        if String.eqb (cachedPath fm) (path_string (path file)) then
          painted w g between fm
          = header fm file
            ++ fst (drawFromCache
                      (if count CODE_EXTS (extension file) then TEXT
                       else IMAGE) g
                      (fold_left (fun st wk => commit wk st) between
                         (if lastWasDirectRender fm then clearDirectRender fm
                          else fm)))
        else if String.eqb (requestedPath fm) (path_string (path file)) then
          painted w g between fm = header fm file
        else painted w g between fm = header fm file ++ [PaintLoading]
      else not_cached (painted w g between fm)
  end.
Proof.
  unfold painted, drawPreview, previewed, header.
  destruct (lastWasDirectRender fm) eqn:Elast; simpl.
  - destruct (currentFiles fm !! selectedIndex fm) as [file|] eqn:Ef; simpl;
      [|plain_paints].
    destruct (is_directory file); simpl; [plain_paints|].
    destruct (count VIDEO_EXTS (extension file)
              || count IMAGE_EXTS (extension file)
              || count CODE_EXTS (extension file)); simpl.
    + destruct (String.eqb (cachedPath fm) (path_string (path file))); simpl.
      * destruct (drawFromCache _ g _) as [out3 fm2]. reflexivity.
      * destruct (String.eqb (requestedPath fm) (path_string (path file)));
          simpl; reflexivity.
    + destruct (is_binary_file w (path file)); simpl; [plain_paints|].
      destruct (fs_read w (path file)); simpl; plain_paints.
  - destruct (currentFiles fm !! selectedIndex fm) as [file|] eqn:Ef; simpl;
      [|plain_paints].
    destruct (is_directory file); simpl; [plain_paints|].
    destruct (count VIDEO_EXTS (extension file)
              || count IMAGE_EXTS (extension file)
              || count CODE_EXTS (extension file)); simpl.
    + destruct (String.eqb (cachedPath fm) (path_string (path file))); simpl.
      * destruct (drawFromCache _ g _) as [out3 fm2]. reflexivity.
      * destruct (String.eqb (requestedPath fm) (path_string (path file)));
          simpl; reflexivity.
    + destruct (is_binary_file w (path file)); simpl; [plain_paints|].
      destruct (fs_read w (path file)); simpl; plain_paints.
Qed.

Lemma not_cached_elem (out : list paint) (p : paint) :
  not_cached out -> p ∈ out -> from_cache p = true -> False.
Proof.
  unfold not_cached. rewrite Forall_forall. intros Hall Hin Hc.
  specialize (Hall p Hin). congruence.
Qed.

Lemma cached_lines_texts (text : list string) (g : geometry) :
  forall limit i p,
    p ∈ cached_lines text limit i g ->
    exists row col t, p = PaintCachedLine row col t /\ t ∈ text.
Proof.
  induction text as [|l rest IH]; intros limit i p Hin.
  - destruct limit; simpl in Hin; inversion Hin.
  - destruct limit as [|limit]; simpl in Hin; [inversion Hin|].
    apply elem_of_cons in Hin as [->|Hin].
    + eexists _, _, l. split; [reflexivity|]. left.
    + destruct (IH _ _ _ Hin) as (row & col & t & -> & Ht).
      eexists _, _, t. split; [reflexivity|]. now right.
Qed.

(** What [drawFromCache] paints is read from the slot it is given. *)
Lemma drawFromCache_reads_slot (type : PreviewType) (g : geometry)
    (fm : FileManager) (p : paint) :
  p ∈ fst (drawFromCache type g fm) ->
  match p with
  | PaintImage b _ _ => b = cachedBase64 fm
  | PaintCachedLine _ _ t => t ∈ cachedTextLines fm
  | _ => False
  end.
Proof.
  unfold drawFromCache.
  destruct (bool_decide (type = IMAGE)
            && negb (String.eqb (cachedBase64 fm) "")); simpl.
  - intros Hin. apply list_elem_of_singleton in Hin as ->. reflexivity.
  - destruct (bool_decide (type = TEXT)
              && negb (bool_decide (cachedTextLines fm = []))); simpl.
    + intros Hin.
      destruct (cached_lines_texts _ _ _ _ _ Hin) as (row & col & t & -> & Ht).
      exact Ht.
    + intros Hin. inversion Hin.
Qed.

(** What the comparison in [drawPreview] does ensure.  In every render,
    whatever the workers do meanwhile, something
    read from the cache is painted only if the comparison of the slot's
    path with the path of the entry under the cursor, made at the start
    of the render, found them equal.  When they differ nothing from the
    cache is painted, and for an entry that goes through the cache the pane
    shows, after the frame and the details, ["Loading..."] or nothing.
    When no worker commits during the render, what is painted from the
    cache is the payload of the slot that was compared. *)
Theorem drawPreview_cache_gate (w : W) (g : geometry)
    (between : list worker) (fm : FileManager) :
  (forall p, p ∈ painted w g between fm -> from_cache p = true ->
     exists file,
       currentFiles fm !! selectedIndex fm = Some file
       /\ cachedPath fm = path_string (path file))
  /\ (forall file,
        currentFiles fm !! selectedIndex fm = Some file ->
        cachedPath fm <> path_string (path file) ->
        not_cached (painted w g between fm)
        /\ (previewed file = true ->
            painted w g between fm = header fm file ++ [PaintLoading]
            \/ painted w g between fm = header fm file))
  /\ (forall p, p ∈ painted w g [] fm -> from_cache p = true ->
        match p with
        | PaintImage b _ _ => b = cachedBase64 fm
        | PaintCachedLine _ _ t => t ∈ cachedTextLines fm
        | _ => True
        end).
Proof.
  split; [|split].
  - intros p Hin Hc.
    pose proof (painted_cases w g between fm) as Hcases.
    destruct (currentFiles fm !! selectedIndex fm) as [file|];
      [|exfalso; eapply not_cached_elem; eassumption].
    destruct (previewed file);
      [|exfalso; eapply not_cached_elem; eassumption].
    destruct (String.eqb_spec (cachedPath fm) (path_string (path file)))
      as [Heq|Hne].
    { exists file. auto. }
    exfalso.
    destruct (String.eqb (requestedPath fm) (path_string (path file)));
      rewrite Hcases in Hin.
    + eapply not_cached_elem; [apply header_not_cached| |]; eassumption.
    + apply elem_of_app in Hin as [Hin|Hin].
      * eapply not_cached_elem; [apply header_not_cached| |]; eassumption.
      * apply list_elem_of_singleton in Hin as ->. discriminate.
  - intros file Hfile Hne.
    pose proof (painted_cases w g between fm) as Hcases.
    rewrite Hfile in Hcases.
    destruct (previewed file).
    + destruct (String.eqb_spec (cachedPath fm) (path_string (path file)))
        as [Heq|_]; [contradiction|].
      destruct (String.eqb (requestedPath fm) (path_string (path file)));
        rewrite Hcases.
      * split; [apply header_not_cached|auto].
      * split; [|auto]. apply Forall_app.
        split; [apply header_not_cached|repeat constructor].
    + split; [exact Hcases|discriminate].
  - intros p Hin Hc.
    pose proof (painted_cases w g [] fm) as Hcases.
    destruct (currentFiles fm !! selectedIndex fm) as [file|];
      [|exfalso; eapply not_cached_elem; eassumption].
    destruct (previewed file);
      [|exfalso; eapply not_cached_elem; eassumption].
    destruct (String.eqb (cachedPath fm) (path_string (path file))).
    + rewrite Hcases in Hin. simpl in Hin.
      apply elem_of_app in Hin as [Hin|Hin].
      { exfalso. eapply not_cached_elem;
          [apply header_not_cached| |]; eassumption. }
      apply drawFromCache_reads_slot in Hin.
      destruct (lastWasDirectRender fm); destruct p; simpl in *;
        try contradiction; try exact I; exact Hin.
    + exfalso.
      destruct (String.eqb (requestedPath fm) (path_string (path file)));
        rewrite Hcases in Hin.
      * eapply not_cached_elem; [apply header_not_cached| |]; eassumption.
      * apply elem_of_app in Hin as [Hin|Hin].
        -- eapply not_cached_elem; [apply header_not_cached| |]; eassumption.
        -- apply list_elem_of_singleton in Hin as ->. discriminate.
Qed.

End Draw.

(** After the clamp that [run] does before it draws, the cursor is on an
    entry whenever there is one. *)
Lemma clamp_selection_in_range (fm : FileManager) :
  currentFiles (clamp_selection fm) = currentFiles fm
  /\ (currentFiles fm <> [] ->
      (selectedIndex (clamp_selection fm) < length (currentFiles fm))%nat)
  /\ (currentFiles fm = [] -> selectedIndex (clamp_selection fm) = 0%nat).
Proof.
  unfold clamp_selection.
  destruct (currentFiles fm) as [|f rest] eqn:Ef.
  - split; [exact Ef|]. split; [contradiction|reflexivity].
  - destruct (Nat.leb_spec (length (f :: rest)) (selectedIndex fm)) as [Hge|Hlt].
    + split; [exact Ef|]. split; [intros _; simpl; lia|discriminate].
    + split; [exact Ef|]. split; [intros _; exact Hlt|discriminate].
Qed.

(** **** Dispatches and commits in any order *)

Local Open Scope Z_scope.

Lemma commit_requestID (wk : worker) (fm : FileManager) :
  requestID (commit wk fm) = requestID fm.
Proof.
  unfold commit. destruct (reqId (job wk) =? requestID fm); [|reflexivity].
  destruct (decide (t_type (job wk) = IMAGE)); reflexivity.
Qed.

Lemma signal_frame (wk : worker) (fm : FileManager) :
  requestID (signal wk fm) = requestID fm
  /\ cachedPath (signal wk fm) = cachedPath fm.
Proof.
  unfold signal. destruct (reqId (job wk) =? requestID fm); auto.
Qed.

(** Only the worker whose id is the counter's value writes. *)
Lemma commit_stale (wk : worker) (fm : FileManager) :
  reqId (job wk) <> requestID fm -> commit wk fm = fm.
Proof.
  intros Hne. unfold commit.
  destruct (Z.eqb_spec (reqId (job wk)) (requestID fm)); [contradiction|].
  reflexivity.
Qed.

Lemma commit_current (wk : worker) (fm : FileManager) :
  reqId (job wk) = requestID fm ->
  cachedPath (commit wk fm) = t_path (job wk)
  /\ (t_type (job wk) = IMAGE -> cachedBase64 (commit wk fm) = b64 wk)
  /\ (t_type (job wk) <> IMAGE -> cachedTextLines (commit wk fm) = lines wk).
Proof.
  intros Heq. unfold commit. rewrite (proj2 (Z.eqb_eq _ _) Heq).
  destruct (decide (t_type (job wk) = IMAGE)) as [Hi|Hn]; simpl.
  - split; [reflexivity|]. split; [reflexivity|]. intros Hx. contradiction.
  - split; [reflexivity|]. split; [|reflexivity]. intros Hx. contradiction.
Qed.

Lemma ids_step (id0 : Z) (pl : pipeline) (e : event) :
  ids id0 pl -> ids id0 (step pl e).
Proof.
  intros [Hcount Hids]. destruct e as [p ty h wd|k payload text|k]; simpl.
  - split; simpl.
    + rewrite length_app. simpl. lia.
    + intros k t Hk.
      apply lookup_app_Some in Hk as [Hk|[Hlen Hk]]; [now apply Hids|].
      apply list_lookup_singleton_Some in Hk as [Hk0 <-]. simpl. lia.
  - destruct (tickets pl !! k) as [t|] eqn:Ek; [|split; assumption].
    split; simpl; [|exact Hids]. now rewrite commit_requestID.
  - destruct (tickets pl !! k) as [t|] eqn:Ek; [|split; assumption].
    split; simpl; [|exact Hids].
    now rewrite (proj1 (signal_frame _ _)).
Qed.

(** The commit of the last worker dispatched writes its path. *)
Lemma commit_last_fresh (id0 : Z) (pl : pipeline) (k : nat)
    (payload : string) (text : list string) :
  ids id0 pl -> (k < length (tickets pl))%nat ->
  S k = length (tickets pl) ->
  fresh (step pl (Commit k payload text)).
Proof.
  intros [Hcount Hids] Hlt Hlast. simpl.
  destruct (tickets pl !! k) as [t|] eqn:Ek.
  2:{ apply lookup_ge_None in Ek. lia. }
  exists t. simpl. split.
  - rewrite last_lookup. rewrite <- Hlast. simpl. exact Ek.
  - apply commit_current. simpl. rewrite (Hids k t Ek), Hcount. lia.
Qed.

(** Once the slot holds the last request's path, no commit or signal
    takes it away. *)
Lemma fresh_step (id0 : Z) (pl : pipeline) (e : event) :
  ids id0 pl -> fresh pl -> is_dispatch e = false -> fresh (step pl e).
Proof.
  intros [Hcount Hids] (tl & Hlast & Hpath) He.
  destruct e as [p ty h wd|k payload text|k]; [discriminate| |]; simpl.
  - destruct (tickets pl !! k) as [t|] eqn:Ek; [|exists tl; auto].
    exists tl. simpl. split; [exact Hlast|].
    destruct (Z.eq_dec (reqId t) (requestID (manager pl))) as [Heq|Hne].
    + assert (Hk : S k = length (tickets pl))
        by (rewrite (Hids k t Ek), Hcount in Heq; lia).
      rewrite last_lookup, <- Hk in Hlast. simpl in Hlast.
      assert (t = tl) by congruence. subst tl.
      apply commit_current. exact Heq.
    + rewrite commit_stale by exact Hne. exact Hpath.
  - destruct (tickets pl !! k) as [t|] eqn:Ek; [|exists tl; auto].
    exists tl. simpl. split; [exact Hlast|].
    now rewrite (proj2 (signal_frame _ _)).
Qed.

Lemma fresh_steps (id0 : Z) (es : list event) :
  forall pl,
    ids id0 pl -> fresh pl -> dispatched_paths es = [] ->
    fresh (fold_left step es pl).
Proof.
  induction es as [|e rest IH]; intros pl Hids Hfresh Hnone; [exact Hfresh|].
  simpl. apply IH.
  - now apply ids_step.
  - eapply fresh_step; try eassumption.
    destruct e; [discriminate|reflexivity|reflexivity].
  - destruct e; [discriminate|exact Hnone|exact Hnone].
Qed.

Lemma step_tickets (pl : pipeline) (e : event) :
  t_path <$> tickets (step pl e)
  = (t_path <$> tickets pl) ++ dispatched_paths [e].
Proof.
  destruct e as [p ty h wd|k payload text|k]; simpl.
  - now rewrite fmap_app.
  - destruct (tickets pl !! k); simpl; now rewrite app_nil_r.
  - destruct (tickets pl !! k); simpl; now rewrite app_nil_r.
Qed.

Lemma steps_tickets (es : list event) :
  forall pl,
    t_path <$> tickets (fold_left step es pl)
    = (t_path <$> tickets pl) ++ dispatched_paths es.
Proof.
  induction es as [|e rest IH]; intros pl; simpl; [now rewrite app_nil_r|].
  rewrite IH, step_tickets, <- app_assoc. f_equal.
  destruct e; reflexivity.
Qed.

(** In a well-formed schedule, once the worker dispatched last has
    committed, the slot holds the path of the last request. *)
Lemma last_commit_fresh (id0 : Z) (es : list event) :
  forall pl,
    ids id0 pl ->
    well_formed (length (tickets pl)) es ->
    (length (tickets pl) + length (dispatched_paths es) - 1)%nat
      ∈ committed es ->
    (0 < length (tickets pl) + length (dispatched_paths es))%nat ->
    fresh (fold_left step es pl).
Proof.
  induction es as [|e rest IH]; intros pl Hids Hwf Hin Hpos.
  - inversion Hin.
  - pose proof (ids_step id0 pl e Hids) as Hids'.
    destruct e as [p ty h wd|k payload text|k].
    + cbn [fold_left]. apply IH; try exact Hids'.
      * simpl. rewrite length_app. simpl.
        replace (length (tickets pl) + 1)%nat with (S (length (tickets pl)))
          by lia.
        exact Hwf.
      * simpl. rewrite length_app. simpl. simpl in Hin.
        replace (length (tickets pl) + 1 + length (dispatched_paths rest) - 1)%nat
          with (length (tickets pl) + S (length (dispatched_paths rest)) - 1)%nat
          by lia.
        exact Hin.
      * simpl. rewrite length_app. simpl. lia.
    + destruct Hwf as [Hk Hwf]. cbn [fold_left].
      assert (Htk : tickets (step pl (Commit k payload text)) = tickets pl)
        by (simpl; destruct (tickets pl !! k); reflexivity).
      simpl in Hin. apply elem_of_cons in Hin as [Heq|Hin].
      * assert (Hnone : dispatched_paths rest = []).
        { simpl in Heq. destruct (dispatched_paths rest); [reflexivity|].
          simpl in Heq. lia. }
        apply (fresh_steps id0); [exact Hids'| |exact Hnone].
        apply (commit_last_fresh id0); [exact Hids|exact Hk|].
        simpl in Heq. rewrite Hnone in Heq. simpl in Heq. lia.
      * apply IH; try exact Hids'; rewrite Htk; assumption.
    + destruct Hwf as [Hk Hwf]. cbn [fold_left].
      assert (Htk : tickets (step pl (Signal k)) = tickets pl)
        by (simpl; destruct (tickets pl !! k); reflexivity).
      simpl in Hin.
      apply IH; try exact Hids'; rewrite Htk; assumption.
Qed.

Lemma ordered_writes_step (pl : pipeline) (e : event) :
  ordered_writes pl -> ordered_writes (step pl e).
Proof.
  intros [Hle Hsorted]. destruct e as [p ty h wd|k payload text|k]; simpl.
  - split; simpl; [|exact Hsorted].
    eapply Forall_impl; [exact Hle|]. simpl. intros g Hg. lia.
  - destruct (tickets pl !! k) as [t|]; [|split; assumption].
    split; simpl.
    + rewrite commit_requestID.
      destruct (Z.eqb_spec (reqId t) (requestID (manager pl))) as [Heq|_];
        [|exact Hle].
      constructor; [lia|exact Hle].
    + destruct (Z.eqb_spec (reqId t) (requestID (manager pl))) as [Heq|_];
        [|exact Hsorted].
      constructor; [exact Hsorted|].
      eapply Forall_impl; [exact Hle|]. simpl. intros g Hg. lia.
  - destruct (tickets pl !! k) as [t|]; [|split; assumption].
    split; simpl; [|exact Hsorted].
    now rewrite (proj1 (signal_frame _ _)).
Qed.

Lemma ordered_writes_steps (es : list event) :
  forall pl, ordered_writes pl -> ordered_writes (fold_left step es pl).
Proof.
  induction es as [|e rest IH]; intros pl Hpl; [exact Hpl|].
  simpl. apply IH. now apply ordered_writes_step.
Qed.

Lemma ordered_writes_run (fm : FileManager) (es : list event) :
  ordered_writes (run_schedule fm es).
Proof.
  apply ordered_writes_steps. split; constructor.
Qed.

(** C1.  Take any schedule of dispatches, commits and signals in which a
    worker commits only after it was dispatched, and in which the worker
    dispatched last has committed.  At its end the slot's path is the path
    of the last request dispatched.  The ids of the commits that wrote
    the slot never decrease along the schedule; a commit that comes after
    a write of a higher id changes nothing; a commit writes exactly when
    its id is the counter's value, and then writes its own path. *)
Theorem last_request_wins (fm : FileManager) (es : list event) (p : string) :
  well_formed 0 es ->
  last (dispatched_paths es) = Some p ->
  (length (dispatched_paths es) - 1)%nat ∈ committed es ->
  cachedPath (manager (run_schedule fm es)) = p
  /\ StronglySorted Z.ge (written (run_schedule fm es))
  /\ (forall es1 es2 k payload text t g,
        es = es1 ++ Commit k payload text :: es2 ->
        tickets (run_schedule fm es1) !! k = Some t ->
        g ∈ written (run_schedule fm es1) -> reqId t < g ->
        manager (run_schedule fm (es1 ++ [Commit k payload text]))
        = manager (run_schedule fm es1))
  /\ (forall wk st, reqId (job wk) <> requestID st -> commit wk st = st)
  /\ (forall wk st, reqId (job wk) = requestID st ->
        cachedPath (commit wk st) = t_path (job wk)
        /\ (t_type (job wk) = IMAGE -> cachedBase64 (commit wk st) = b64 wk)
        /\ (t_type (job wk) <> IMAGE ->
            cachedTextLines (commit wk st) = lines wk)).
Proof.
  intros Hwf Hlast Hin.
  assert (Hpos : (0 < length (dispatched_paths es))%nat).
  { destruct (dispatched_paths es); [discriminate|simpl; lia]. }
  split; [|split; [|split; [|split]]].
  - assert (Hids : ids (requestID fm) (MkPipeline fm [] [])).
    { split; simpl; [lia|]. intros k t Hk. inversion Hk. }
    destruct (last_commit_fresh (requestID fm) es (MkPipeline fm [] []) Hids)
      as (t & Ht & Hpath); simpl; try assumption.
    fold (run_schedule fm es) in Ht, Hpath.
    pose proof (steps_tickets es (MkPipeline fm [] [])) as Htk.
    simpl in Htk. fold (run_schedule fm es) in Htk.
    rewrite <- Htk, fmap_last, Ht in Hlast. simpl in Hlast.
    rewrite Hpath. congruence.
  - apply ordered_writes_run.
  - intros es1 es2 k payload text t g _ Ht Hg Hlt.
    unfold run_schedule. rewrite fold_left_app. simpl.
    fold (run_schedule fm es1). rewrite Ht. simpl.
    apply commit_stale. simpl.
    destruct (ordered_writes_run fm es1) as [Hle _].
    rewrite Forall_forall in Hle. specialize (Hle g Hg). lia.
  - apply commit_stale.
  - apply commit_current.
Qed.

(** **** On an example *)

Import Toy.

Example three_requests_slot :
  let fm := manager (run_schedule idle three_requests) in
  (cachedPath fm, cachedBase64 fm, imageReady fm, requestID fm)
  = ("/p/c.png", "CCCC", true, 3).
Proof. vm_compute. reflexivity. Qed.

Example three_requests_written :
  written (run_schedule idle three_requests) = [3; 1].
Proof. vm_compute. reflexivity. Qed.

Example a_b_a_requests_slot :
  let fm := manager (run_schedule idle a_b_a_requests) in
  (cachedPath fm, cachedBase64 fm) = ("/p/a.png", "A-second").
Proof. vm_compute. reflexivity. Qed.

(** The idle tick after the last worker's signal asks for a redraw, once. *)
Example three_requests_poll :
  let '(fm, redraw) := poll (manager (run_schedule idle three_requests)) in
  (redraw, imageReady fm, snd (poll fm)) = (true, false, false).
Proof. vm_compute. reflexivity. Qed.

Lemma last_request_wins_witness :
  cachedPath (manager (run_schedule idle three_requests)) = "/p/c.png".
Proof.
  apply (last_request_wins idle three_requests "/p/c.png").
  - vm_compute. repeat split; lia.
  - vm_compute. reflexivity.
  - vm_compute. apply list_elem_of_In. simpl. auto.
Defined.

Example draw_matching_slot :
  painted pictures window [] on_b_cached
  = [PaintFrame; PaintDetails "b.png" 1; PaintImage "BBBB" 0 80].
Proof. vm_compute. reflexivity. Qed.

Example draw_other_entry :
  painted pictures window [] (set_selectedIndex 0 on_b_cached)
  = [PaintFrame; PaintDetails "a.png" 1; PaintLoading].
Proof. vm_compute. reflexivity. Qed.

(** The comparison and the paint are two critical sections.  Here the
    cursor is on [b.png], the slot holds [b.png] and so passes the
    comparison, and the worker of the latest request, for [a.png], commits
    before [drawFromCache] takes the lock: the image painted is the one it
    just wrote. *)
Example draw_commit_between_sections :
  painted pictures window [worker_a] on_b_after_request_a
  = [PaintFrame; PaintDetails "b.png" 1; PaintImage "AAAA" 0 80].
Proof. vm_compute. reflexivity. Qed.

(** **** A commit between the comparison and the paint *)

Import Browse Scenes.

(** C2.  The comparison of the slot's path with the path under the cursor
    and the paint of [drawFromCache] are two critical sections of
    [drawPreview], and the slot can be written between them.  For every
    render in which the comparison succeeds on an image entry and the
    worker of the current request commits an image in between, what is
    painted is that worker's payload, and when it is painted the slot's
    path is the worker's path, not the compared one.  The browser reaches
    such a render by itself: in a directory of [a.png] and [b.png], with
    the cursor on [b.png], the first render requests [b.png]; its worker
    commits and signals, and the next render paints its payload; [k]
    moves to [a.png], whose render requests it; [j] moves back to
    [b.png] while that worker is still running; the comparison of the
    next render finds the path of [b.png] in the slot, the worker of
    [a.png] commits, and the payload of [a.png] is painted under the
    details of [b.png], the slot's path being that of [a.png].  After the
    worker's signal the next idle tick renders again and shows
    ["Loading..."]. *)
Theorem drawPreview_paints_between_commit {W : Type} `{FileSystem W}
    (w : W) (g : geometry) (fm : FileManager) (file : FileEntry)
    (wk : worker) :
  (currentFiles fm !! selectedIndex fm = Some file ->
   previewed file = true ->
   count CODE_EXTS (extension file) = false ->
   cachedPath fm = path_string (path file) ->
   reqId (job wk) = requestID fm ->
   t_type (job wk) = IMAGE ->
   b64 wk <> "" ->
   painted w g [wk] fm
   = header fm file ++ [PaintImage (b64 wk) (pY g) (pX g)]
   /\ cachedPath (snd (fst (drawPreview w g [wk] fm))) = t_path (job wk)
   /\ cachedBase64 (snd (fst (drawPreview w g [wk] fm))) = b64 wk)
  /\ (let r1 := drawPreview pictures terminal [] on_b in
      let s1 := fst (poll (signal finished_b
                             (commit finished_b (snd (fst r1))))) in
      let r2 := drawPreview pictures terminal [] s1 in
      let r3 :=
        drawPreview pictures terminal []
          (navigate (height terminal) Up (snd (fst r2))) in
      let s3 := navigate (height terminal) Down (snd (fst r3)) in
      let r4 := drawPreview pictures terminal [finished_a] s3 in
      let s4 := fst (poll (signal finished_a (snd (fst r4)))) in
      fst (fst r1) = [PaintFrame; PaintDetails "b.png" 1; PaintLoading]
      /\ snd r1 = Some ticket_b
      /\ fst (fst r2)
         = [PaintFrame; PaintDetails "b.png" 1; PaintImage "BBBB" 0 60]
      /\ fst (fst r3)
         = [PaintClearDirect; PaintFrame; PaintDetails "a.png" 1;
            PaintLoading]
      /\ snd r3 = Some ticket_a
      /\ currentFiles s3 !! selectedIndex s3 = Some b_png
      /\ cachedPath s3 = "/p/b.png"
      /\ requestID s3 = reqId ticket_a
      /\ fst (fst r4)
         = [PaintFrame; PaintDetails "b.png" 1; PaintImage "AAAA" 0 60]
      /\ cachedPath (snd (fst r4)) = "/p/a.png"
      /\ path_string (path b_png) = "/p/b.png"
      /\ painted pictures terminal [] s4
         = [PaintClearDirect; PaintFrame; PaintDetails "b.png" 1;
            PaintLoading]).
Proof.
  split.
  - intros Hfile Hprev Hcode Hpath Hid Hty Hb.
    unfold previewed in Hprev.
    apply andb_true_iff in Hprev as [Hdir Hany].
    apply negb_true_iff in Hdir.
    assert (Hcommit : forall st,
              requestID st = requestID fm ->
              commit wk st
              = set_cachedPath (t_path (job wk))
                  (set_cachedBase64 (b64 wk) st)).
    { intros st Hst. unfold commit. rewrite Hid, Hst, Z.eqb_refl.
      destruct (decide (t_type (job wk) = IMAGE)); [reflexivity|].
      contradiction. }
    assert (Hne : String.eqb (b64 wk) "" = false)
      by (apply String.eqb_neq; exact Hb).
    unfold painted, header, drawPreview.
    destruct (lastWasDirectRender fm) eqn:Elast;
      cbn [clearDirectRender set_lastWasDirectRender currentFiles
           selectedIndex cachedPath showHidden requestedPath];
      rewrite Hfile, Hdir, Hany, Hcode, Hpath, String.eqb_refl;
      cbn [fold_left]; rewrite Hcommit by reflexivity;
      unfold drawFromCache;
      cbn [cachedBase64 set_cachedPath set_cachedBase64];
      rewrite Hne, bool_decide_eq_true_2 by reflexivity;
      cbn [andb negb fst snd cachedPath cachedBase64 set_cachedPath
           set_cachedBase64 set_lastWasDirectRender];
      rewrite <- ?app_assoc; auto.
  - vm_compute. repeat split; reflexivity.
Qed.

End PreviewFacts.

Module Base64ShapeFacts.
Import Base64 Base64Facts Base64Shape KittyFacts.
Local Open Scope Z_scope.

Lemma base64_char_in_alphabet (v : Z) :
  0 <= v < 64 -> in_alphabet (base64_char v) = true.
Proof. revert v. apply all_sextets. vm_compute. reflexivity. Qed.

Lemma count_pads_append (s t : string) :
  count_pads (s +:+ t) = (count_pads s + count_pads t)%nat.
Proof.
  induction s as [|c s IH]; [reflexivity|].
  rewrite append_cons. simpl. rewrite IH. lia.
Qed.

Lemma well_formed_text_append (s t : string) :
  well_formed_text (s +:+ t) = well_formed_text s && well_formed_text t.
Proof.
  induction s as [|c s IH]; [reflexivity|].
  rewrite append_cons. simpl. rewrite IH. now rewrite andb_assoc.
Qed.

(** A full group: four characters of the alphabet, no padding. *)
Lemma emit4_shape (b0 b1 b2 : Byte.byte) :
  String.length (emit4 (uchar b0) (uchar b1) (uchar b2)) = 4%nat
  /\ count_pads (emit4 (uchar b0) (uchar b1) (uchar b2)) = 0%nat
  /\ well_formed_text (emit4 (uchar b0) (uchar b1) (uchar b2)) = true.
Proof.
  pose proof (uchar_range b0) as R0. pose proof (uchar_range b1) as R1.
  pose proof (uchar_range b2) as R2.
  unfold emit4, char_array_4. simpl.
  rewrite !base64_char_not_pad, !base64_char_in_alphabet;
    auto using sextets_range_0, sextets_range_1, sextets_range_2,
      sextets_range_3.
Qed.

(** X1.  The text [base64_encode] returns for [n] bytes has [4 * ceil(n/3)]
    characters, all of them of the 64-character alphabet or the padding
    character, and as many padding characters as bytes are missing from the
    last group of three: none, one or two. *)
Theorem base64_encode_shape (bytes : list Byte.byte) :
  String.length (base64_encode bytes) = (4 * ((length bytes + 2) / 3))%nat
  /\ well_formed_text (base64_encode bytes) = true
  /\ count_pads (base64_encode bytes) = ((3 - length bytes mod 3) mod 3)%nat.
Proof.
  induction bytes as [|b0|b0 b1|b0 b1 b2 rest IH] using list_by_threes.
  - repeat split.
  - pose proof (uchar_range b0) as R0.
    assert (Rz : 0 <= 0 < 256) by lia.
    unfold base64_encode. cbn [encode_loop emit_tail char_array_4].
    simpl.
    rewrite !base64_char_not_pad, !base64_char_in_alphabet;
      auto using sextets_range_0, sextets_range_1.
  - pose proof (uchar_range b0) as R0. pose proof (uchar_range b1) as R1.
    assert (Rz : 0 <= 0 < 256) by lia.
    unfold base64_encode. cbn [encode_loop emit_tail char_array_4].
    simpl.
    rewrite !base64_char_not_pad, !base64_char_in_alphabet;
      auto using sextets_range_0, sextets_range_1, sextets_range_2.
  - destruct IH as (Hlen & Hwf & Hpad).
    destruct (emit4_shape b0 b1 b2) as (H4 & H0 & Hw).
    rewrite encode_three.
    rewrite length_append, well_formed_text_append, count_pads_append.
    rewrite H4, H0, Hw, Hlen, Hwf, Hpad.
    cbn [length].
    replace (S (S (S (length rest))) + 2)%nat
      with (length rest + 2 + 1 * 3)%nat by lia.
    rewrite Nat.div_add by lia.
    replace (S (S (S (length rest)))) with (length rest + 1 * 3)%nat by lia.
    rewrite Nat.Div0.mod_add.
    repeat split; lia.
Qed.

(** X2.  [base64_encode] loses nothing: two byte sequences with the same
    text are the same sequence. *)
Theorem base64_encode_injective (a b : list Byte.byte) :
  base64_encode a = base64_encode b -> a = b.
Proof.
  intros Heq.
  pose proof (base64_round_trip a) as Ha.
  rewrite Heq, base64_round_trip in Ha. now injection Ha.
Qed.

Lemma base64_encode_injective_witness :
  list_byte_of_string "Ma" = list_byte_of_string "Ma".
Proof.
  apply base64_encode_injective. reflexivity.
Defined.

End Base64ShapeFacts.

Module CatalogShapeFacts.
Import Path Fs Catalog CatalogFacts CatalogShape.

Lemma tolower_not_upper (c : ascii) : is_upper (tolower c) = false.
Proof.
  unfold tolower, is_upper.
  destruct ((65 <=? nat_of_ascii c) && (nat_of_ascii c <=? 90)) eqn:E.
  - apply andb_true_iff in E as [E1 E2].
    apply Nat.leb_le in E1, E2.
    rewrite nat_ascii_embedding by lia.
    apply andb_false_iff. right. apply Nat.leb_gt. lia.
  - exact E.
Qed.

Lemma lowercase_no_upper (s : string) : has_upper (lowercase s) = false.
Proof.
  induction s as [|c s IH]; [reflexivity|].
  simpl. now rewrite tolower_not_upper, IH.
Qed.

Section Load.
Context {W : Type} `{FileSystem W} `{StdSort}.

(** What one pass appends, name by name: the entries made for the
    visible names of the wanted kind, in the order of the listing, up to
    the call that threw if one did. *)
Lemma scan_made (w : W) (dir : fspath) (sh want : bool)
    (names : list string) :
  forall target target' ok,
    scan w dir sh want names target = (target', ok) ->
    exists added,
      target' = target ++ added
      /\ Forall (fun e => exists n, n ∈ names /\ visible sh n = true
                                    /\ newFileEntry w (append dir n) = Some e)
           added
      /\ (name <$> added)
           `prefix_of`
           filter (fun n => visible sh n = true
                            /\ fs_is_directory w (append dir n) = Some want)
                  names
      /\ (ok = true ->
          name <$> added
          = filter (fun n => visible sh n = true
                             /\ fs_is_directory w (append dir n) = Some want)
                   names
          /\ Forall (fun n => visible sh n = true ->
                              is_Some (fs_is_directory w (append dir n)))
               names).
Proof.
  induction names as [|n rest IH]; intros target target' ok Hscan.
  - simpl in Hscan. injection Hscan as <- <-. exists [].
    rewrite app_nil_r. split; [reflexivity|]. split; [constructor|].
    split; [apply prefix_nil|]. intros _. split; [reflexivity|constructor].
  - simpl in Hscan.
    destruct (negb sh && starts_with_dot n) eqn:Ehid.
    { destruct (IH _ _ _ Hscan) as (added & -> & Hm & Hpre & Hok).
      exists added. split; [reflexivity|]. split; [|split].
      - eapply Forall_impl; [exact Hm|]. simpl.
        intros e (m & Hin & Hrest). exists m. split; [now right|exact Hrest].
      - rewrite filter_cons_False; [exact Hpre|].
        unfold visible. rewrite Ehid. simpl. intros [? _]. discriminate.
      - intros Hk. destruct (Hok Hk) as [Heq Hall]. split.
        + rewrite filter_cons_False; [exact Heq|].
          unfold visible. rewrite Ehid. simpl. intros [? _]. discriminate.
        + constructor; [|exact Hall].
          unfold visible. rewrite Ehid. discriminate. }
    assert (Hvis : visible sh n = true) by (unfold visible; now rewrite Ehid).
    destruct (fs_is_directory w (append dir n)) as [d|] eqn:Ed.
    2:{ injection Hscan as <- <-. exists []. rewrite app_nil_r.
        split; [reflexivity|]. split; [constructor|].
        split; [apply prefix_nil|discriminate]. }
    destruct (Bool.eqb d want) eqn:Ew.
    2:{ destruct (IH _ _ _ Hscan) as (added & -> & Hm & Hpre & Hok).
        assert (Hnot : ~ (visible sh n = true
                          /\ fs_is_directory w (append dir n) = Some want)).
        { intros [_ Hx]. rewrite Ed in Hx. injection Hx as ->.
          rewrite Bool.eqb_reflx in Ew. discriminate. }
        exists added. split; [reflexivity|]. split; [|split].
        - eapply Forall_impl; [exact Hm|]. simpl.
          intros e (m & Hin & Hrest). exists m. split; [now right|exact Hrest].
        - rewrite filter_cons_False by exact Hnot. exact Hpre.
        - intros Hk. destruct (Hok Hk) as [Heq Hall]. split.
          + rewrite filter_cons_False by exact Hnot. exact Heq.
          + constructor; [|exact Hall]. intros _. rewrite Ed. eauto. }
    apply Bool.eqb_prop in Ew. subst d.
    assert (Hyes : visible sh n = true
                   /\ fs_is_directory w (append dir n) = Some want) by auto.
    destruct (newFileEntry w (append dir n)) as [e|] eqn:Ee.
    2:{ injection Hscan as <- <-. exists []. rewrite app_nil_r.
        split; [reflexivity|]. split; [constructor|].
        split; [apply prefix_nil|discriminate]. }
    destruct (IH _ _ _ Hscan) as (added & -> & Hm & Hpre & Hok).
    destruct (newFileEntry_fields w _ e want Ed Ee) as (_ & Hname & _).
    rewrite filename_append in Hname.
    exists (e :: added). rewrite <- app_assoc.
    change ([e] ++ added) with (e :: added). rewrite fmap_cons.
    split; [reflexivity|]. split; [|split].
    + constructor.
      * exists n. split; [left|]. auto.
      * eapply Forall_impl; [exact Hm|]. simpl.
        intros e' (m & Hin & Hrest). exists m. split; [now right|exact Hrest].
    + rewrite filter_cons_True by exact Hyes. rewrite Hname.
      now apply prefix_cons.
    + intros Hk. destruct (Hok Hk) as [Heq Hall]. split.
      * rewrite filter_cons_True by exact Hyes. now rewrite Hname, Heq.
      * constructor; [|exact Hall]. intros _. rewrite Ed. eauto.
Qed.

(** Whatever the outcome of a load, each entry it leaves was made by the
    constructor for a visible name of the listing. *)
Lemma loadDirectory_made (w : W) (sh : bool) (dir : fspath)
    (target : list FileEntry) (ok : bool) :
  loadDirectory w sh dir = (target, ok) ->
  Forall (made_from w dir sh) target.
Proof.
  unfold loadDirectory, iterate, made_from.
  destruct (fs_list w dir) as [names ended]. simpl.
  destruct (scan w dir sh true names []) as [dirs ok1] eqn:E1.
  destruct (scan_made w dir sh true names _ _ _ E1)
    as (a1 & Ha1 & Hm1 & _). simpl in Ha1. subst a1.
  destruct (ok1 && ended); simpl.
  2:{ intros [= <- _]. exact Hm1. }
  destruct (scan w dir sh false names (std_sort dirs)) as [all ok2] eqn:E2.
  destruct (scan_made w dir sh false names _ _ _ E2)
    as (a2 & -> & Hm2 & _).
  assert (Hall : Forall (fun e => exists n, n ∈ names /\ visible sh n = true
                           /\ newFileEntry w (append dir n) = Some e)
                   (std_sort dirs ++ a2)).
  { apply Forall_app. split; [now rewrite std_sort_perm|exact Hm2]. }
  destruct (ok2 && ended); simpl.
  2:{ intros [= <- _]. exact Hall. }
  intros [= <- _].
  rewrite take_app_length, drop_app_length.
  apply Forall_app. split; [now rewrite std_sort_perm|].
  now rewrite std_sort_perm.
Qed.

(** X3.  With hidden files masked, no entry of a loaded catalog has a
    name that starts with a period, whether the load ran to its end or
    stopped at an error. *)
Theorem loadDirectory_masks_hidden (w : W) (dir : fspath)
    (target : list FileEntry) (ok : bool) :
  loadDirectory w false dir = (target, ok) ->
  Forall (fun e => starts_with_dot (name e) = false) target.
Proof.
  intros Hload.
  eapply Forall_impl; [exact (loadDirectory_made w false dir target ok Hload)|].
  simpl. intros e (n & _ & Hvis & Hnew).
  unfold newFileEntry in Hnew.
  destruct (fs_is_directory w (append dir n)); [|discriminate].
  injection Hnew as <-. simpl. rewrite filename_append.
  unfold visible in Hvis. simpl in Hvis.
  now destruct (starts_with_dot n).
Qed.

(** X5.  Every entry of a loaded catalog is consistent with its path: its
    path is the directory joined with its name, a directory has size 0, a
    file has the size the file system reports or 0 when that call throws,
    and its extension is the extension of its name with no upper-case
    ASCII letter left. *)
Theorem loadDirectory_entry_fields (w : W) (sh : bool) (dir : fspath)
    (target : list FileEntry) (ok : bool) :
  loadDirectory w sh dir = (target, ok) ->
  Forall (fun e =>
            path e = append dir (name e)
            /\ name e = filename (path e)
            /\ fs_is_directory w (path e) = Some (is_directory e)
            /\ size e = (if is_directory e then 0%Z
                         else default 0%Z (fs_file_size w (path e)))
            /\ extension e = lowercase (extension_of (name e))
            /\ has_upper (extension e) = false) target.
Proof.
  intros Hload.
  eapply Forall_impl; [exact (loadDirectory_made w sh dir target ok Hload)|].
  simpl. intros e (n & _ & _ & Hnew).
  unfold newFileEntry in Hnew.
  destruct (fs_is_directory w (append dir n)) as [d|] eqn:Ed; [|discriminate].
  injection Hnew as <-. simpl. rewrite filename_append.
  repeat split; try assumption. apply lowercase_no_upper.
Qed.

(** The names kept by the two passes are the visible names. *)
Lemma filter_kinds (w : W) (dir : fspath) (sh : bool) (names : list string) :
  Forall (fun n => visible sh n = true ->
                   is_Some (fs_is_directory w (append dir n))) names ->
  filter (fun n => visible sh n = true
                   /\ fs_is_directory w (append dir n) = Some true) names
  ++ filter (fun n => visible sh n = true
                      /\ fs_is_directory w (append dir n) = Some false) names
  ≡ₚ filter (fun n => visible sh n = true) names.
Proof.
  induction 1 as [|n rest Hn Hrest IH]; [reflexivity|].
  destruct (visible sh n) eqn:Ev.
  - destruct (Hn eq_refl) as [[|] Hd].
    + rewrite (filter_cons_True _ n) by auto.
      rewrite (filter_cons_False _ n)
        by (intros [_ Hx]; rewrite Hd in Hx; discriminate).
      rewrite (filter_cons_True (fun n => visible sh n = true)) by exact Ev.
      simpl. now rewrite IH.
    + rewrite (filter_cons_False _ n)
        by (intros [_ Hx]; rewrite Hd in Hx; discriminate).
      rewrite (filter_cons_True _ n) by auto.
      rewrite (filter_cons_True (fun n => visible sh n = true)) by exact Ev.
      rewrite <- Permutation_middle. now rewrite IH.
  - rewrite !(filter_cons_False _ n);
      try (intros [Hx _]; rewrite Ev in Hx; discriminate);
      try (intros Hx; rewrite Ev in Hx; discriminate).
    exact IH.
Qed.

(** X4.  A load that runs to its end drops nothing and repeats nothing:
    the names of the catalog are the visible names the iteration yielded,
    rearranged. *)
Theorem loadDirectory_lists_all (w : W) (sh : bool) (dir : fspath)
    (target : list FileEntry) :
  loadDirectory w sh dir = (target, true) ->
  name <$> target
  ≡ₚ filter (fun n => visible sh n = true) (fst (fs_list w dir)).
Proof.
  unfold loadDirectory, iterate.
  destruct (fs_list w dir) as [names ended]. simpl.
  destruct (scan w dir sh true names []) as [dirs ok1] eqn:E1.
  destruct (scan_made w dir sh true names _ _ _ E1)
    as (a1 & Ha1 & _ & _ & Hk1). simpl in Ha1. subst a1.
  destruct ok1; simpl; [|discriminate].
  destruct ended; simpl; [|discriminate].
  destruct (scan w dir sh false names (std_sort dirs)) as [all ok2] eqn:E2.
  destruct (scan_made w dir sh false names _ _ _ E2)
    as (a2 & -> & _ & _ & Hk2).
  destruct ok2; simpl; [|discriminate].
  intros [= <-].
  destruct (Hk1 eq_refl) as [Hn1 Hall]. destruct (Hk2 eq_refl) as [Hn2 _].
  rewrite take_app_length, drop_app_length.
  rewrite fmap_app, !std_sort_perm, Hn1, Hn2.
  now apply filter_kinds.
Qed.

End Load.

Import Toy.

Lemma loadDirectory_masks_hidden_witness :
  Forall (fun e => starts_with_dot (name e) = false)
         (fst (loadDirectory home false home_u)).
Proof.
  apply (loadDirectory_masks_hidden home home_u _
           (snd (loadDirectory home false home_u))).
  vm_compute. reflexivity.
Defined.

Lemma loadDirectory_entry_fields_witness :
  Forall (fun e => path e = append home_u (name e)
                   /\ has_upper (extension e) = false)
         (fst (loadDirectory home true home_u)).
Proof.
  eapply Forall_impl.
  - apply (loadDirectory_entry_fields home true home_u _
             (snd (loadDirectory home true home_u))).
    vm_compute. reflexivity.
  - simpl. intros e (H1 & _ & _ & _ & _ & H6). auto.
Defined.

Lemma loadDirectory_lists_all_witness :
  name <$> fst (loadDirectory home true home_u)
  ≡ₚ filter (fun n => visible true n = true) (fst (fs_list home home_u)).
Proof.
  apply (loadDirectory_lists_all home true home_u).
  vm_compute. reflexivity.
Defined.

End CatalogShapeFacts.

(** *** The order of paths in a selection *)

Module OrderFacts.
Import Path Manager.

Lemma ascii_compare_refl (c : ascii) : Ascii.compare c c = Eq.
Proof. unfold Ascii.compare. apply N.compare_refl. Qed.

Lemma ascii_compare_lt_trans (a b c : ascii) :
  Ascii.compare a b = Lt -> Ascii.compare b c = Lt -> Ascii.compare a c = Lt.
Proof.
  unfold Ascii.compare. rewrite !N.compare_lt_iff. apply N.lt_trans.
Qed.

Lemma string_compare_refl (s : string) : String.compare s s = Eq.
Proof.
  induction s as [|c s IH]; cbn; [reflexivity|].
  now rewrite ascii_compare_refl.
Qed.

Lemma string_compare_lt_trans (x : string) :
  forall y z,
    String.compare x y = Lt -> String.compare y z = Lt ->
    String.compare x z = Lt.
Proof.
  induction x as [|a x IH]; intros [|b y] [|c z]; cbn;
    try discriminate; try reflexivity.
  destruct (Ascii.compare a b) eqn:Eab; try discriminate;
    destruct (Ascii.compare b c) eqn:Ebc; try discriminate.
  - apply Ascii.compare_eq_iff in Eab, Ebc. subst b c.
    rewrite ascii_compare_refl. apply IH.
  - apply Ascii.compare_eq_iff in Eab. subst b. now rewrite Ebc.
  - apply Ascii.compare_eq_iff in Ebc. subst c. now rewrite Eab.
  - now rewrite (ascii_compare_lt_trans a b c Eab Ebc).
Qed.

Lemma components_compare_eq_iff (a : list string) :
  forall b, components_compare a b = Eq <-> a = b.
Proof.
  induction a as [|x a IH]; intros [|y b]; cbn;
    try (split; [discriminate|discriminate]); [tauto|].
  destruct (String.compare x y) eqn:Exy.
  - apply String.compare_eq_iff in Exy. subst y. rewrite IH.
    split; [now intros ->|now intros [= ->]].
  - split; [discriminate|]. intros [= -> _].
    rewrite string_compare_refl in Exy. discriminate.
  - split; [discriminate|]. intros [= -> _].
    rewrite string_compare_refl in Exy. discriminate.
Qed.

Lemma components_compare_antisym (a : list string) :
  forall b, components_compare b a = CompOpp (components_compare a b).
Proof.
  induction a as [|x a IH]; intros [|y b]; cbn; try reflexivity.
  rewrite (String.compare_antisym x y).
  destruct (String.compare y x); cbn; [apply IH|reflexivity|reflexivity].
Qed.

Lemma components_compare_lt_trans (a : list string) :
  forall b c,
    components_compare a b = Lt -> components_compare b c = Lt ->
    components_compare a c = Lt.
Proof.
  induction a as [|x a IH]; intros [|y b] [|z c]; cbn;
    try discriminate; try reflexivity.
  destruct (String.compare x y) eqn:Exy; try discriminate;
    destruct (String.compare y z) eqn:Eyz; try discriminate.
  - apply String.compare_eq_iff in Exy, Eyz. subst y z.
    rewrite string_compare_refl. apply IH.
  - apply String.compare_eq_iff in Exy. subst y. now rewrite Eyz.
  - apply String.compare_eq_iff in Eyz. subst z. now rewrite Exy.
  - now rewrite (string_compare_lt_trans x y z Exy Eyz).
Qed.

Lemma path_compare_eq_iff (p q : fspath) : path_compare p q = Eq <-> p = q.
Proof.
  destruct p as [ap cp], q as [aq cq]. unfold path_compare. cbn.
  destruct ap, aq; try (split; [discriminate|discriminate]);
    rewrite components_compare_eq_iff;
    (split; [now intros ->|now intros [= ->]]).
Qed.

Lemma path_compare_antisym (p q : fspath) :
  path_compare q p = CompOpp (path_compare p q).
Proof.
  destruct p as [ap cp], q as [aq cq]. unfold path_compare. cbn.
  destruct ap, aq; try reflexivity; apply components_compare_antisym.
Qed.

Lemma path_compare_lt_trans (p q r : fspath) :
  path_compare p q = Lt -> path_compare q r = Lt -> path_compare p r = Lt.
Proof.
  destruct p as [ap cp], q as [aq cq], r as [ar cr].
  unfold path_compare. cbn.
  destruct ap, aq, ar; try discriminate; try reflexivity;
    apply components_compare_lt_trans.
Qed.

Lemma path_le_trans : Transitive path_le.
Proof.
  intros p q r. unfold path_le. intros Hpq Hqr.
  destruct (path_compare p q) eqn:Epq; [| |contradiction].
  - apply path_compare_eq_iff in Epq. now subst q.
  - destruct (path_compare q r) eqn:Eqr; [| |contradiction].
    + apply path_compare_eq_iff in Eqr. subst r. now rewrite Epq.
    + now rewrite (path_compare_lt_trans p q r Epq Eqr).
Qed.

Lemma path_le_total : Total path_le.
Proof.
  intros p q. unfold path_le. rewrite (path_compare_antisym p q).
  destruct (path_compare p q); cbn; [left|left|right]; discriminate.
Qed.

Lemma path_le_antisym (p q : fspath) : path_le p q -> path_le q p -> p = q.
Proof.
  unfold path_le. rewrite (path_compare_antisym p q).
  destruct (path_compare p q) eqn:E; cbn; intros H1 H2;
    [now apply path_compare_eq_iff|contradiction|contradiction].
Qed.

(** The keys of a selection: each selected path once, in increasing
    order. *)
Lemma set_keys_spec (s : gset fspath) :
  (forall p, p ∈ set_keys s <-> p ∈ s)
  /\ NoDup (set_keys s)
  /\ StronglySorted path_le (set_keys s).
Proof.
  unfold set_keys.
  pose proof (merge_sort_Permutation path_le (elements s)) as Hperm.
  split; [|split].
  - intros p. rewrite Hperm. apply elem_of_elements.
  - rewrite Hperm. apply NoDup_elements.
  - apply (@StronglySorted_merge_sort _ path_le _ path_le_trans
             path_le_total).
Qed.

Lemma set_keys_empty (s : gset fspath) : set_keys s = [] <-> s = ∅.
Proof.
  destruct (set_keys_spec s) as (Hin & _). split.
  - intros Hnil. apply set_eq. intros p. rewrite <- Hin, Hnil.
    rewrite elem_of_nil. split; [contradiction|].
    intros Hx. exact (not_elem_of_empty p Hx).
  - intros ->. destruct (set_keys ∅) as [|p l] eqn:E; [reflexivity|].
    exfalso. apply (not_elem_of_empty (C := gset fspath) p).
    destruct (set_keys_spec ∅) as (Hin' & _). apply Hin'. rewrite E. left.
Qed.

End OrderFacts.

Module BrowseFacts.
Import Path Fs Catalog Manager Preview Browse CatalogFacts ManagerFacts.
Import OrderFacts.

(** **** Copy and cut in a directory with entries *)

(** X6.  With the cursor on an entry, [handleCopy] ([handleYank false])
    and [handleCut] ([handleYank true]) put on the clipboard the path of
    that entry when nothing is selected, and otherwise the selected paths,
    each once and in the order of the keys of the [std::set]; the mode is
    the one asked for, the selection is emptied, the message is set, and
    the catalog and the cursor stay. *)
Theorem yank_snapshot (cut : bool) (fm : FileManager) (f : FileEntry) :
  currentFiles fm !! selectedIndex fm = Some f ->
  exists fm',
    handleYank cut fm = Some fm'
    /\ isCut (clipboard fm') = cut
    /\ (multiSelection fm = ∅ -> paths (clipboard fm') = [path f])
    /\ (multiSelection fm <> ∅ ->
        NoDup (paths (clipboard fm'))
        /\ (forall p, p ∈ paths (clipboard fm') <-> p ∈ multiSelection fm)
        /\ StronglySorted path_le (paths (clipboard fm')))
    /\ multiSelection fm' = ∅
    /\ statusMessage fm' = (if cut then "Cut items" else "Yanked items")
    /\ currentFiles fm' = currentFiles fm
    /\ selectedIndex fm' = selectedIndex fm
    /\ currentPath fm' = currentPath fm.
Proof.
  intros Hf. unfold handleYank, yank_paths.
  destruct (currentFiles fm) as [|f0 rest] eqn:Ef.
  { rewrite lookup_nil in Hf. discriminate. }
  simpl. rewrite Hf.
  destruct (set_keys_spec (multiSelection fm)) as (Hin & Hnd & Hsorted).
  destruct (decide (multiSelection fm = ∅)) as [Hempty|Hsel].
  - eexists. split; [reflexivity|]. simpl.
    repeat split; auto; contradiction.
  - eexists. split; [reflexivity|]. simpl.
    split; [reflexivity|]. split; [intros; contradiction|].
    split; [intros _; split; [exact Hnd|split; [exact Hin|exact Hsorted]]|].
    repeat split; auto.
Qed.

(** **** Paste, after the loop *)

Section Paste.
Context {W : Type} `{FileSystem W} `{StdSort}.

(** X7.  A paste with paths on the clipboard either returns or is left
    by an exception.  When it returns it has counted between 0 and the
    number of paths as successes, the catalog is the load of the current
    directory in the file system the loop left, the selection is empty,
    the cursor and the directory are as before, and the message is
    ["Moved items"] or ["Pasted items"] by the mode alone, whatever the
    count.  It is left by an exception exactly when [fs::exists] throws
    for the destination of some path in its turn; the paths before it
    have been handled, and no member of the manager has been written. *)
Theorem handlePaste_settles (w : W) (fm : FileManager) :
  paths (clipboard fm) <> [] ->
  (forall w' fm',
     handlePaste w fm = (w', Some fm') ->
     exists n,
       paste_loop (isCut (clipboard fm)) (currentPath fm) w
                  (paths (clipboard fm)) 0%Z = (w', Some n)
       /\ (0 <= n <= Z.of_nat (length (paths (clipboard fm))))%Z
       /\ currentFiles fm'
          = fst (loadDirectory w' (showHidden fm) (currentPath fm))
       /\ multiSelection fm' = ∅
       /\ statusMessage fm'
          = (if isCut (clipboard fm) then "Moved items" else "Pasted items")
       /\ currentPath fm' = currentPath fm
       /\ selectedIndex fm' = selectedIndex fm)
  /\ (forall w',
        handlePaste w fm = (w', None)
        <-> exists pre src rest ni,
              paths (clipboard fm) = pre ++ src :: rest
              /\ paste_loop (isCut (clipboard fm)) (currentPath fm) w pre 0%Z
                 = (w', Some ni)
              /\ fs_exists w' (append (currentPath fm) (filename src))
                 = None).
Proof.
  intros Hne. split.
  - intros w' fm'. unfold handlePaste.
    destruct (paths (clipboard fm)) as [|p ps] eqn:Ep; [contradiction|].
    destruct (paste_loop (isCut (clipboard fm)) (currentPath fm) w (p :: ps)
                0%Z) as [w1 [n|]] eqn:Er; [|discriminate].
    intros [= <- <-]. exists n. split; [reflexivity|].
    pose proof (paste_loop_count_bounds _ _ _ _ _ _ _ Er) as Hb.
    split; [lia|].
    match goal with
    | |- context [reloadAll w1 ?st] =>
        destruct (reloadAll_frame w1 st)
          as (Hcp & _ & Hst & Hsi & Hsh & Hms & Hcf)
    end.
    rewrite Hcf, Hms, Hst, Hcp, Hsi.
    destruct (isCut (clipboard fm)) eqn:Ecut; destruct (0 <? n)%Z;
      simpl; rewrite ?Ecut; repeat split; reflexivity.
  - intros w'. rewrite <- paste_loop_raised. unfold handlePaste.
    destruct (paths (clipboard fm)) as [|p ps] eqn:Ep; [contradiction|].
    destruct (paste_loop (isCut (clipboard fm)) (currentPath fm) w (p :: ps)
                0%Z) as [w1 [n|]] eqn:Er.
    + split; discriminate.
    + split; intros [= <-]; reflexivity.
Qed.

End Paste.

(** **** The selection *)

(** X8.  With the cursor on an entry, [toggleSelection] flips the
    membership of that entry's path in the selection and of no other
    path, and moves the cursor down by one unless it is on the last entry;
    the cursor stays on an entry, and the catalog and the clipboard are
    untouched. *)
Theorem toggleSelection_flips (fm : FileManager) (f : FileEntry) :
  currentFiles fm !! selectedIndex fm = Some f ->
  exists fm',
    toggleSelection fm = Some fm'
    /\ (path f ∈ multiSelection fm' <-> path f ∉ multiSelection fm)
    /\ (forall p, p <> path f ->
          (p ∈ multiSelection fm' <-> p ∈ multiSelection fm))
    /\ selectedIndex fm'
       = Nat.min (S (selectedIndex fm)) (length (currentFiles fm) - 1)
    /\ selectedIndex fm' < length (currentFiles fm')
    /\ currentFiles fm' = currentFiles fm
    /\ clipboard fm' = clipboard fm.
Proof.
  intros Hf. pose proof (lookup_lt_Some _ _ _ Hf) as Hlt.
  unfold toggleSelection. rewrite Hf.
  destruct (currentFiles fm) as [|f0 rest] eqn:Ef; [simpl in Hlt; lia|].
  rewrite <- Ef in *.
  eexists. split; [reflexivity|].
  destruct (Nat.ltb_spec (selectedIndex fm) (length (currentFiles fm) - 1));
    destruct (bool_decide_reflect (path f ∈ multiSelection fm));
    cbn [multiSelection selectedIndex currentFiles clipboard
         set_selectedIndex set_multiSelection].
  all: split; [rewrite ?elem_of_difference, ?elem_of_union,
                 ?elem_of_singleton; tauto|].
  all: split; [intros p Hp; rewrite ?elem_of_difference, ?elem_of_union,
                 ?elem_of_singleton; tauto|].
  all: split; [lia|]; split; [lia|]; split; reflexivity.
Qed.

Lemma toggle_sweep_from (n : nat) :
  forall (fm : FileManager) (i : nat),
    NoDup (path <$> currentFiles fm) ->
    selectedIndex fm = i ->
    i + n <= length (currentFiles fm) ->
    multiSelection fm = list_to_set (path <$> take i (currentFiles fm)) ->
    exists fm',
      toggle_times n fm = Some fm'
      /\ multiSelection fm'
         = list_to_set (path <$> take (i + n) (currentFiles fm))
      /\ (0 < n ->
          selectedIndex fm' = Nat.min (i + n) (length (currentFiles fm) - 1))
      /\ currentFiles fm' = currentFiles fm
      /\ clipboard fm' = clipboard fm.
Proof.
  induction n as [|n IH]; intros fm i Hnd Hi Hlen Hsel.
  - exists fm. rewrite Nat.add_0_r. simpl.
    split; [reflexivity|]. split; [exact Hsel|]. split; [lia|]. split; reflexivity.
  - subst i. set (i := selectedIndex fm) in *.
    assert (Hi : selectedIndex fm = i) by reflexivity.
    assert (Hlt : i < length (currentFiles fm)) by lia.
    destruct (lookup_lt_is_Some_2 _ _ Hlt) as [f Hf].
    assert (Htake : take (S i) (currentFiles fm) = take i (currentFiles fm) ++ [f]).
    { apply take_S_r, Hf. }
    assert (Hnew : path f ∉ multiSelection fm).
    { rewrite Hsel, elem_of_list_to_set. intros Hin.
      assert (Hnd' : NoDup (path <$> take (S i) (currentFiles fm))).
      { rewrite <- (take_drop (S i) (currentFiles fm)), fmap_app in Hnd.
        apply NoDup_app in Hnd. tauto. }
      rewrite Htake, fmap_app in Hnd'. apply NoDup_app in Hnd' as (_ & Hd & _).
      apply (Hd _ Hin). simpl. left. }
    cbn [toggle_times]. unfold toggleSelection. fold i. rewrite Hf.
    destruct (currentFiles fm) as [|f0 rest] eqn:Ef; [simpl in Hlt; lia|].
    rewrite <- Ef in *.
    rewrite bool_decide_eq_false_2 by exact Hnew.
    assert (Hsel' : {[path f]} ∪ multiSelection fm
                    = list_to_set (path <$> take (S i) (currentFiles fm))).
    { rewrite Htake, fmap_app, list_to_set_app_L, Hsel.
      cbn [fmap list_fmap list_to_set foldr].
      rewrite (right_id_L ∅ (∪)). apply (comm_L (∪)). }
    destruct (Nat.ltb_spec i (length (currentFiles fm) - 1)) as [Hin|Hlast].
    + destruct (IH (set_selectedIndex (S i)
                     (set_multiSelection ({[path f]} ∪ multiSelection fm) fm))
                   (S i)) as (fm' & Hrun & Hs & Hc & Hcf & Hcl).
      * exact Hnd.
      * reflexivity.
      * simpl. lia.
      * exact Hsel'.
      * exists fm'. split; [exact Hrun|]. simpl in Hs, Hc, Hcf, Hcl.
        replace (i + S n) with (S i + n) by lia.
        split; [exact Hs|]. split; [|split; assumption].
        intros _. destruct n as [|n'].
        -- cbn [toggle_times] in Hrun. injection Hrun as <-.
           cbn [selectedIndex set_selectedIndex set_multiSelection]. lia.
        -- apply Hc. lia.
    + assert (n = 0) by lia. subst n. simpl.
      eexists. split; [reflexivity|]. simpl.
      replace (i + 1) with (S i) by lia.
      split; [exact Hsel'|]. split; [lia|]. split; reflexivity.
Qed.

(** X9.  Starting on the first entry with nothing selected, in a catalog
    whose entries have distinct paths, [n] presses of the selection key
    select exactly the first [n] entries and leave the cursor on entry
    [n], or on the last entry when [n] is their number. *)
Theorem toggle_sweep (n : nat) (fm : FileManager) :
  NoDup (path <$> currentFiles fm) ->
  selectedIndex fm = 0 ->
  multiSelection fm = ∅ ->
  0 < n <= length (currentFiles fm) ->
  exists fm',
    toggle_times n fm = Some fm'
    /\ multiSelection fm' = list_to_set (path <$> take n (currentFiles fm))
    /\ stdpp.base.size (multiSelection fm') = n
    /\ selectedIndex fm' = Nat.min n (length (currentFiles fm) - 1)
    /\ currentFiles fm' = currentFiles fm
    /\ clipboard fm' = clipboard fm.
Proof.
  intros Hnd Hi Hsel Hn.
  destruct (toggle_sweep_from n fm 0 Hnd Hi) as (fm' & Hrun & Hs & Hc & Hcf & Hcl).
  - simpl. lia.
  - rewrite Hsel. reflexivity.
  - exists fm'. simpl in Hs, Hc.
    split; [exact Hrun|]. split; [exact Hs|].
    split; [|split; [apply Hc; lia|split; assumption]].
    rewrite Hs, size_list_to_set.
    + rewrite length_fmap, length_take. lia.
    + rewrite <- (take_drop n (currentFiles fm)), fmap_app in Hnd.
      apply NoDup_app in Hnd. tauto.
Qed.

Lemma selectAll_selection (l : list FileEntry) :
  forall (s : gset fspath) (p : fspath),
    p ∈ fold_left (fun s f => {[path f]} ∪ s) l s
    <-> p ∈ s \/ p ∈ path <$> l.
Proof.
  induction l as [|f l IH]; intros s p; cbn [fold_left].
  - rewrite fmap_nil, elem_of_nil. tauto.
  - rewrite IH, fmap_cons, elem_of_cons, elem_of_union, elem_of_singleton.
    tauto.
Qed.

(** X10.  [selectAll] followed by [handleCopy] in a directory with entries
    puts on the clipboard, each once, the paths of all entries together
    with the paths that were selected before (which may be of another
    directory); the clipboard is in copy mode and the selection ends
    empty.  The cursor is not read. *)
Theorem selectAll_then_copy (fm : FileManager) :
  currentFiles fm <> [] ->
  exists fm',
    handleCopy (selectAll fm) = Some fm'
    /\ (forall p, p ∈ paths (clipboard fm')
                  <-> p ∈ multiSelection fm \/ p ∈ path <$> currentFiles fm)
    /\ NoDup (paths (clipboard fm'))
    /\ isCut (clipboard fm') = false
    /\ multiSelection fm' = ∅
    /\ currentFiles fm' = currentFiles fm.
Proof.
  intros Hne. unfold handleCopy, handleYank, yank_paths, selectAll.
  destruct (currentFiles fm) as [|f rest] eqn:Ef; [contradiction|].
  cbn [currentFiles setStatus set_statusMessage set_multiSelection multiSelection].
  rewrite Ef.
  set (sel := fold_left _ (f :: rest) (multiSelection fm)).
  assert (Hsel : forall p, p ∈ sel <-> p ∈ multiSelection fm \/ p ∈ path <$> f :: rest).
  { intros p. apply selectAll_selection. }
  assert (Hnz : sel <> ∅).
  { intros He. assert (Hp : path f ∈ sel).
    { apply Hsel. right. rewrite fmap_cons. left. }
    rewrite He in Hp. exact (not_elem_of_empty (path f) Hp). }
  destruct (decide (sel = ∅)) as [|_]; [contradiction|].
  destruct (set_keys_spec sel) as (Hin & Hnd & _).
  eexists. split; [reflexivity|]. simpl.
  split; [|split; [exact Hnd|repeat split; assumption]].
  intros p. rewrite Hin. apply Hsel.
Qed.

(** **** Moving the cursor *)

(** X11.  However the keys [j], [k], [g] and [G] are pressed, a cursor
    that is on an entry (or at 0 in an empty catalog) stays so; the
    catalog, the selection and the clipboard are not touched. *)
Theorem navigate_keeps_cursor (height : Z) (keys : list nav)
    (fm : FileManager) :
  selectedIndex fm <= length (currentFiles fm) - 1 ->
  let fm' := fold_left (fun st k => navigate height k st) keys fm in
  selectedIndex fm' <= length (currentFiles fm') - 1
  /\ currentFiles fm' = currentFiles fm
  /\ multiSelection fm' = multiSelection fm
  /\ clipboard fm' = clipboard fm
  /\ currentPath fm' = currentPath fm.
Proof.
  revert fm. induction keys as [|k keys IH]; intros fm Hin; cbn [fold_left].
  - cbv zeta. repeat split. exact Hin.
  - assert (Hstep : selectedIndex (navigate height k fm)
                    <= length (currentFiles (navigate height k fm)) - 1
                    /\ currentFiles (navigate height k fm) = currentFiles fm
                    /\ multiSelection (navigate height k fm) = multiSelection fm
                    /\ clipboard (navigate height k fm) = clipboard fm
                    /\ currentPath (navigate height k fm) = currentPath fm).
    { destruct k; unfold navigate.
      - destruct (currentFiles fm) as [|f rest] eqn:Ef.
        + rewrite Ef. repeat split. exact Hin.
        + rewrite <- Ef in *.
          destruct (Nat.ltb_spec (selectedIndex fm)
                                 (length (currentFiles fm) - 1)).
          * cbn [selectedIndex currentFiles multiSelection clipboard
                 currentPath set_selectedIndex]. repeat split. lia.
          * repeat split. exact Hin.
      - destruct (Nat.ltb_spec 0 (selectedIndex fm)).
        + cbn [selectedIndex currentFiles multiSelection clipboard
               currentPath set_selectedIndex]. repeat split. lia.
        + repeat split. exact Hin.
      - cbn [selectedIndex currentFiles multiSelection clipboard
             currentPath set_selectedIndex set_scrollOffset].
        repeat split. lia.
      - destruct (currentFiles fm) as [|f rest] eqn:Ef.
        + rewrite Ef. repeat split. exact Hin.
        + rewrite <- Ef in *. cbv zeta.
          match goal with |- context [if ?b then _ else _] => destruct b end;
            cbn [selectedIndex currentFiles multiSelection clipboard
                 currentPath set_selectedIndex set_scrollOffset];
            repeat split; lia. }
    destruct Hstep as (H1 & H2 & H3 & H4 & H5).
    destruct (IH (navigate height k fm) H1) as (I1 & I2 & I3 & I4 & I5).
    cbv zeta. rewrite I2, I3, I4, I5, H2, H3, H4, H5.
    rewrite I2, H2 in I1. repeat split. exact I1.
Qed.

Section Handlers.
Context {W : Type} `{FileSystem W} `{StdSort}.

(** **** Hidden entries *)

(** X12.  [toggleHidden] flips the flag and reloads the catalog of the
    same directory under the new flag, emptying the selection and keeping
    the cursor index and the clipboard; the message names the new state.
    Toggling twice gives the flag back. *)
Theorem toggleHidden_reloads (w : W) (fm : FileManager) :
  let fm1 := toggleHidden w fm in
  showHidden fm1 = negb (showHidden fm)
  /\ currentFiles fm1
     = fst (loadDirectory w (negb (showHidden fm)) (currentPath fm))
  /\ statusMessage fm1
     = (if showHidden fm then "Hidden masked" else "Showing hidden")
  /\ multiSelection fm1 = ∅
  /\ selectedIndex fm1 = selectedIndex fm
  /\ clipboard fm1 = clipboard fm
  /\ currentPath fm1 = currentPath fm
  /\ showHidden (toggleHidden w fm1) = showHidden fm
  /\ currentFiles (toggleHidden w fm1)
     = fst (loadDirectory w (showHidden fm) (currentPath fm)).
Proof.
  assert (Hone : forall st,
    showHidden (toggleHidden w st) = negb (showHidden st)
    /\ currentFiles (toggleHidden w st)
       = fst (loadDirectory w (negb (showHidden st)) (currentPath st))
    /\ statusMessage (toggleHidden w st)
       = (if showHidden st then "Hidden masked" else "Showing hidden")
    /\ multiSelection (toggleHidden w st) = ∅
    /\ selectedIndex (toggleHidden w st) = selectedIndex st
    /\ clipboard (toggleHidden w st) = clipboard st
    /\ currentPath (toggleHidden w st) = currentPath st).
  { intros st. unfold toggleHidden. cbv zeta.
    destruct (reloadAll_frame w (set_showHidden (negb (showHidden st)) st))
      as (Hcp & Hcl & _ & Hsi & Hsh & Hms & Hcf).
    cbn [showHidden currentPath clipboard selectedIndex set_showHidden]
      in Hcp, Hcl, Hsi, Hsh, Hcf.
    rewrite Hsh.
    cbn [setStatus set_statusMessage showHidden currentFiles statusMessage
         multiSelection selectedIndex clipboard currentPath].
    rewrite Hsh, Hcf, Hms, Hsi, Hcl, Hcp.
    destruct (showHidden st); repeat split; reflexivity. }
  cbv zeta.
  destruct (Hone fm) as (H1 & H2 & H3 & H4 & H5 & H6 & H7).
  destruct (Hone (toggleHidden w fm)) as (G1 & G2 & _).
  rewrite G1, G2, H1, H7, negb_involutive.
  repeat split; assumption.
Qed.

(** **** Into a directory and back *)

Lemma parent_path_append (p : fspath) (n : string) :
  parent_path (append p n) = p.
Proof.
  destruct p as [a c]. unfold parent_path, append. simpl.
  now rewrite removelast_last.
Qed.

Lemma append_not_self (p : fspath) (n : string) : append p n <> p.
Proof.
  destruct p as [a c]. unfold append. simpl. intros Heq.
  injection Heq as Heq. apply (f_equal length) in Heq.
  rewrite length_app in Heq. simpl in Heq. lia.
Qed.

Lemma find_name_unique (files : list FileEntry) (i : nat) (f : FileEntry) :
  NoDup (name <$> files) ->
  files !! i = Some f ->
  find_name files (name f) 0 = Some i.
Proof.
  intros Hnd Hf.
  pose proof (find_name_first (name f) files 0) as Hfind.
  destruct (find_name files (name f) 0) as [k|].
  - destruct Hfind as (j & e & -> & Hj & He & _). simpl. f_equal.
    apply (NoDup_lookup _ _ _ (name f) Hnd).
    + rewrite list_lookup_fmap, Hj. simpl. now rewrite He.
    + rewrite list_lookup_fmap, Hf. reflexivity.
  - rewrite Forall_forall in Hfind. exfalso.
    apply (Hfind f); [|reflexivity].
    apply list_elem_of_lookup. now exists i.
Qed.

(** X13.  In a non-empty current path whose catalog is the load of the
    present directory and has distinct names, opening the directory under
    the cursor and then going up leads back: the opening enters the
    directory with the cursor at 0, and [goUp] restores the path and the
    catalog and puts the cursor back on the directory that was opened.
    The scroll offset is computed anew from the cursor. *)
Theorem openFile_goUp_round_trip (w : W) (fm : FileManager)
    (file : FileEntry) :
  path_empty (currentPath fm) = false ->
  currentFiles fm
  = fst (loadDirectory w (showHidden fm) (currentPath fm)) ->
  NoDup (name <$> currentFiles fm) ->
  currentFiles fm !! selectedIndex fm = Some file ->
  is_directory file = true ->
  exists fm1,
    openFile w fm = Some (fm1, true)
    /\ currentPath fm1 = path file
    /\ selectedIndex fm1 = 0
    /\ currentFiles fm1
       = fst (loadDirectory w (showHidden fm) (path file))
    /\ currentPath (goUp w fm1) = currentPath fm
    /\ currentFiles (goUp w fm1) = currentFiles fm
    /\ selectedIndex (goUp w fm1) = selectedIndex fm
    /\ scrollOffset (goUp w fm1)
       = (if (10 <? selectedIndex fm)%nat then selectedIndex fm - 10 else 0).
Proof.
  intros Hpe Hsync Hnd Hf Hdir.
  assert (Hpath : path file = append (currentPath fm) (name file)).
  { destruct (loadDirectory w (showHidden fm) (currentPath fm))
      as [target ok] eqn:El.
    pose proof (loadDirectory_entries _ _ _ _ _ El) as Hall.
    simpl in Hsync. rewrite <- Hsync in Hall.
    rewrite Forall_forall in Hall.
    apply (Hall file). apply list_elem_of_lookup. now exists (selectedIndex fm). }
  unfold openFile. rewrite Hf, Hdir.
  destruct (currentFiles fm) as [|f0 rest] eqn:Ef.
  { rewrite lookup_nil in Hf. discriminate. }
  rewrite <- Ef in *.
  eexists. split; [reflexivity|]. cbv zeta.
  set (fm4 := set_scrollOffset 0
                (set_selectedIndex 0
                   (set_currentPath (path file) (clearDirectRender fm)))).
  destruct (reloadAll_frame w fm4) as (Hcp & _ & _ & Hsi & Hsh & _ & Hcf).
  cbn [fm4 currentPath selectedIndex showHidden set_scrollOffset
       set_selectedIndex set_currentPath clearDirectRender
       set_lastWasDirectRender] in Hcp, Hsi, Hsh, Hcf.
  split; [exact Hcp|]. split; [exact Hsi|]. split; [exact Hcf|].
  unfold goUp. rewrite Hcp, Hpath, parent_path_append.
  assert (Hpar : has_parent_path (append (currentPath fm) (name file)) = true).
  { unfold has_parent_path. now rewrite parent_path_append, Hpe. }
  rewrite Hpar, bool_decide_eq_true_2 by apply append_not_self.
  cbn [andb]. cbv zeta. rewrite filename_append.
  set (fm2 := set_currentPath _ (clearDirectRender (reloadAll w fm4))).
  assert (Hcp2 : currentPath fm2 = currentPath fm).
  { unfold fm2. cbn [currentPath set_currentPath clearDirectRender
                     set_lastWasDirectRender].
    rewrite Hcp, Hpath. apply parent_path_append. }
  destruct (reloadAll_frame w fm2) as (Hcp' & _ & _ & _ & _ & _ & Hcf').
  assert (Hsh2 : showHidden fm2 = showHidden fm).
  { unfold fm2. cbn [showHidden set_currentPath clearDirectRender
                     set_lastWasDirectRender]. exact Hsh. }
  rewrite Hsh2, Hcp2, <- Hsync in Hcf'. rewrite Hcp2 in Hcp'.
  cbn [currentPath currentFiles selectedIndex scrollOffset
       set_scrollOffset set_selectedIndex].
  rewrite Hcp', Hcf', (find_name_unique _ _ _ Hnd Hf). simpl.
  repeat split; reflexivity.
Qed.

(** **** Deleting *)

Lemma remove_each_fold (targets : list fspath) :
  forall w : W,
    remove_each w targets
    = fold_left (fun w0 p => match fs_remove_all w0 p with
                             | Done w1 => w1
                             | Threw w1 => w1
                             end) targets w.
Proof.
  induction targets as [|p rest IH]; intros w; cbn; [reflexivity|].
  destruct (fs_remove_all w p); apply IH.
Qed.

(** X14.  With the cursor on an entry, the targets of [handleDelete] are
    the path under the cursor when nothing is selected and otherwise the
    selected paths, each once and in the order of the keys of the set.
    The question names the file, or the number of items when there are
    several, and nothing is touched before it is answered: any answer
    other than [y] or [Y] leaves the world and the manager as they were.
    After [y] or [Y] the world is the one reached by calling
    [fs::remove_all] on each target in that order, going on after a call
    that throws; the selection is empty, the catalog is the load of the
    directory in that world, and the clipboard still holds what it
    held. *)
Theorem handleDelete_asks_first (promptInput : string -> string) (w : W)
    (fm : FileManager) (f : FileEntry) :
  currentFiles fm !! selectedIndex fm = Some f ->
  let targets :=
    if decide (multiSelection fm = ∅) then [path f]
    else set_keys (multiSelection fm) in
  let question :=
    "Delete "
    +:+ (if (1 <? length targets)%nat
         then NilZero.string_of_uint (Nat.to_uint (length targets))
              +:+ " items"
         else match targets with
              | p :: _ => filename p
              | [] => ""
              end)
    +:+ "? (y/n)" in
  let answer := promptInput question in
  let after :=
    fold_left (fun w0 p => match fs_remove_all w0 p with
                           | Done w1 => w1
                           | Threw w1 => w1
                           end) targets w in
  (targets <> [] /\ NoDup targets /\ StronglySorted path_le targets
   /\ (multiSelection fm <> ∅ ->
       forall p, p ∈ targets <-> p ∈ multiSelection fm))
  /\ (answer <> "y" -> answer <> "Y" ->
      handleDelete promptInput w fm = Some (w, fm))
  /\ (answer = "y" \/ answer = "Y" ->
      exists fm',
        handleDelete promptInput w fm = Some (after, fm')
        /\ multiSelection fm' = ∅
        /\ currentFiles fm'
           = fst (loadDirectory after (showHidden fm) (currentPath fm))
        /\ clipboard fm' = clipboard fm
        /\ selectedIndex fm' = selectedIndex fm
        /\ statusMessage fm' = "Deleted items").
Proof.
  intros Hf targets question answer after.
  assert (Hy : yank_paths fm = Some targets).
  { unfold yank_paths, targets. rewrite Hf.
    destruct (decide (multiSelection fm = ∅)); reflexivity. }
  assert (Hq : delete_prompt targets = question) by reflexivity.
  split.
  { unfold targets.
    destruct (decide (multiSelection fm = ∅)) as [Hempty|Hsel].
    - split; [discriminate|]. split; [apply NoDup_singleton|].
      split; [repeat constructor|]. intros Hx. contradiction.
    - destruct (set_keys_spec (multiSelection fm)) as (Hin & Hnd & Hsorted).
      split; [|auto].
      intros Hnil. apply Hsel. now apply set_keys_empty. }
  unfold handleDelete.
  destruct (currentFiles fm) as [|f0 rest] eqn:Ef.
  { rewrite lookup_nil in Hf. discriminate. }
  rewrite <- Ef in *. rewrite Hy, Hq. cbv zeta. fold answer.
  rewrite remove_each_fold. fold after.
  split.
  - intros Hn1 Hn2.
    apply String.eqb_neq in Hn1, Hn2. now rewrite Hn1, Hn2.
  - intros Hyes.
    assert (Hb : negb (answer =? "y")%string && negb (answer =? "Y")%string
                 = false).
    { destruct Hyes as [Hyes|Hyes]; rewrite Hyes; reflexivity. }
    rewrite Hb. eexists. split; [reflexivity|].
    match goal with |- context [reloadAll ?w' ?st] =>
      destruct (reloadAll_frame w' st) as (Hcp & Hcl & Hst & Hsi & Hsh & Hms & Hcf)
    end.
    rewrite Hms, Hcf, Hcl, Hsi, Hst. repeat split; reflexivity.
Qed.

End Handlers.

(** **** On the small file system *)

Import Toy Scenes.

(** A cut of [notes.txt] puts that path on the clipboard. *)
Lemma yank_snapshot_witness :
  paths (clipboard (default at_home (handleCut at_home))) = [notes]
  /\ isCut (clipboard (default at_home (handleCut at_home))) = true.
Proof.
  edestruct (yank_snapshot true at_home) as (fm' & Hrun & Hcut & Hone & _).
  - vm_compute. reflexivity.
  - unfold handleCut. rewrite Hrun. simpl.
    split; [|exact Hcut]. rewrite Hone; [|vm_compute; reflexivity].
    vm_compute. reflexivity.
Defined.

(** Pasting the copy of [notes.txt] into [alpha]. *)
Lemma handlePaste_settles_witness :
  exists w' fm',
    handlePaste home (set_currentPath alpha copied) = (w', Some fm')
    /\ statusMessage fm' = "Pasted items"
    /\ multiSelection fm' = ∅.
Proof.
  destruct (handlePaste home (set_currentPath alpha copied))
    as [w' [fm'|]] eqn:Hrun; [|vm_compute in Hrun; discriminate].
  destruct (handlePaste_settles home (set_currentPath alpha copied))
    as (Hret & _).
  - vm_compute. discriminate.
  - destruct (Hret w' fm' Hrun) as (n & _ & _ & _ & Hms & Hst & _).
    exists w', fm'. split; [reflexivity|]. split; [exact Hst|exact Hms].
Defined.

(** Toggling on [notes.txt], the last entry, selects it and leaves the
    cursor there. *)
Lemma toggleSelection_flips_witness :
  exists fm',
    toggleSelection at_home = Some fm'
    /\ notes ∈ multiSelection fm'
    /\ selectedIndex fm' = 3.
Proof.
  edestruct (toggleSelection_flips at_home) as (fm' & Hrun & Hf & _ & Hi & _).
  - vm_compute. reflexivity.
  - exists fm'. split; [exact Hrun|]. split.
    + apply Hf.
      assert (E : multiSelection at_home = ∅) by (vm_compute; reflexivity).
      rewrite E. apply not_elem_of_empty.
    + rewrite Hi. vm_compute. reflexivity.
Defined.

(** Three presses from the top of [/home/u] select three entries and leave
    the cursor on the fourth. *)
Lemma toggle_sweep_witness :
  exists fm',
    toggle_times 3 (set_selectedIndex 0 at_home) = Some fm'
    /\ stdpp.base.size (multiSelection fm') = 3
    /\ selectedIndex fm' = 3.
Proof.
  destruct (toggle_sweep 3 (set_selectedIndex 0 at_home))
    as (fm' & Hrun & _ & Hsz & Hi & _).
  - vm_compute. repeat constructor; rewrite ?elem_of_cons, ?elem_of_nil;
      intuition discriminate.
  - reflexivity.
  - vm_compute. reflexivity.
  - vm_compute. lia.
  - exists fm'. split; [exact Hrun|]. split; [exact Hsz|].
    rewrite Hi. vm_compute. reflexivity.
Defined.

(** Selecting all of [/home/u] and copying. *)
Lemma selectAll_then_copy_witness :
  exists fm',
    handleCopy (selectAll at_home) = Some fm'
    /\ notes ∈ paths (clipboard fm')
    /\ isCut (clipboard fm') = false.
Proof.
  destruct (selectAll_then_copy at_home) as (fm' & Hrun & Hin & _ & Hcut & _).
  - vm_compute. discriminate.
  - exists fm'. split; [exact Hrun|]. split; [|exact Hcut].
    apply Hin. right. apply list_elem_of_lookup. exists 3.
    vm_compute. reflexivity.
Defined.

(** [G], [j], [k], [k], [g], [k] on a screen of 24 lines. *)
Lemma navigate_keeps_cursor_witness :
  selectedIndex
    (fold_left (fun st k => navigate 24 k st) [Bottom; Down; Up; Up; Top; Up]
               at_home)
  <= length (currentFiles at_home) - 1.
Proof.
  destruct (navigate_keeps_cursor 24 [Bottom; Down; Up; Up; Top; Up] at_home)
    as (Hin & Hcf & _).
  - vm_compute. lia.
  - rewrite Hcf in Hin. exact Hin.
Defined.

(** Into [zeta] and back. *)
Lemma openFile_goUp_round_trip_witness :
  exists fm1,
    openFile home on_zeta = Some (fm1, true)
    /\ currentPath fm1 = zeta
    /\ currentPath (goUp home fm1) = home_u
    /\ selectedIndex (goUp home fm1) = 1.
Proof.
  edestruct (openFile_goUp_round_trip home on_zeta)
    as (fm1 & Hrun & Hcp & _ & _ & Hback & _ & Hsi & _).
  - vm_compute. reflexivity.
  - vm_compute. reflexivity.
  - vm_compute. repeat constructor; rewrite ?elem_of_cons, ?elem_of_nil;
      intuition discriminate.
  - vm_compute. reflexivity.
  - reflexivity.
  - exists fm1. split; [exact Hrun|]. split; [exact Hcp|].
    split; [exact Hback|exact Hsi].
Defined.

(** Deleting [notes.txt] after the answer [y] removes it from the
    catalog; after [n] nothing is done. *)
Lemma handleDelete_asks_first_witness :
  handleDelete (fun _ => "n") home at_home = Some (home, at_home)
  /\ exists w' fm',
       handleDelete (fun _ => "y") home at_home = Some (w', fm')
       /\ multiSelection fm' = ∅
       /\ fs_exists w' notes = Some false.
Proof.
  split.
  - pose proof (handleDelete_asks_first (fun _ => "n") home at_home
                  notes_entry) as Hthm.
    cbv zeta in Hthm. destruct Hthm as (_ & Hno & _).
    + vm_compute. reflexivity.
    + apply Hno; discriminate.
  - pose proof (handleDelete_asks_first (fun _ => "y") home at_home
                  notes_entry) as Hthm.
    cbv zeta in Hthm. destruct Hthm as (_ & _ & Hyes).
    + vm_compute. reflexivity.
    + destruct Hyes as (fm' & Hrun & Hms & _); [left; reflexivity|].
      eexists _, fm'. split; [exact Hrun|]. split; [exact Hms|].
      vm_compute. reflexivity.
Defined.

(** With all four entries of [/home/u] selected, the targets come in the
    order of the keys: upper case before lower case. *)
Example delete_all_in_key_order :
  calls <$> (fst <$> handleDelete (fun _ => "y") home (selectAll at_home))
  = Some [CallRemoveAll (abs ["home"; "u"; "Makefile"]);
          CallRemoveAll alpha; CallRemoveAll notes; CallRemoveAll zeta].
Proof. vm_compute. reflexivity. Qed.

Example delete_notes :
  name <$> currentFiles
             (snd (default (home, at_home)
                           (handleDelete (fun _ => "Y") home at_home)))
  = ["alpha"; "zeta"; "Makefile"].
Proof. vm_compute. reflexivity. Qed.

Example hidden_shown :
  name <$> currentFiles (toggleHidden home at_home)
  = ["alpha"; "zeta"; ".profile"; "Makefile"; "notes.txt"].
Proof. vm_compute. reflexivity. Qed.

End BrowseFacts.

Module RenderFacts.
Import Path Fs Catalog Manager Preview Render CatalogShape.
Import KittyFacts PreviewFacts.

Section Render.
Context {W : Type} `{FileSystem W}.

(** **** The three ways of an entry that goes through the cache *)

Lemma drawPreview_previewed (w : W) (g : geometry) (between : list worker)
    (fm : FileManager) (file : FileEntry) :
  currentFiles fm !! selectedIndex fm = Some file ->
  previewed file = true ->
  drawPreview w g between fm
  = if String.eqb (cachedPath fm) (path_string (path file)) then
      let slot := fold_left (fun st wk => commit wk st) between (settled fm) in
      (header fm file ++ fst (drawFromCache (kind file) g slot),
       snd (drawFromCache (kind file) g slot), None)
    else if String.eqb (requestedPath fm) (path_string (path file)) then
      (header fm file, settled fm, None)
    else
      (header fm file ++ [PaintLoading],
       fst (startAsyncPreview (path_string (path file)) (kind file)
              (pH g - 2 - 8) (pW g - 4) (settled fm)),
       Some (snd (startAsyncPreview (path_string (path file)) (kind file)
                    (pH g - 2 - 8) (pW g - 4) (settled fm)))).
Proof.
  intros Hf Hprev.
  unfold previewed in Hprev. apply andb_true_iff in Hprev as [Hnd Hext].
  apply negb_true_iff in Hnd.
  unfold drawPreview, header, settled, kind.
  destruct (lastWasDirectRender fm);
    cbn [clearDirectRender currentFiles selectedIndex
         set_lastWasDirectRender];
    rewrite Hf, Hnd, Hext;
    cbn [cachedPath requestedPath clearDirectRender set_lastWasDirectRender
         showHidden];
    (destruct (String.eqb (cachedPath fm) (path_string (path file)));
     [destruct (drawFromCache _ g _) as [out3 fm2]; cbn [fst snd];
      rewrite <- !app_assoc; reflexivity|]);
    (destruct (String.eqb (requestedPath fm) (path_string (path file)));
     cbn [negb startAsyncPreview fst snd];
     rewrite <- ?app_assoc; reflexivity).
Qed.

(** **** One request per cursor position *)

(** X15.  For an entry that goes through the cache, when neither the slot
    nor the last request is for its path, a render paints ["Loading..."]
    and starts one worker, whose ticket carries the path, the size of the
    preview box and the counter after its increment.  A second render of
    the same entry, before any worker has written, starts no worker and
    paints no more than the frame and the details. *)
Theorem drawPreview_dispatches_once (w : W) (g : geometry)
    (between between' : list worker) (fm : FileManager) (file : FileEntry) :
  currentFiles fm !! selectedIndex fm = Some file ->
  previewed file = true ->
  cachedPath fm <> path_string (path file) ->
  requestedPath fm <> path_string (path file) ->
  exists fm1 t,
    drawPreview w g between fm
    = (header fm file ++ [PaintLoading], fm1, Some t)
    /\ t_path t = path_string (path file)
    /\ t_type t = (if count CODE_EXTS (extension file) then TEXT else IMAGE)
    /\ t_previewHeight t = (pH g - 2 - 8)%Z
    /\ t_previewWidth t = (pW g - 4)%Z
    /\ reqId t = (requestID fm + 1)%Z
    /\ requestID fm1 = (requestID fm + 1)%Z
    /\ imageReady fm1 = false
    /\ drawPreview w g between' fm1
       = ([PaintFrame; PaintDetails (name file) (size file)], fm1, None).
Proof.
  intros Hf Hprev Hc Hr.
  apply String.eqb_neq in Hc, Hr.
  rewrite (drawPreview_previewed w g between fm file Hf Hprev), Hc, Hr.
  eexists _, _. split; [reflexivity|].
  assert (Hid : requestID (settled fm) = requestID fm).
  { unfold settled. destruct (lastWasDirectRender fm); reflexivity. }
  cbn [startAsyncPreview fst snd t_path t_type t_previewHeight
       t_previewWidth reqId requestID set_requestID set_requestedPath
       set_imageReady imageReady].
  rewrite Hid. repeat (split; [reflexivity|]).
  set (fm1 := set_imageReady false _).
  assert (Hf1 : currentFiles fm1 !! selectedIndex fm1 = Some file).
  { unfold fm1, settled. destruct (lastWasDirectRender fm); exact Hf. }
  rewrite (drawPreview_previewed w g between' fm1 file Hf1 Hprev).
  assert (Hc1 : cachedPath fm1 = cachedPath fm).
  { unfold fm1, settled. destruct (lastWasDirectRender fm); reflexivity. }
  assert (Hr1 : requestedPath fm1 = path_string (path file)) by reflexivity.
  assert (Hl1 : lastWasDirectRender fm1 = false).
  { unfold fm1, settled. destruct (lastWasDirectRender fm) eqn:E;
      [reflexivity|exact E]. }
  rewrite Hc1, Hc, Hr1, String.eqb_refl.
  unfold header, settled. rewrite Hl1. reflexivity.
Qed.

(** **** From the request to the picture *)

(** X16.  After a render has started a worker for a picture or a video
    and that worker has stored its payload, the next render of the same
    entry paints that payload at the origin of the preview window and
    remembers that it drew outside curses.  When the payload is empty (the
    conversion produced nothing) the render paints the frame and the
    details only and starts no worker: the preview is not tried again
    while the cursor stays. *)
Theorem preview_arrives (w : W) (g : geometry) (fm fm1 : FileManager)
    (t : ticket) (file : FileEntry) (out : list paint) (payload : string)
    (text : list string) :
  currentFiles fm !! selectedIndex fm = Some file ->
  previewed file = true ->
  count CODE_EXTS (extension file) = false ->
  drawPreview w g [] fm = (out, fm1, Some t) ->
  let fm2 := signal (MkWorker t payload text)
               (commit (MkWorker t payload text) fm1) in
  imageReady fm2 = true
  /\ (payload <> "" ->
      exists fm3,
        drawPreview w g [] fm2
        = ([PaintFrame; PaintDetails (name file) (size file);
            PaintImage payload (pY g) (pX g)], fm3, None)
        /\ lastWasDirectRender fm3 = true)
  /\ (payload = "" ->
      drawPreview w g [] fm2
      = ([PaintFrame; PaintDetails (name file) (size file)], fm2, None)).
Proof.
  intros Hf Hprev Hcode Hdraw.
  rewrite (drawPreview_previewed w g [] fm file Hf Hprev) in Hdraw.
  destruct (String.eqb (cachedPath fm) (path_string (path file)));
    [discriminate|].
  destruct (String.eqb (requestedPath fm) (path_string (path file)));
    [discriminate|].
  assert (Hkind : kind file = IMAGE) by (unfold kind; now rewrite Hcode).
  rewrite Hkind in Hdraw. cbn [startAsyncPreview fst snd] in Hdraw.
  injection Hdraw as _ Hfm1 Ht.
  assert (Hid : reqId t = requestID fm1) by (subst t fm1; reflexivity).
  assert (Htp : t_path t = path_string (path file)) by (subst t; reflexivity).
  assert (Hty : t_type t = IMAGE) by (subst t; reflexivity).
  assert (Hl1 : lastWasDirectRender fm1 = false).
  { subst fm1. unfold settled.
    destruct (lastWasDirectRender fm) eqn:E; [reflexivity|exact E]. }
  assert (Hf1 : currentFiles fm1 !! selectedIndex fm1 = Some file).
  { subst fm1. unfold settled. destruct (lastWasDirectRender fm); exact Hf. }
  clear Hfm1 Ht. cbv zeta.
  set (wk := MkWorker t payload text).
  assert (Hcommit : commit wk fm1
                    = set_cachedPath (path_string (path file))
                        (set_cachedBase64 payload fm1)).
  { unfold commit, wk. cbn [job b64 lines]. rewrite Hid, Z.eqb_refl, Hty, Htp.
    destruct (decide (IMAGE = IMAGE)); [reflexivity|contradiction]. }
  assert (Hsignal : signal wk (commit wk fm1)
                    = set_imageReady true (commit wk fm1)).
  { unfold signal. rewrite Hcommit. cbn [wk job requestID set_cachedPath
      set_cachedBase64]. now rewrite Hid, Z.eqb_refl. }
  rewrite Hsignal, Hcommit.
  set (fm2 := set_imageReady true _).
  split; [reflexivity|].
  assert (Hf2 : currentFiles fm2 !! selectedIndex fm2 = Some file)
    by exact Hf1.
  rewrite (drawPreview_previewed w g [] fm2 file Hf2 Hprev).
  assert (Hc2 : cachedPath fm2 = path_string (path file)) by reflexivity.
  rewrite Hc2, String.eqb_refl, Hkind. cbv zeta. cbn [fold_left].
  assert (Hs2 : settled fm2 = fm2).
  { unfold settled.
    assert (Hl2 : lastWasDirectRender fm2 = false) by exact Hl1.
    now rewrite Hl2. }
  assert (Hh2 : header fm2 file
                = [PaintFrame; PaintDetails (name file) (size file)]).
  { unfold header.
    assert (Hl2 : lastWasDirectRender fm2 = false) by exact Hl1.
    now rewrite Hl2. }
  rewrite Hs2, Hh2. unfold drawFromCache.
  assert (Hb2 : cachedBase64 fm2 = payload) by reflexivity.
  rewrite Hb2. cbn [bool_decide decide_rel].
  split.
  - intros Hne. apply String.eqb_neq in Hne. rewrite Hne.
    rewrite bool_decide_eq_true_2 by reflexivity.
    cbn [andb negb fst snd app]. eexists. split; reflexivity.
  - intros ->. rewrite bool_decide_eq_true_2 by reflexivity.
    rewrite (bool_decide_eq_false_2 (IMAGE = TEXT)) by discriminate.
    cbn [String.eqb andb negb fst snd app]. reflexivity.
Qed.

(** **** What the text previews put on the screen *)

Lemma cached_lines_closed (text : list string) (g : geometry) :
  forall limit i,
    cached_lines text limit i g
    = imap (fun k l => PaintCachedLine (pY g + 7 + (i + Z.of_nat k))
                                       (pX g + 2) l)
           (take limit text).
Proof.
  induction text as [|l rest IH]; intros limit i.
  - destruct limit; reflexivity.
  - destruct limit as [|limit]; [reflexivity|].
    cbn [cached_lines take imap]. f_equal.
    + f_equal. lia.
    + rewrite IH. apply imap_ext. intros k x _. cbn. f_equal. lia.
Qed.

(** X17.  With text in the slot, [drawFromCache] for a text preview writes
    the first lines of the slot, at most [pH - 8] of them, on consecutive
    screen rows from [pY + 7] at column [pX + 2], and records a direct
    render, also when no line fits. *)
Theorem drawFromCache_text_window (g : geometry) (fm : FileManager) :
  cachedTextLines fm <> [] ->
  drawFromCache TEXT g fm
  = (imap (fun k l => PaintCachedLine (pY g + 7 + Z.of_nat k) (pX g + 2) l)
          (take (Z.to_nat (pH g - 8)) (cachedTextLines fm)),
     set_lastWasDirectRender true fm).
Proof.
  intros Hne. unfold drawFromCache.
  rewrite (bool_decide_eq_false_2 (TEXT = IMAGE)) by discriminate.
  rewrite (bool_decide_eq_true_2 (TEXT = TEXT)) by reflexivity.
  rewrite (bool_decide_eq_false_2 _ Hne). cbn [andb negb].
  f_equal. rewrite cached_lines_closed.
  replace (take (Z.to_nat (Z.min (Z.of_nat (length (cachedTextLines fm)))
                                 (pH g - 8))) (cachedTextLines fm))
    with (take (Z.to_nat (pH g - 8)) (cachedTextLines fm)).
  - apply imap_ext. intros k x _. cbn. reflexivity.
  - destruct (Z.le_ge_cases (pH g - 8)
                            (Z.of_nat (length (cachedTextLines fm)))).
    + now rewrite Z.min_r.
    + rewrite Z.min_l, Nat2Z.id by assumption.
      rewrite firstn_all. apply take_ge. lia.
Qed.

Lemma chars_replace_tabs (s : string) :
  (tab ∉ list_ascii_of_string (replace_tabs s))
  /\ String.length (replace_tabs s) = String.length s.
Proof.
  induction s as [|c s [IH1 IH2]]; cbn [replace_tabs list_ascii_of_string].
  - split; [apply not_elem_of_nil|reflexivity].
  - split; [|cbn; now rewrite IH2].
    rewrite not_elem_of_cons. split; [|exact IH1].
    destruct (Ascii.eqb_spec c tab) as [->|Hne]; [discriminate|congruence].
Qed.

Lemma chars_substring (s : string) :
  forall n, list_ascii_of_string (String.substring 0 n s)
            = take n (list_ascii_of_string s).
Proof.
  induction s as [|c s IH]; intros [|n]; cbn; try reflexivity.
  now rewrite IH.
Qed.

Lemma clip_substring (s : string) (maxW : Z) :
  (if longer_than s maxW then substr0 s maxW else s)
  = String.substring 0 (to_size_t maxW) s.
Proof.
  unfold longer_than, substr0.
  destruct (Nat.ltb_spec (to_size_t maxW) (String.length s)) as [_|Hle];
    [reflexivity|].
  replace (to_size_t maxW)
    with (String.length s + (to_size_t maxW - String.length s)) by lia.
  rewrite substring_append, substring_zero_length.
  rewrite Nat.add_0_l, substring_past_end by lia.
  now rewrite append_empty_r.
Qed.

Lemma raw_lines_closed (g : geometry) (ls : list string) :
  forall line,
    raw_lines g ls line
    = imap (fun k l =>
              PaintRawLine (line + Z.of_nat k)
                (String.substring 0 (to_size_t (pW g - 4)) (replace_tabs l)))
           (take (Z.to_nat (height g - 2 - line)) ls).
Proof.
  induction ls as [|l rest IH]; intros line.
  - now rewrite take_nil.
  - cbn [raw_lines].
    destruct (Z.leb_spec (height g - 2) line) as [Hle|Hlt].
    + replace (Z.to_nat (height g - 2 - line)) with 0 by lia. reflexivity.
    + replace (Z.to_nat (height g - 2 - line))
        with (S (Z.to_nat (height g - 2 - (line + 1)))) by lia.
      cbn [take imap]. cbv zeta. rewrite clip_substring. f_equal.
      * f_equal. lia.
      * rewrite IH. apply imap_ext. intros k x _. cbn. f_equal. lia.
Qed.

(** X18.  The raw preview of a file writes the first lines it is given,
    one per screen row from row 7 and ending before row [height - 2];
    each line is written with its tabs turned into spaces and cut to the
    width [pW - 4], so that what is written holds no tab and is no longer
    than that width or than the line. *)
Theorem raw_lines_fit (g : geometry) (ls : list string) :
  raw_lines g ls 7
  = imap (fun k l =>
            PaintRawLine (7 + Z.of_nat k)
              (String.substring 0 (to_size_t (pW g - 4)) (replace_tabs l)))
         (take (Z.to_nat (height g - 9)) ls)
  /\ forall l,
       let text :=
         String.substring 0 (to_size_t (pW g - 4)) (replace_tabs l) in
       (tab ∉ list_ascii_of_string text)
       /\ String.length text <= to_size_t (pW g - 4)
       /\ String.length text <= String.length l.
Proof.
  split.
  - rewrite raw_lines_closed.
    replace (height g - 2 - 7)%Z with (height g - 9)%Z by lia. reflexivity.
  - intros l text. subst text.
    destruct (chars_replace_tabs l) as [Hno Hlen].
    rewrite chars_substring, length_substring, Hlen.
    split; [|lia].
    intros Hin. apply Hno. apply elem_of_take in Hin as (i & Hi & _).
    apply list_elem_of_lookup. now exists i.
Qed.

Lemma shown_name_fits (g : geometry) (n : string) :
  (7 <= pW g < 2 ^ 64)%Z ->
  String.length (shown_name g n) <= to_size_t (pW g - 4).
Proof.
  intros HpW. unfold shown_name, longer_than, substr0.
  destruct (Nat.ltb_spec (to_size_t (pW g - 4)) (String.length n))
    as [Hlong|Hshort]; [|exact Hshort].
  rewrite length_append, length_substring. cbn [String.length].
  unfold to_size_t in *.
  rewrite !Z.mod_small in * by lia. lia.
Qed.

Lemma dir_lines_closed (w : W) (dir : fspath) (sh : bool) (g : geometry)
    (names : list string) :
  forall line,
    let shown :=
      take (Z.to_nat (height g - 2 - line))
           (filter (fun n => visible sh n = true) names) in
    exists m,
      m <= length shown
      /\ dir_lines w dir sh g names line
         = imap (fun k n =>
                   PaintDirLine (line + Z.of_nat k)
                     (default false (fs_is_directory w (append dir n)))
                     (shown_name g n)) (take m shown)
      /\ Forall (fun n => is_Some (fs_is_directory w (append dir n)))
                (take m shown)
      /\ (m < length shown ->
          exists n, shown !! m = Some n
                    /\ fs_is_directory w (append dir n) = None).
Proof.
  induction names as [|n rest IH]; intros line; cbv zeta.
  - exists 0. rewrite filter_nil, take_nil. cbn.
    split; [lia|]. split; [reflexivity|]. split; [constructor|lia].
  - cbn [dir_lines].
    destruct (negb sh && starts_with_dot n) eqn:Ehid.
    { rewrite filter_cons_False by (unfold visible; rewrite Ehid; discriminate).
      apply IH. }
    rewrite filter_cons_True by (unfold visible; now rewrite Ehid).
    destruct (Z.leb_spec (height g - 2) line) as [Hle|Hlt].
    { exists 0. replace (Z.to_nat (height g - 2 - line)) with 0 by lia.
      cbn. split; [lia|]. split; [reflexivity|]. split; [constructor|lia]. }
    replace (Z.to_nat (height g - 2 - line))
      with (S (Z.to_nat (height g - 2 - (line + 1)))) by lia.
    cbn [take]. cbv zeta.
    destruct (fs_is_directory w (append dir n)) as [d|] eqn:Ed.
    + destruct (IH (line + 1)%Z) as (m & Hm & Hrun & Hall & Hstop).
      cbv zeta in Hm, Hrun, Hall, Hstop.
      exists (S m). cbn [take length imap lookup list_lookup].
      split; [lia|]. split; [|split].
      * rewrite Ed. cbn [default]. f_equal.
        -- unfold shown_name, id. f_equal. lia.
        -- rewrite Hrun. apply imap_ext. intros k x _. cbn.
           f_equal. lia.
      * constructor; [rewrite Ed; eauto|exact Hall].
      * intros Hlt'. apply Hstop. lia.
    + exists 0. cbn. split; [lia|]. split; [reflexivity|].
      split; [constructor|]. intros _. exists n. auto.
Qed.

(** X19.  The listing of a directory in the preview pane writes one row
    per entry, in the order of the iteration, from row 8 on: the entries
    whose name starts with a period are left out unless hidden entries are
    shown, and of the others the first [height - 10] are written, each
    with its kind and its name as displayed.  The listing is cut short
    only where [fs::is_directory] throws, at the first entry it throws
    for.  In a window at least 7 columns wide every displayed name has at
    most [pW - 4] characters. *)
Theorem dir_lines_fit (w : W) (dir : fspath) (sh : bool) (g : geometry)
    (names : list string) :
  let shown :=
    take (Z.to_nat (height g - 10))
         (filter (fun n => visible sh n = true) names) in
  let row (k : nat) (n : string) :=
    PaintDirLine (8 + Z.of_nat k)
      (default false (fs_is_directory w (append dir n)))
      (shown_name g n) in
  (exists m,
     m <= length shown
     /\ dir_lines w dir sh g names 8 = imap row (take m shown)
     /\ Forall (fun n => is_Some (fs_is_directory w (append dir n)))
               (take m shown)
     /\ (m < length shown ->
         exists n, shown !! m = Some n
                   /\ fs_is_directory w (append dir n) = None))
  /\ (Forall (fun n => is_Some (fs_is_directory w (append dir n))) shown ->
      dir_lines w dir sh g names 8 = imap row shown)
  /\ ((7 <= pW g < 2 ^ 64)%Z ->
      forall n, String.length (shown_name g n) <= to_size_t (pW g - 4)).
Proof.
  intros shown row.
  destruct (dir_lines_closed w dir sh g names 8) as (m & Hm & Hrun & Hall & Hstop).
  cbv zeta in Hm, Hrun, Hall, Hstop.
  replace (height g - 2 - 8)%Z with (height g - 10)%Z in * by lia.
  fold shown in Hm, Hrun, Hall, Hstop.
  split; [|split].
  - exists m. auto.
  - intros Hsome.
    destruct (decide (m < length shown)) as [Hlt|Hge].
    + destruct (Hstop Hlt) as (n & Hn & Hnone).
      rewrite Forall_forall in Hsome.
      assert (Hin : n ∈ shown) by (apply list_elem_of_lookup; eauto).
      destruct (Hsome n Hin) as [d Hd]. congruence.
    + rewrite Hrun, take_ge by lia. reflexivity.
  - intros HpW n. now apply shown_name_fits.
Qed.

(** X20.  [is_binary_file] answers yes exactly when the file can be read
    and one of its first 512 bytes is NUL; a file that cannot be opened is
    not binary, and neither is one whose NUL bytes all come later. *)
Theorem is_binary_file_iff (w : W) (p : fspath) :
  is_binary_file w p = true
  <-> exists content i,
        fs_read w p = Some content
        /\ i < 512
        /\ String.get i content = Some NUL.
Proof.
  unfold is_binary_file.
  destruct (fs_read w p) as [content|]; [|split; [discriminate|]].
  - rewrite existsb_exists. split.
    + intros (c & Hin & Hc). apply Ascii.eqb_eq in Hc. subst c.
      apply list_elem_of_In, list_elem_of_lookup in Hin as [i Hi].
      rewrite chars_substring in Hi.
      apply lookup_take_Some in Hi as [Hi Hlt].
      exists content, i. split; [reflexivity|]. split; [exact Hlt|].
      clear -Hi. revert i Hi.
      induction content as [|c s IH]; intros [|i] Hi; cbn in *;
        try discriminate; [congruence|auto].
    + intros (content' & i & Heq & Hlt & Hget). injection Heq as <-.
      exists NUL. split; [|apply Ascii.eqb_refl].
      apply list_elem_of_In, list_elem_of_lookup. exists i.
      rewrite chars_substring. apply lookup_take_Some. split; [|exact Hlt].
      clear -Hget. revert i Hget.
      induction content as [|c s IH]; intros [|i] Hi; cbn in *;
        try discriminate; [congruence|auto].
  - intros (content & i & Heq & _). discriminate.
Qed.

End Render.

(** **** On the small file system *)

Import Toy Scenes.

(** A first render on [a.png] asks for its preview; a second one does
    not ask again. *)
Lemma drawPreview_dispatches_once_witness :
  exists fm1 t,
    drawPreview pictures window [] on_a
    = ([PaintFrame; PaintDetails "a.png" 1; PaintLoading], fm1, Some t)
    /\ reqId t = 1%Z
    /\ drawPreview pictures window [] fm1
       = ([PaintFrame; PaintDetails "a.png" 1], fm1, None).
Proof.
  edestruct (drawPreview_dispatches_once pictures window [] [] on_a)
    as (fm1 & t & Hrun & _ & _ & _ & _ & Hid & _ & _ & Hagain).
  - vm_compute. reflexivity.
  - vm_compute. reflexivity.
  - vm_compute. discriminate.
  - vm_compute. discriminate.
  - exists fm1, t. split; [exact Hrun|]. split; [exact Hid|exact Hagain].
Defined.

(** The worker of that request stores ["AAAA"], and the next render paints
    it. *)
Lemma preview_arrives_witness :
  exists fm1 t fm3,
    drawPreview pictures window [] on_a
    = ([PaintFrame; PaintDetails "a.png" 1; PaintLoading], fm1, Some t)
    /\ drawPreview pictures window []
         (signal (MkWorker t "AAAA" [])
            (commit (MkWorker t "AAAA" []) fm1))
       = ([PaintFrame; PaintDetails "a.png" 1; PaintImage "AAAA" 0 80],
          fm3, None).
Proof.
  destruct (drawPreview pictures window [] on_a) as [[out fm1] [t|]] eqn:Hrun;
    [|vm_compute in Hrun; discriminate].
  edestruct (preview_arrives pictures window on_a fm1 t a_png out "AAAA" [])
    as (_ & Hpaint & _).
  - vm_compute. reflexivity.
  - vm_compute. reflexivity.
  - vm_compute. reflexivity.
  - exact Hrun.
  - destruct Hpaint as (fm3 & Hdraw & _); [discriminate|].
    exists fm1, t, fm3. split; [|exact Hdraw].
    assert (Hout : out = [PaintFrame; PaintDetails "a.png" 1; PaintLoading]).
    { vm_compute in Hrun. congruence. }
    now rewrite Hout.
Defined.

(** In a preview window of 10 lines two of three lines are written. *)
Lemma drawFromCache_text_window_witness :
  fst (drawFromCache TEXT (MkGeometry 12 40 10 0 0) with_text)
  = [PaintCachedLine 7 2 "one"; PaintCachedLine 8 2 "two"].
Proof.
  rewrite drawFromCache_text_window; [|vm_compute; discriminate].
  vm_compute. reflexivity.
Defined.

(** The listing of [/home/u] in a window 12 columns wide on a screen of
    12 lines: two of the four visible entries, the second one cut. *)
Example dir_lines_home :
  dir_lines home home_u false (MkGeometry 12 12 11 0 0)
            (fst (fs_list home home_u)) 8
  = [PaintDirLine 8 true "zeta"; PaintDirLine 9 false "notes..."].
Proof. vm_compute. reflexivity. Qed.

End RenderFacts.

Module ScaleFacts.
Import Size Scale.
Local Open Scope Z_scope.

Lemma formatSize_loop_least (fuel : nat) :
  forall (d : float) (i : Z),
    0 <= i <= 4 -> (Z.to_nat (4 - i) <= fuel)%nat ->
    exists k : nat,
      i + Z.of_nat k <= 4
      /\ formatSize_loop fuel d i = Some (scaled k d, i + Z.of_nat k)
      /\ (forall j : nat, (j < k)%nat ->
            PrimFloat.ltb f1024 (scaled j d) = true)
      /\ (i + Z.of_nat k < 4 -> PrimFloat.ltb f1024 (scaled k d) = false).
Proof.
  induction fuel as [|fuel IH]; intros d i Hi Hfuel.
  - assert (i = 4) by lia. subst i. exists 0%nat. cbn [formatSize_loop].
    rewrite andb_false_r. cbn [scaled].
    split; [lia|]. split; [now rewrite Z.add_0_r|]. split; intros; lia.
  - cbn [formatSize_loop].
    destruct (PrimFloat.ltb f1024 d) eqn:Hgt;
      [destruct (Z.ltb_spec i 4) as [Hlt|Hge]|]; cbn [andb].
    + destruct (IH (PrimFloat.div d f1024) (i + 1)) as (k & Hk & Hrun & Hbig & Hend);
        [lia|lia|].
      exists (S k). split; [lia|]. cbn [scaled].
      split; [rewrite Hrun; do 2 f_equal; lia|].
      split.
      * intros [|j] Hj; cbn [scaled]; [exact Hgt|]. apply Hbig. lia.
      * intros Hlt4. apply Hend. lia.
    + exists 0%nat. cbn [scaled]. split; [lia|].
      split; [now rewrite Z.add_0_r|]. split; intros; lia.
    + exists 0%nat. cbn [scaled]. split; [lia|].
      split; [now rewrite Z.add_0_r|]. split; [intros; lia|]. intros _. exact Hgt.
Qed.

(** X21.  The unit [formatSize] prints is the first one under which the
    value, divided by 1024 once per unit passed, is no longer above 1024,
    and TB when there is none: every smaller unit would show a value above
    1024, and the value shown is the size after that many divisions. *)
Theorem formatSize_least_unit (size : Z) :
  exists k : nat,
    (k <= 4)%nat
    /\ formatSize_loop 4 (double_of_uintmax size) 0
       = Some (scaled k (double_of_uintmax size), Z.of_nat k)
    /\ (forall j : nat, (j < k)%nat ->
          PrimFloat.ltb f1024 (scaled j (double_of_uintmax size)) = true)
    /\ ((k < 4)%nat ->
        PrimFloat.ltb f1024 (scaled k (double_of_uintmax size)) = false).
Proof.
  destruct (formatSize_loop_least 4 (double_of_uintmax size) 0)
    as (k & Hk & Hrun & Hbig & Hend); [lia|simpl; lia|].
  exists k. split; [lia|]. split; [exact Hrun|]. split; [exact Hbig|].
  intros Hlt. apply Hend. lia.
Qed.

(** A size of exactly 1024 KB is not above 1024 after one division and is
    shown in KB. *)
Example one_mebibyte :
  formatSize_loop 4 (double_of_uintmax (1024 * 1024)) 0
  = Some (scaled 1 (double_of_uintmax (1024 * 1024)), 1).
Proof. vm_compute. reflexivity. Qed.

End ScaleFacts.

Module PanesFacts.
Import Path Fs Catalog Manager Preview Panes.
Local Open Scope Z_scope.

Lemma to_size_t_small (z : Z) :
  0 <= z < 2 ^ 64 -> to_size_t z = Z.to_nat z.
Proof. intros Hz. unfold to_size_t. now rewrite Z.mod_small. Qed.

Lemma to_size_t_of_nat (n : nat) :
  Z.of_nat n < 2 ^ 64 -> to_size_t (Z.of_nat n) = n.
Proof. intros Hn. rewrite to_size_t_small by lia. apply Nat2Z.id. Qed.

Lemma to_int_small (z : Z) : - 2 ^ 31 <= z < 2 ^ 31 -> to_int z = z.
Proof. intros Hz. unfold to_int. rewrite Z.mod_small; lia. Qed.

(** **** The pane of the current directory *)

Lemma scroll_adjust_frame (maxLines : Z) (fm : FileManager) :
  currentFiles (scroll_adjust maxLines fm) = currentFiles fm
  /\ selectedIndex (scroll_adjust maxLines fm) = selectedIndex fm
  /\ multiSelection (scroll_adjust maxLines fm) = multiSelection fm.
Proof.
  unfold scroll_adjust. cbv zeta.
  destruct (selectedIndex fm <? scrollOffset fm)%nat;
    match goal with |- context [if ?b then _ else _] => destruct b end;
    repeat split; reflexivity.
Qed.

Lemma scroll_adjust_window (maxLines : Z) (fm : FileManager) :
  1 <= maxLines < 2 ^ 31 ->
  Z.of_nat (selectedIndex fm) < 2 ^ 31 ->
  Z.of_nat (scrollOffset (scroll_adjust maxLines fm))
  <= Z.of_nat (selectedIndex fm)
  < Z.of_nat (scrollOffset (scroll_adjust maxLines fm)) + maxLines.
Proof.
  intros Hm Hsel. unfold scroll_adjust. cbv zeta.
  set (fm1 := if (selectedIndex fm <? scrollOffset fm)%nat
              then set_scrollOffset (selectedIndex fm) fm else fm).
  assert (H1 : selectedIndex fm1 = selectedIndex fm
               /\ (scrollOffset fm1 <= selectedIndex fm)%nat).
  { unfold fm1. destruct (Nat.ltb_spec (selectedIndex fm) (scrollOffset fm));
      cbn [selectedIndex scrollOffset set_scrollOffset]; split; lia. }
  destruct H1 as [Hs1 Ho1]. rewrite Hs1.
  rewrite to_size_t_small by lia.
  destruct (Nat.leb_spec (Z.to_nat (Z.of_nat (scrollOffset fm1) + maxLines))
                         (selectedIndex fm)) as [Hle|Hgt].
  - cbn [scrollOffset set_scrollOffset].
    rewrite to_size_t_small by lia. lia.
  - lia.
Qed.

Lemma current_rows_spec (cW : Z) (focusPinned : bool) (fm : FileManager)
    (remaining : nat) :
  forall i,
    0 <= i ->
    Z.of_nat (length (currentFiles fm)) < 2 ^ 31 ->
    Z.of_nat (scrollOffset fm) + i + Z.of_nat remaining < 2 ^ 32 ->
    exists rs,
      current_rows remaining i cW focusPinned fm = Some rs
      /\ Z.of_nat (length rs)
         = Z.max 0 (Z.min (Z.of_nat remaining)
                      (Z.of_nat (length (currentFiles fm))
                       - (Z.of_nat (scrollOffset fm) + i)))
      /\ forall (k : nat) r,
           rs !! k = Some r ->
           r_line r = i + Z.of_nat k + 1
           /\ Z.of_nat (r_index r)
              = Z.of_nat (scrollOffset fm) + i + Z.of_nat k
           /\ currentFiles fm !! r_index r = Some (r_entry r)
           /\ r_cursor r
              = negb focusPinned && (r_index r =? selectedIndex fm)%nat
           /\ r_marked r
              = bool_decide (path (r_entry r) ∈ multiSelection fm)
           /\ r_text r = current_text cW (r_entry r).
Proof.
  induction remaining as [|remaining IH]; intros i Hi Hlen Hbound.
  - exists []. split; [reflexivity|]. split; [cbn; lia|].
    intros k r Hk. rewrite lookup_nil in Hk. discriminate.
  - cbn [current_rows].
    rewrite (to_size_t_small (Z.of_nat (scrollOffset fm) + i)) by lia.
    destruct (Nat.ltb_spec (Z.to_nat (Z.of_nat (scrollOffset fm) + i))
                           (length (currentFiles fm))) as [Hin|Hout].
    + cbv zeta. rewrite to_int_small by lia.
      rewrite (to_size_t_small (Z.of_nat (scrollOffset fm) + i)) by lia.
      destruct (lookup_lt_is_Some_2 _ _ Hin) as [file Hfile].
      rewrite Hfile.
      destruct (IH (i + 1)) as (rest & Hrest & Hcount & Hrows); [lia|lia|lia|].
      rewrite Hrest. eexists. split; [reflexivity|].
      split; [cbn [length]; lia|].
      intros [|k] r Hk; cbn in Hk.
      * injection Hk as <-. cbn [r_line r_index r_entry r_cursor r_marked r_text].
        split; [lia|]. split; [lia|]. split; [exact Hfile|].
        repeat split; reflexivity.
      * destruct (Hrows k r Hk) as (H1 & H2 & H3).
        split; [lia|]. split; [lia|exact H3].
    + exists []. split; [reflexivity|]. split; [cbn; lia|].
      intros k r Hk. rewrite lookup_nil in Hk. discriminate.
Qed.

(** X22.  On a screen of at least 4 lines, with the cursor on an entry,
    [drawCurrent] moves the scroll offset so that the cursor lies in the
    window of [height - 3] rows, reads every row's entry within the
    catalog, draws the rows of consecutive entries from the scroll offset
    on, and draws the row of the entry under the cursor, highlighted
    unless the pinned pane has the focus. *)
Theorem drawCurrent_shows_cursor (height cW : Z) (focusPinned : bool)
    (fm : FileManager) :
  4 <= height < 2 ^ 31 ->
  (selectedIndex fm < length (currentFiles fm))%nat ->
  Z.of_nat (length (currentFiles fm)) < 2 ^ 31 ->
  exists rs fm',
    drawCurrent height cW focusPinned fm = (Some rs, fm')
    /\ currentFiles fm' = currentFiles fm
    /\ selectedIndex fm' = selectedIndex fm
    /\ Z.of_nat (scrollOffset fm') <= Z.of_nat (selectedIndex fm)
       < Z.of_nat (scrollOffset fm') + (height - 3)
    /\ Z.of_nat (length rs)
       = Z.min (height - 3)
           (Z.of_nat (length (currentFiles fm))
            - Z.of_nat (scrollOffset fm'))
    /\ (forall (k : nat) r,
          rs !! k = Some r ->
          r_line r = Z.of_nat k + 1
          /\ r_index r = (scrollOffset fm' + k)%nat
          /\ currentFiles fm !! (scrollOffset fm' + k)%nat
             = Some (r_entry r))
    /\ exists r,
         rs !! (selectedIndex fm - scrollOffset fm')%nat = Some r
         /\ currentFiles fm !! selectedIndex fm = Some (r_entry r)
         /\ r_cursor r = negb focusPinned.
Proof.
  intros Hh Hsel Hlen. unfold drawCurrent. cbv zeta.
  set (fm' := scroll_adjust (height - 3) fm).
  destruct (scroll_adjust_frame (height - 3) fm) as (Hcf & Hsi & _).
  pose proof (scroll_adjust_window (height - 3) fm) as Hwin.
  fold fm' in Hcf, Hsi, Hwin.
  assert (Hw : Z.of_nat (scrollOffset fm') <= Z.of_nat (selectedIndex fm)
               < Z.of_nat (scrollOffset fm') + (height - 3)) by (apply Hwin; lia).
  clear Hwin.
  destruct (current_rows_spec cW focusPinned fm' (Z.to_nat (height - 3)) 0)
    as (rs & Hrun & Hcount & Hrows).
  { lia. }
  { rewrite Hcf. exact Hlen. }
  { lia. }
  rewrite Hcf, Hsi in *.
  exists rs, fm'. split; [now rewrite Hrun|].
  split; [exact Hcf|]. split; [exact Hsi|]. split; [exact Hw|].
  split; [lia|]. split.
  - intros k r Hk. destruct (Hrows k r Hk) as (H1 & H2 & H3 & _).
    assert (Hidx : r_index r = (scrollOffset fm' + k)%nat) by lia.
    split; [lia|]. split; [exact Hidx|]. now rewrite <- Hidx.
  - assert (Hk : (selectedIndex fm - scrollOffset fm' < length rs)%nat) by lia.
    destruct (lookup_lt_is_Some_2 _ _ Hk) as [r Hr].
    exists r. split; [exact Hr|].
    destruct (Hrows _ r Hr) as (_ & H2 & H3 & H4 & _).
    assert (Hidx : r_index r = selectedIndex fm) by lia.
    rewrite Hidx in H3, H4. split; [exact H3|].
    rewrite H4, Nat.eqb_refl. apply andb_true_r.
Qed.

(** **** The pane of the parent directory *)

Lemma find_path_first (p : fspath) (files : list FileEntry) :
  forall i k,
    find_path files p i = Some k ->
    exists j e,
      k = (i + j)%nat /\ files !! j = Some e /\ path e = p.
Proof.
  induction files as [|f rest IH]; intros i k Hk; cbn in Hk;
    [discriminate|].
  destruct (bool_decide_reflect (path f = p)) as [Heq|_].
  - injection Hk as <-. exists 0%nat, f.
    split; [lia|]. split; [reflexivity|exact Heq].
  - destruct (IH _ _ Hk) as (j & e & -> & Hj & He).
    exists (S j), e. split; [lia|]. split; assumption.
Qed.

Lemma parent_rows_spec (pW start : Z) (fm : FileManager)
    (remaining : nat) :
  forall i,
    0 <= i -> 0 <= start ->
    start + i + Z.of_nat remaining < 2 ^ 64 ->
    exists rs,
      parent_rows remaining i start pW fm = Some rs
      /\ Z.of_nat (length rs)
         = Z.max 0 (Z.min (Z.of_nat remaining)
                      (Z.of_nat (length (parentFiles fm)) - (start + i)))
      /\ forall (k : nat) r,
           rs !! k = Some r ->
           r_line r = i + Z.of_nat k + 1
           /\ Z.of_nat (r_index r) = start + i + Z.of_nat k
           /\ parentFiles fm !! r_index r = Some (r_entry r)
           /\ r_cursor r = (start + i + Z.of_nat k =? highlight fm)
           /\ r_text r = parent_text pW (r_entry r).
Proof.
  induction remaining as [|remaining IH]; intros i Hi Hs Hbound.
  - exists []. split; [reflexivity|]. split; [cbn; lia|].
    intros k r Hk. rewrite lookup_nil in Hk. discriminate.
  - cbn [parent_rows].
    rewrite (to_size_t_small (start + i)) by lia.
    destruct (Nat.ltb_spec (Z.to_nat (start + i))
                           (length (parentFiles fm))) as [Hin|Hout].
    + destruct (lookup_lt_is_Some_2 _ _ Hin) as [file Hfile].
      rewrite Hfile.
      destruct (IH (i + 1)) as (rest & Hrest & Hcount & Hrows); [lia|lia|lia|].
      rewrite Hrest. eexists. split; [reflexivity|].
      split; [cbn [length]; lia|].
      intros [|k] r Hk; cbn in Hk.
      * injection Hk as <-. cbn [r_line r_index r_entry r_cursor r_text].
        split; [lia|]. split; [lia|]. split; [exact Hfile|].
        split; [f_equal; lia|reflexivity].
      * destruct (Hrows k r Hk) as (H1 & H2 & H3 & H4 & H5).
        split; [lia|]. split; [lia|]. split; [exact H3|].
        split; [rewrite H4; f_equal; lia|exact H5].
    + exists []. split; [reflexivity|]. split; [cbn; lia|].
      intros k r Hk. rewrite lookup_nil in Hk. discriminate.
Qed.

(** X23.  In a parent window that shows at least one entry, when the
    current directory is among the entries of the parent, [drawParent]
    starts its window so that the row of the current directory is inside
    it, reads every row's entry within the list, and draws that row
    highlighted. *)
Theorem drawParent_shows_current (pH pW : Z) (fm : FileManager) (h : nat) :
  3 <= pH < 2 ^ 31 ->
  Z.of_nat (length (parentFiles fm)) < 2 ^ 31 ->
  find_path (parentFiles fm) (currentPath fm) 0 = Some h ->
  let start := parent_start (pH - 2) fm in
  exists rs,
    drawParent pH pW fm = Some rs
    /\ 0 <= start <= Z.of_nat h
    /\ Z.of_nat h < start + (pH - 2)
    /\ Z.of_nat (length rs)
       = Z.min (pH - 2) (Z.of_nat (length (parentFiles fm)) - start)
    /\ (forall (k : nat) r,
          rs !! k = Some r ->
          r_line r = Z.of_nat k + 1
          /\ Z.of_nat (r_index r) = start + Z.of_nat k
          /\ parentFiles fm !! r_index r = Some (r_entry r))
    /\ exists r,
         rs !! (h - Z.to_nat start)%nat = Some r
         /\ r_index r = h
         /\ path (r_entry r) = currentPath fm
         /\ r_cursor r = true.
Proof.
  intros HpH Hlen Hfind start.
  destruct (find_path_first _ _ _ _ Hfind) as (j & e & Hj & He & Hpath).
  cbn in Hj. subst j.
  pose proof (lookup_lt_Some _ _ _ He) as Hh.
  assert (Hhl : highlight fm = Z.of_nat h).
  { unfold highlight. rewrite Hfind. apply to_int_small. lia. }
  assert (Hq : 0 <= Z.quot (pH - 2) 2 < pH - 2).
  { split; [apply Z.quot_pos; lia|apply Z.quot_lt; lia]. }
  assert (Hstart : 0 <= start <= Z.of_nat h
                   /\ Z.of_nat h < start + (pH - 2)
                   /\ start <= Z.of_nat (length (parentFiles fm))).
  { subst start. unfold parent_start. cbv zeta. rewrite Hhl.
    set (start0 := if Z.quot (pH - 2) 2 <? Z.of_nat h
                   then Z.of_nat h - Z.quot (pH - 2) 2 else 0).
    assert (H0 : 0 <= start0 <= Z.of_nat h
                 /\ Z.of_nat h < start0 + (pH - 2)).
    { unfold start0. destruct (Z.ltb_spec (Z.quot (pH - 2) 2) (Z.of_nat h)); lia. }
    rewrite (to_size_t_small (start0 + (pH - 2))) by lia.
    rewrite (to_size_t_small (pH - 2)) by lia.
    destruct (Nat.ltb_spec (length (parentFiles fm))
                           (Z.to_nat (start0 + (pH - 2))));
      destruct (Nat.ltb_spec (Z.to_nat (pH - 2)) (length (parentFiles fm)));
      cbn [andb]; rewrite ?to_int_small by lia; lia. }
  destruct Hstart as (Hstart & Hend & Hsl).
  unfold drawParent. cbv zeta. fold start.
  destruct (parent_rows_spec pW start fm (Z.to_nat (pH - 2)) 0)
    as (rs & Hrun & Hcount & Hrows); [lia|lia|lia|].
  exists rs. split; [exact Hrun|]. split; [exact Hstart|].
  split; [exact Hend|]. split; [lia|]. split.
  - intros k r Hk. destruct (Hrows k r Hk) as (H1 & H2 & H3 & _).
    split; [lia|]. split; [lia|exact H3].
  - assert (Hk : (h - Z.to_nat start < length rs)%nat) by lia.
    destruct (lookup_lt_is_Some_2 _ _ Hk) as [r Hr].
    exists r. split; [exact Hr|].
    destruct (Hrows _ r Hr) as (_ & H2 & H3 & H4 & _).
    assert (Hidx : r_index r = h) by lia.
    split; [exact Hidx|]. rewrite Hidx in H3.
    assert (r_entry r = e) by congruence. subst e.
    split; [exact Hpath|]. rewrite H4, Hhl. apply Z.eqb_eq. lia.
Qed.

(** **** On the small file system *)

Import Toy Scenes.

(** On a screen of 5 lines the pane shows two rows; with the cursor on the
    fourth entry of [/home/u] they are the third and the fourth. *)
Lemma drawCurrent_shows_cursor_witness :
  exists rs fm',
    drawCurrent 5 40 false at_home = (Some rs, fm')
    /\ scrollOffset fm' = 2%nat
    /\ Z.of_nat (length rs) = 2.
Proof.
  destruct (drawCurrent_shows_cursor 5 40 false at_home)
    as (rs & fm' & Hrun & _ & _ & Hwin & Hcount & _).
  - lia.
  - vm_compute. lia.
  - vm_compute. reflexivity.
  - exists rs, fm'. split; [exact Hrun|].
    assert (Hfm : fm' = snd (drawCurrent 5 40 false at_home))
      by now rewrite Hrun.
    assert (Hso : scrollOffset fm' = 2%nat)
      by (rewrite Hfm; vm_compute; reflexivity).
    split; [exact Hso|]. rewrite Hcount, Hso. vm_compute. reflexivity.
Defined.

(** From [/home/u/zeta], a parent window of 3 lines shows one row, that
    of [zeta]. *)
Lemma drawParent_shows_current_witness :
  exists rs r,
    drawParent 3 20 in_zeta = Some rs
    /\ rs !! 0%nat = Some r
    /\ name (r_entry r) = "zeta"
    /\ r_cursor r = true.
Proof.
  destruct (drawParent_shows_current 3 20 in_zeta 1)
    as (rs & Hrun & _ & _ & _ & _ & r & Hr & Hidx & _ & Hcur).
  - lia.
  - vm_compute. reflexivity.
  - vm_compute. reflexivity.
  - exists rs, r. split; [exact Hrun|].
    assert (Hrs : Some rs = drawParent 3 20 in_zeta) by now rewrite Hrun.
    assert (Hk : (1 - Z.to_nat (parent_start (3 - 2) in_zeta) = 0)%nat)
      by (vm_compute; reflexivity).
    rewrite Hk in Hr. split; [exact Hr|]. split; [|exact Hcur].
    vm_compute in Hrs. injection Hrs as ->.
    cbn in Hr. injection Hr as <-. reflexivity.
Defined.

End PanesFacts.

Module PinsFacts.
Import Path Fs Catalog Manager Preview Pins CatalogFacts ManagerFacts PreviewFacts.

Lemma pinned_already (cur : fspath) (pins : list fspath) :
  existsb (fun p => bool_decide (p = cur)) pins = true <-> cur ∈ pins.
Proof.
  rewrite existsb_exists. split.
  - intros (p & Hin & Hp). apply bool_decide_eq_true in Hp. subst p.
    now apply list_elem_of_In.
  - intros Hin. exists cur. split; [now apply list_elem_of_In|].
    now apply bool_decide_eq_true.
Qed.

(** X24.  [handlePin] never pins a directory twice: on a list of distinct
    pins it leaves a list of distinct pins that holds the current
    directory.  A directory already pinned changes neither the list nor
    the pin file; a new one is added at the end and the whole list is
    written to the pin file.  The index of the pinned pane stays. *)
Theorem handlePin_distinct (s : Pinned) :
  NoDup (pinnedPaths s) ->
  let cur := currentPath (base s) in
  let s' := handlePin s in
  NoDup (pinnedPaths s')
  /\ cur ∈ pinnedPaths s'
  /\ pinnedIndex s' = pinnedIndex s
  /\ (cur ∈ pinnedPaths s ->
      pinnedPaths s' = pinnedPaths s
      /\ pinFile s' = pinFile s
      /\ statusMessage (base s') = "Already pinned")
  /\ (cur ∉ pinnedPaths s ->
      pinnedPaths s' = pinnedPaths s ++ [cur]
      /\ pinFile s' = Some (pins_text (pinnedPaths s ++ [cur]))
      /\ statusMessage (base s') = "Pinned").
Proof.
  intros Hnd cur s'. subst s'. unfold handlePin. fold cur.
  destruct (existsb _ (pinnedPaths s)) eqn:Eex.
  - apply pinned_already in Eex. cbn [pinnedPaths pinnedIndex pinFile base].
    split; [exact Hnd|]. split; [exact Eex|]. split; [reflexivity|].
    split; [intros _; repeat split; reflexivity|]. intros Hn. contradiction.
  - assert (Hnot : cur ∉ pinnedPaths s).
    { intros Hin. apply pinned_already in Hin. congruence. }
    cbn [pinnedPaths pinnedIndex pinFile base savePins].
    split.
    { apply NoDup_app. split; [exact Hnd|].
      split; [|apply NoDup_singleton].
      intros x Hx Hx'. apply list_elem_of_singleton in Hx'. now subst x. }
    split; [apply elem_of_app; right; left|]. split; [reflexivity|].
    split; [intros Hin; contradiction|].
    intros _. repeat split; reflexivity.
Qed.

Lemma handleUnpin_on_pin (s : Pinned) :
  pinnedIndex s < length (pinnedPaths s) ->
  handleUnpin s
  = MkPinned (setStatus "Unpinned" (base s))
      (delete (pinnedIndex s) (pinnedPaths s))
      (if (length (delete (pinnedIndex s) (pinnedPaths s)) <=? pinnedIndex s)
          && (0 <? pinnedIndex s)
       then pinnedIndex s - 1 else pinnedIndex s)
      (focusPinned s)
      (Some (pins_text (delete (pinnedIndex s) (pinnedPaths s)))).
Proof.
  intros Hlt. unfold handleUnpin.
  destruct (pinnedPaths s) as [|p0 rest] eqn:Epins; [cbn in Hlt; lia|].
  rewrite <- Epins in *.
  rewrite (proj2 (Nat.ltb_lt _ _) Hlt). reflexivity.
Qed.

(** X25.  With the index of the pinned pane on a pin, [handleUnpin]
    removes that pin and no other, keeps the order of the rest, writes the
    remaining list to the pin file, and leaves the index on a pin: on the
    same position, or one up when the last pin was removed. *)
Theorem handleUnpin_removes (s : Pinned) (p : fspath) :
  pinnedPaths s !! pinnedIndex s = Some p ->
  let s' := handleUnpin s in
  pinnedPaths s'
  = take (pinnedIndex s) (pinnedPaths s)
    ++ drop (S (pinnedIndex s)) (pinnedPaths s)
  /\ S (length (pinnedPaths s')) = length (pinnedPaths s)
  /\ (NoDup (pinnedPaths s) -> p ∉ pinnedPaths s')
  /\ pinFile s' = Some (pins_text (pinnedPaths s'))
  /\ pinnedIndex s'
     = (if (S (pinnedIndex s) =? length (pinnedPaths s))%nat
        then pinnedIndex s - 1 else pinnedIndex s)
  /\ pinnedIndex s' <= length (pinnedPaths s') - 1
  /\ statusMessage (base s') = "Unpinned".
Proof.
  intros Hp s'. subst s'.
  pose proof (lookup_lt_Some _ _ _ Hp) as Hlt.
  rewrite (handleUnpin_on_pin s Hlt).
  cbn [pinnedPaths pinnedIndex pinFile base].
  assert (Hdel : delete (pinnedIndex s) (pinnedPaths s)
                 = take (pinnedIndex s) (pinnedPaths s)
                   ++ drop (S (pinnedIndex s)) (pinnedPaths s))
    by apply delete_take_drop.
  assert (Hlen : S (length (delete (pinnedIndex s) (pinnedPaths s)))
                 = length (pinnedPaths s)).
  { rewrite length_delete by eauto. lia. }
  split; [exact Hdel|]. split; [exact Hlen|].
  split.
  { intros Hnd Hin. rewrite Hdel in Hin.
    rewrite <- (take_drop_middle _ _ _ Hp) in Hnd.
    apply NoDup_app in Hnd as (_ & Hdisj & Hnd2).
    apply NoDup_cons in Hnd2 as [Hnotin _].
    apply elem_of_app in Hin as [Hin|Hin].
    - apply (Hdisj p Hin). left.
    - contradiction. }
  split; [reflexivity|].
  assert (Hidx :
    (if (length (delete (pinnedIndex s) (pinnedPaths s)) <=? pinnedIndex s)%nat
        && (0 <? pinnedIndex s)%nat
     then pinnedIndex s - 1 else pinnedIndex s)
    = (if (S (pinnedIndex s) =? length (pinnedPaths s))%nat
       then pinnedIndex s - 1 else pinnedIndex s)).
  { destruct (Nat.leb_spec (length (delete (pinnedIndex s) (pinnedPaths s)))
                           (pinnedIndex s));
      destruct (Nat.ltb_spec 0 (pinnedIndex s));
      destruct (Nat.eqb_spec (S (pinnedIndex s)) (length (pinnedPaths s)));
      cbn [andb]; lia. }
  rewrite Hidx. split; [reflexivity|]. split; [|reflexivity].
  destruct (Nat.eqb_spec (S (pinnedIndex s)) (length (pinnedPaths s))); lia.
Qed.

Section Jump.
Context {W : Type} `{FileSystem W} `{StdSort}.

Lemma pinned_key_kept (w : W) (s0 s : Pinned) (k : pin_key) :
  pins_kept s0 s -> pins_kept s0 (pinned_key w s k).
Proof.
  intros (Hidx & Hsub & Hfile). destruct k; unfold pinned_key.
  - destruct (pinnedPaths s) as [|p0 rest] eqn:Epins.
    + unfold pins_kept. rewrite Epins. auto.
    + rewrite <- Epins in *.
      destruct (Nat.ltb_spec (pinnedIndex s) (length (pinnedPaths s) - 1)).
      * unfold pins_kept. cbn [pinnedIndex pinnedPaths pinFile].
        split; [lia|]. split; assumption.
      * unfold pins_kept. auto.
  - destruct (Nat.ltb_spec 0 (pinnedIndex s)).
    + unfold pins_kept. cbn [pinnedIndex pinnedPaths pinFile].
      split; [lia|]. split; assumption.
    + unfold pins_kept. auto.
  - unfold jumpToPin.
    destruct (pinnedPaths s) as [|p0 rest] eqn:Epins.
    + unfold pins_kept. rewrite Epins. auto.
    + rewrite <- Epins in *.
      destruct (pinnedPaths s !! pinnedIndex s).
      * unfold pins_kept. cbn [pinnedIndex pinnedPaths pinFile]. auto.
      * unfold pins_kept. auto.
  - destruct (pinnedPaths s !! pinnedIndex s) as [p|] eqn:Ep.
    + pose proof (lookup_lt_Some _ _ _ Ep) as Hlt.
      rewrite (handleUnpin_on_pin s Hlt). unfold pins_kept.
      cbn [pinnedPaths pinnedIndex pinFile].
      assert (Hlen : S (length (delete (pinnedIndex s) (pinnedPaths s)))
                     = length (pinnedPaths s)).
      { rewrite length_delete by eauto. lia. }
      split.
      { destruct (Nat.leb_spec
                    (length (delete (pinnedIndex s) (pinnedPaths s)))
                    (pinnedIndex s));
          destruct (Nat.ltb_spec 0 (pinnedIndex s)); cbn [andb]; lia. }
      split; [|left; reflexivity].
      etransitivity; [apply sublist_delete|exact Hsub].
    + apply lookup_ge_None in Ep. unfold handleUnpin.
      destruct (pinnedPaths s) as [|p0 rest] eqn:Epins.
      * unfold pins_kept. rewrite Epins. auto.
      * rewrite <- Epins in *.
        rewrite (proj2 (Nat.ltb_ge _ _) Ep). unfold pins_kept. auto.
Qed.

(** X26.  Whatever keys the pinned pane receives while it has the focus
    (down, up, Enter, [d]), its index stays on a pin (or at 0 when no pin
    is left), the pins left are pins that were there before, in the same
    order, and once a pin has been removed the pin file holds the list
    that is in memory. *)
Theorem pinned_keys_keep_index (w : W) (keys : list pin_key) (s : Pinned) :
  pinnedIndex s <= length (pinnedPaths s) - 1 ->
  let s' := fold_left (pinned_key w) keys s in
  pinnedIndex s' <= length (pinnedPaths s') - 1
  /\ sublist (pinnedPaths s') (pinnedPaths s)
  /\ (pinFile s' = Some (pins_text (pinnedPaths s'))
      \/ (pinnedPaths s' = pinnedPaths s /\ pinFile s' = pinFile s)).
Proof.
  intros Hidx. cbv zeta.
  assert (Hgen : forall st, pins_kept s st ->
                            pins_kept s (fold_left (pinned_key w) keys st)).
  { induction keys as [|k keys IH]; intros st Hst; cbn [fold_left];
      [exact Hst|].
    apply IH, pinned_key_kept, Hst. }
  apply (Hgen s). unfold pins_kept. split; [exact Hidx|].
  split; [reflexivity|]. right. split; reflexivity.
Qed.

(** X27.  With the index of the pinned pane on a pin, [jumpToPin] makes
    that pin the current directory, loads its catalog, empties the
    selection and gives the focus back to the files; the cursor index is
    kept as it is, and the clamp that [run] applies before it draws puts
    it on an entry of the new catalog (or at 0 when there is none). *)
Theorem jumpToPin_lands (w : W) (s : Pinned) (p : fspath) :
  pinnedPaths s !! pinnedIndex s = Some p ->
  let s' := jumpToPin w s in
  currentPath (base s') = p
  /\ currentFiles (base s')
     = fst (loadDirectory w (showHidden (base s)) p)
  /\ multiSelection (base s') = ∅
  /\ focusPinned s' = false
  /\ selectedIndex (base s') = selectedIndex (base s)
  /\ statusMessage (base s') = "Jumped to pin"
  /\ pinnedPaths s' = pinnedPaths s
  /\ selectedIndex (clamp_selection (base s'))
     <= length (currentFiles (base s')) - 1.
Proof.
  intros Hp s'. subst s'. unfold jumpToPin. rewrite Hp.
  destruct (pinnedPaths s) as [|p0 rest] eqn:Epins.
  { rewrite lookup_nil in Hp. discriminate. }
  cbn [base focusPinned pinnedPaths].
  destruct (reloadAll_frame w (set_currentPath p (base s)))
    as (Hcp & _ & _ & Hsi & Hsh & Hms & Hcf).
  cbn [currentPath selectedIndex showHidden set_currentPath] in Hcp, Hsi, Hcf.
  set (fm' := setStatus "Jumped to pin" _).
  change (currentPath fm') with
    (currentPath (reloadAll w (set_currentPath p (base s)))).
  change (currentFiles fm') with
    (currentFiles (reloadAll w (set_currentPath p (base s)))).
  change (multiSelection fm') with
    (multiSelection (reloadAll w (set_currentPath p (base s)))).
  change (selectedIndex fm') with
    (selectedIndex (reloadAll w (set_currentPath p (base s)))).
  change (statusMessage fm') with "Jumped to pin".
  repeat (split; [first [assumption|reflexivity]|]).
  destruct (clamp_selection_in_range fm') as (_ & Hin & Hzero).
  change (currentFiles fm') with
    (currentFiles (reloadAll w (set_currentPath p (base s)))) in Hin, Hzero.
  destruct (currentFiles (reloadAll w (set_currentPath p (base s))))
    as [|f fs] eqn:Ef.
  - rewrite Hzero by reflexivity. lia.
  - assert (Hlt : selectedIndex (clamp_selection fm') < length (f :: fs))
      by (apply Hin; discriminate).
    lia.
Qed.

End Jump.

(** **** On the small file system *)

Import Toy Scenes.

(** Pinning [/home/u] when [alpha] and [zeta] are pinned. *)
Lemma handlePin_distinct_witness :
  pinnedPaths (handlePin two_pins) = [alpha; zeta; home_u]
  /\ NoDup (pinnedPaths (handlePin two_pins)).
Proof.
  destruct (handlePin_distinct two_pins) as (Hnd & _ & _ & _ & Hnew).
  - apply (bool_decide_unpack _). vm_compute. exact I.
  - split; [|exact Hnd]. apply Hnew.
    apply (bool_decide_unpack _). vm_compute. exact I.
Defined.

(** Removing the second of two pins leaves the first and moves the index
    onto it. *)
Lemma handleUnpin_removes_witness :
  pinnedPaths (handleUnpin two_pins) = [alpha]
  /\ pinnedIndex (handleUnpin two_pins) = 0.
Proof.
  destruct (handleUnpin_removes two_pins zeta) as (Hpins & _ & _ & _ & Hidx & _).
  - reflexivity.
  - split; [rewrite Hpins|rewrite Hidx]; reflexivity.
Defined.

(** [d], [d], [d], down, Enter on two pins. *)
Lemma pinned_keys_keep_index_witness :
  pinnedIndex (fold_left (pinned_key home)
                 [PinD; PinD; PinD; PinDown; PinEnter] two_pins)
  <= length (pinnedPaths (fold_left (pinned_key home)
                            [PinD; PinD; PinD; PinDown; PinEnter] two_pins))
     - 1.
Proof.
  apply (pinned_keys_keep_index home
           [PinD; PinD; PinD; PinDown; PinEnter] two_pins).
  vm_compute. lia.
Defined.

(** Enter on the pin of [zeta]. *)
Lemma jumpToPin_lands_witness :
  currentPath (base (jumpToPin home two_pins)) = zeta
  /\ focusPinned (jumpToPin home two_pins) = false.
Proof.
  destruct (jumpToPin_lands home two_pins zeta) as (Hcp & _ & _ & Hfoc & _).
  - reflexivity.
  - split; [exact Hcp|exact Hfoc].
Defined.

End PinsFacts.

Module TextJobFacts.
Import Path Fs Catalog Manager Preview TextJob KittyFacts RenderFacts.

Lemma chars_of_list (l : list ascii) : list_ascii_of_string (string_of_list_ascii l) = l.
Proof. apply list_ascii_of_string_of_list_ascii. Qed.

Lemma chars_append (s t : string) : list_ascii_of_string (s +:+ t) = list_ascii_of_string s ++ list_ascii_of_string t.
Proof.
  induction s as [|c s IH]; [reflexivity|].
  rewrite append_cons. cbn. now rewrite IH.
Qed.

Lemma length_chars (s : string) : length (list_ascii_of_string s) = String.length s.
Proof. induction s as [|c s IH]; cbn; [reflexivity|]. now rewrite IH. Qed.

(** **** Lines read from a pipe *)

Lemma elem_of_rev {A} (x : A) (l : list A) : x ∈ rev l <-> x ∈ l.
Proof. rewrite !list_elem_of_In. symmetry. apply in_rev. Qed.

Lemma snoc_case {A} (l : list A) :
  l = [] \/ exists body c, l = body ++ [c].
Proof.
  destruct l as [|c body _] using rev_ind; [now left|].
  right. now exists body, c.
Qed.

Lemma c_string_prefix (buffer : list ascii) :
  c_string buffer `prefix_of` buffer.
Proof.
  induction buffer as [|c rest IH]; cbn; [reflexivity|].
  destruct (Ascii.eqb c NUL); [apply prefix_nil|].
  now apply prefix_cons.
Qed.

Lemma pop_newline_spec (line : list ascii) :
  (exists body, line = body ++ [newline] /\ pop_newline line = body)
  \/ (pop_newline line = line
      /\ forall body, line <> body ++ [newline]).
Proof.
  unfold pop_newline.
  destruct (snoc_case line) as [->|(body & c & ->)].
  - right. split; [reflexivity|]. intros [|? ?]; discriminate.
  - rewrite last_snoc.
    destruct (Ascii.eqb_spec c newline) as [->|Hne].
    + left. exists body. split; [reflexivity|]. apply removelast_last.
    + right. split; [reflexivity|]. intros body' Heq.
      apply app_inj_tail in Heq as [_ Heq]. contradiction.
Qed.

(** A buffer that holds a newline at its end at most gives a line
    without newline, no longer than the buffer. *)
Lemma pushed_single_row (body : list ascii) (tail : list ascii) :
  newline ∉ body ->
  tail = [] \/ tail = [newline] ->
  (newline ∉ list_ascii_of_string (pushed (body ++ tail)))
  /\ String.length (pushed (body ++ tail)) <= length (body ++ tail).
Proof.
  intros Hbody Htail. unfold pushed. rewrite chars_of_list.
  rewrite <- length_chars, chars_of_list.
  pose proof (c_string_prefix (body ++ tail)) as Hpre.
  set (line := c_string (body ++ tail)) in *.
  destruct Hpre as [k Hk].
  destruct (pop_newline_spec line) as [(b & Hline & Hpop)|[Hpop Hno]];
    rewrite Hpop.
  - assert (Hlen : length b < length (body ++ tail)).
    { rewrite Hk, Hline, !length_app. cbn. lia. }
    split; [|lia].
    rewrite Hline in Hk.
    destruct Htail as [Ht|Ht]; rewrite Ht in Hk.
    + exfalso. apply Hbody. rewrite app_nil_r in Hk. rewrite Hk.
      rewrite !elem_of_app, elem_of_cons. auto.
    + destruct (snoc_case k) as [Hk'|(k' & c & Hk')]; rewrite Hk' in Hk.
      * rewrite app_nil_r in Hk. apply app_inj_tail in Hk as [<- _].
        exact Hbody.
      * rewrite !app_assoc in Hk. apply app_inj_tail in Hk as [Hk _].
        exfalso. apply Hbody. rewrite Hk.
        rewrite !elem_of_app, elem_of_cons. auto.
  - split.
    + intros Hin.
      apply list_elem_of_split in Hin as (l1 & l2 & Hsplit).
      destruct Htail as [Ht|Ht]; rewrite Ht in Hk.
      * apply Hbody. rewrite app_nil_r in Hk. rewrite Hk, Hsplit.
        rewrite !elem_of_app, elem_of_cons. auto.
      * destruct (snoc_case (l2 ++ k)) as [Hnil|(m & c & Hm)].
        -- apply app_eq_nil in Hnil as [Hl2 _]. rewrite Hl2 in Hsplit.
           apply (Hno l1). exact Hsplit.
        -- rewrite Hsplit in Hk.
           replace ((l1 ++ newline :: l2) ++ k)
             with ((l1 ++ newline :: m) ++ [c]) in Hk.
           { apply app_inj_tail in Hk as [Hk _]. apply Hbody. rewrite Hk.
             rewrite elem_of_app, elem_of_cons. auto. }
           rewrite <- !app_assoc. cbn. f_equal. f_equal.
           rewrite <- Hm. reflexivity.
    + rewrite Hk, length_app. lia.
Qed.

Lemma fgets_lines_single_rows (s : string) :
  forall cur room,
    newline ∉ cur ->
    1 <= room ->
    length cur + room <= 1023 ->
    Forall (fun l => (newline ∉ list_ascii_of_string l) /\ String.length l <= 1023)
           (fgets_lines s cur room).
Proof.
  induction s as [|c s IH]; intros cur room Hcur Hpos Hroom;
    cbn [fgets_lines].
  - destruct cur as [|c0 cur']; [constructor|].
    constructor; [|constructor].
    destruct (pushed_single_row (rev (c0 :: cur')) []) as [Hn Hl];
      [now rewrite elem_of_rev|now left|].
    rewrite app_nil_r in Hn, Hl. split; [exact Hn|].
    rewrite length_rev in Hl. lia.
  - assert (Hfresh : newline ∉ ([] : list ascii)) by apply not_elem_of_nil.
    destruct (Ascii.eqb_spec c newline) as [->|Hne].
    + constructor; [|apply IH; [exact Hfresh|lia|cbn; lia]].
      destruct (pushed_single_row (rev cur) [newline]) as [Hn Hl];
        [now rewrite elem_of_rev|now right|].
      change (rev (newline :: cur)) with (rev cur ++ [newline]).
      split; [exact Hn|].
      rewrite length_app, length_rev in Hl. cbn [length] in Hl. lia.
    + assert (Hpush :
        (newline ∉ list_ascii_of_string (pushed (rev (c :: cur))))
        /\ String.length (pushed (rev (c :: cur))) <= 1023).
      { destruct (pushed_single_row (rev (c :: cur)) []) as [Hn Hl].
        - rewrite elem_of_rev, not_elem_of_cons. auto.
        - now left.
        - rewrite app_nil_r in Hn, Hl. split; [exact Hn|].
          rewrite length_rev in Hl. cbn [length] in Hl. lia. }
      destruct room as [|[|room']].
      * lia.
      * constructor; [exact Hpush|apply IH; [exact Hfresh|lia|cbn; lia]].
      * apply IH; [|lia|cbn; lia].
        rewrite not_elem_of_cons. auto.
Qed.

(** **** Lines read from the file *)

Lemma getlines_single_rows (s : string) :
  forall cur,
    newline ∉ cur ->
    Forall (fun l => newline ∉ list_ascii_of_string l) (getlines s cur).
Proof.
  induction s as [|c s IH]; intros cur Hcur; cbn [getlines].
  - destruct cur as [|c0 cur']; [constructor|].
    constructor; [|constructor].
    now rewrite chars_of_list, elem_of_rev.
  - destruct (Ascii.eqb_spec c newline) as [->|Hne].
    + constructor; [now rewrite chars_of_list, elem_of_rev|].
      apply IH, not_elem_of_nil.
    + apply IH. rewrite not_elem_of_cons. auto.
Qed.

Lemma clean_of_chars (l : string) :
  (tab ∉ list_ascii_of_string (clean_of l))
  /\ (newline ∉ list_ascii_of_string l ->
      newline ∉ list_ascii_of_string (clean_of l)).
Proof.
  induction l as [|c l [IHt IHn]]; cbn [clean_of list_ascii_of_string].
  - split; [apply not_elem_of_nil|auto].
  - destruct (Ascii.eqb_spec c tab) as [->|Hne].
    + rewrite chars_append. cbn [list_ascii_of_string].
      split.
      * rewrite elem_of_app, !elem_of_cons, elem_of_nil.
        intros [[Hx|[Hx|[Hx|[Hx|[]]]]]|Hx];
          try discriminate Hx. contradiction.
      * intros Hn. rewrite not_elem_of_cons in Hn. destruct Hn as [_ Hn].
        rewrite elem_of_app, !elem_of_cons, elem_of_nil.
        intros [[Hx|[Hx|[Hx|[Hx|[]]]]]|Hx];
          try discriminate Hx. now apply IHn.
    + cbn [list_ascii_of_string]. split.
      * rewrite not_elem_of_cons. split; [congruence|exact IHt].
      * intros Hn. rewrite not_elem_of_cons in Hn. destruct Hn as [Hc Hn].
        rewrite not_elem_of_cons. split; [exact Hc|now apply IHn].
Qed.

Lemma plain_loop_closed (previewHeight previewWidth : Z)
    (ls : list string) :
  forall count,
    plain_loop ls count previewHeight previewWidth
    = (fun l => String.substring 0 (to_size_t previewWidth) (clean_of l))
      <$> take (Z.to_nat (previewHeight - count)) ls.
Proof.
  induction ls as [|l rest IH]; intros count.
  - now rewrite take_nil.
  - cbn [plain_loop].
    destruct (Z.ltb_spec count previewHeight) as [Hlt|Hge].
    + replace (Z.to_nat (previewHeight - count))
        with (S (Z.to_nat (previewHeight - (count + 1)))) by lia.
      cbv zeta. rewrite clip_substring, IH. reflexivity.
    + replace (Z.to_nat (previewHeight - count)) with 0 by lia. reflexivity.
Qed.

Section Job.
Context {W : Type} `{FileSystem W}.

(** X28.  Whatever the tools write and whatever the file holds, no line
    that the text job stores contains a newline, so that each is written
    on the one screen row it is given; a line read from a tool has at most
    1023 characters. *)
Theorem text_job_single_rows (w : W) (p : fspath) (bat batcat : option string)
    (previewHeight previewWidth : Z) :
  Forall (fun l => newline ∉ list_ascii_of_string l)
         (text_job w p bat batcat previewHeight previewWidth)
  /\ Forall (fun l => String.length l <= 1023) (tool_lines bat)
  /\ Forall (fun l => String.length l <= 1023) (tool_lines batcat).
Proof.
  assert (Htool : forall out,
    Forall (fun l => (newline ∉ list_ascii_of_string l)
                     /\ String.length l <= 1023) (tool_lines out)).
  { intros [s|]; [|constructor]. cbn [tool_lines].
    apply fgets_lines_single_rows; [apply not_elem_of_nil|lia|cbn; lia]. }
  split; [|split; (eapply Forall_impl; [apply Htool|]; cbn; tauto)].
  unfold text_job.
  destruct (is_binary_file w p).
  { constructor; [|constructor]. intros Hin.
    apply list_elem_of_In in Hin. vm_compute in Hin.
    intuition discriminate. }
  pose proof (Htool bat) as Hbat. pose proof (Htool batcat) as Hcat.
  destruct (tool_lines bat) as [|l1 r1];
    [|apply (Forall_impl _ _ _ Hbat); cbn; tauto].
  destruct (tool_lines batcat) as [|l2 r2];
    [|apply (Forall_impl _ _ _ Hcat); cbn; tauto].
  destruct (fs_read w p) as [content|]; [|constructor].
  rewrite plain_loop_closed. apply Forall_fmap.
  eapply Forall_impl.
  - apply Forall_take, (getlines_single_rows content []), not_elem_of_nil.
  - cbn. intros l Hl. rewrite chars_substring. intros Hin.
    apply elem_of_take in Hin as (i & Hi & _).
    apply (proj2 (clean_of_chars l) Hl).
    apply list_elem_of_lookup. now exists i.
Qed.

(** X29.  When the file is not binary and neither tool writes anything,
    the text job stores the first [previewHeight] lines of the file, each
    with its tabs turned into four spaces and then cut to [previewWidth]
    characters: at most [previewHeight] lines, none wider than the box,
    none holding a tab. *)
Theorem text_job_fallback_fits (w : W) (p : fspath)
    (bat batcat : option string) (previewHeight previewWidth : Z)
    (content : string) :
  is_binary_file w p = false ->
  bat = None \/ bat = Some "" ->
  batcat = None \/ batcat = Some "" ->
  fs_read w p = Some content ->
  let lines := text_job w p bat batcat previewHeight previewWidth in
  lines
  = (fun l => String.substring 0 (to_size_t previewWidth) (clean_of l))
    <$> take (Z.to_nat previewHeight) (getlines content [])
  /\ length lines <= Z.to_nat previewHeight
  /\ Forall (fun l => String.length l <= to_size_t previewWidth
                      /\ tab ∉ list_ascii_of_string l) lines.
Proof.
  intros Hbin Hbat Hcat Hread lines. subst lines. unfold text_job.
  rewrite Hbin, Hread.
  assert (Hsilent : forall out, out = None \/ out = Some "" ->
                                tool_lines out = []).
  { intros out [->| ->]; reflexivity. }
  rewrite (Hsilent bat Hbat), (Hsilent batcat Hcat), plain_loop_closed.
  replace (previewHeight - 0)%Z with previewHeight by lia.
  split; [reflexivity|]. split.
  - rewrite length_fmap, length_take. lia.
  - apply Forall_fmap, Forall_forall. intros l _. cbn.
    rewrite length_substring, chars_substring. split; [lia|].
    intros Hin. apply elem_of_take in Hin as (i & Hi & _).
    apply (proj1 (clean_of_chars l)).
    apply list_elem_of_lookup. now exists i.
Qed.

End Job.

(** **** On the small file system *)

Import Toy Scenes.

(** [notes.txt] holds one line of five characters; in a box three
    characters wide it is cut. *)
Lemma text_job_fallback_fits_witness :
  text_job home notes None (Some "") 10 3 = ["hel"].
Proof.
  destruct (text_job_fallback_fits home notes None (Some "") 10 3 "hello")
    as (Hlines & _).
  - vm_compute. reflexivity.
  - now left.
  - now right.
  - vm_compute. reflexivity.
  - rewrite Hlines. vm_compute. reflexivity.
Defined.

Example fgets_two_lines :
  tool_lines (Some ("ab" +:+ String newline "cd")) = ["ab"; "cd"].
Proof. vm_compute. reflexivity. Qed.

End TextJobFacts.
